(** * fossa-nx: the concurrent scan orchestration engine

    A shallow embedding of the Go sources of fossa-nx
    (package [nx]: change detection and project resolution; package [main]:
    statistics, the worker pool and the exit-code logic of the root command),
    followed by the properties the natural-language specification states
    about them.

    Conventions.
    - A Go [string] is a sequence of bytes: Rocq's [string] (a list of
      [ascii]).
    - A Go [map[string]V] is a [gmap string V]; a map or slice variable that
      may be [nil] is an [option].
    - [int32]/[int64] values are [Z] with the two's-complement wrap-around
      written out ([wrap32], [wrap64]).
    - Package-level variables ([sync.Once] guards, caches) and the calls made
      to the outside world (processes, files) live in an explicit [World]
      that every operation threads through a small state monad.
    - Goroutines and channels of the worker pool are a step relation over
      pool configurations: one step is one move of one goroutine. *)

From stdpp Require Import gmap strings list fin_maps relations.
From Stdlib Require Import ZArith Ascii String Lia.

Local Open Scope Z_scope.

(* ===================================================================== *)
(** * Go standard-library string functions used by the sources           *)
(* ===================================================================== *)

Module GoStrings.

Definition byte (n : nat) : ascii := ascii_of_nat n.

(** The bytes the sources name: newline, backslash, slash and comma. *)
Definition newline : ascii := byte 10.
Definition backslash : ascii := byte 92.
Definition slash : ascii := "/".
Definition comma : ascii := ",".

(** [strings.HasPrefix(s, prefix)]. *)
Fixpoint HasPrefix (s pre : string) {struct pre} : bool :=
  match pre, s with
  | EmptyString, _ => true
  | String p pre', String c s' => Ascii.eqb c p && HasPrefix s' pre'
  | String _ _, EmptyString => false
  end.

(** [strings.ReplaceAll(s, old, new)] where [old] and [new] are one-byte
    strings, as at both call sites (backslash to slash). *)
Fixpoint ReplaceAll (s : string) (old new : ascii) : string :=
  match s with
  | EmptyString => EmptyString
  | String c s' =>
      String (if Ascii.eqb c old then new else c) (ReplaceAll s' old new)
  end.

(** [strings.Split(s, sep)] where [sep] is a one-byte string, as at every
    call site (comma, newline).  An input without separator yields the
    one-element slice [[s]]; in particular [Split "" sep = [""]]. *)
Fixpoint Split (s : string) (sep : ascii) : list string :=
  match s with
  | EmptyString => [EmptyString]
  | String c s' =>
      if Ascii.eqb c sep then EmptyString :: Split s' sep
      else match Split s' sep with
           | p :: ps => String c p :: ps
           | [] => [String c EmptyString]
           end
  end.

(** White space as [unicode.IsSpace] sees it, on the UTF-8 encoding:
    the one-byte runes tab, LF, VT, FF, CR and space, *)
Definition space1 (a : ascii) : bool :=
  let n := nat_of_ascii a in
  ((9 <=? n)%nat && (n <=? 13)%nat) || (n =? 32)%nat.

(** the two-byte runes U+0085 and U+00A0, *)
Definition space2 (a b : ascii) : bool :=
  (nat_of_ascii a =? 194)%nat &&
  ((nat_of_ascii b =? 133)%nat || (nat_of_ascii b =? 160)%nat).

(** and the three-byte runes U+1680, U+2000..U+200A, U+2028, U+2029,
    U+202F, U+205F and U+3000. *)
Definition space3 (a b c : ascii) : bool :=
  let x := nat_of_ascii a in
  let y := nat_of_ascii b in
  let z := nat_of_ascii c in
  ((x =? 225) && (y =? 154) && (z =? 128))%nat
  || ((x =? 226) && (y =? 128) &&
      (((128 <=? z) && (z <=? 138)) || (z =? 168) || (z =? 169) || (z =? 175)))%nat
  || ((x =? 226) && (y =? 129) && (z =? 159))%nat
  || ((x =? 227) && (y =? 128) && (z =? 128))%nat.

(** [strings.TrimLeftFunc(s, unicode.IsSpace)]: drop leading white-space
    runes. *)
Fixpoint TrimLeftSpace (s : string) : string :=
  match s with
  | EmptyString => s
  | String a s1 =>
      if space1 a then TrimLeftSpace s1
      else match s1 with
           | EmptyString => s
           | String b s2 =>
               if space2 a b then TrimLeftSpace s2
               else match s2 with
                    | EmptyString => s
                    | String c s3 =>
                        if space3 a b c then TrimLeftSpace s3 else s
                    end
           end
  end.

Fixpoint rev_onto (s acc : string) : string :=
  match s with
  | EmptyString => acc
  | String c s' => rev_onto s' (String c acc)
  end.

Definition rev (s : string) : string := rev_onto s EmptyString.

(** The same scan on the reversed string: the bytes of a rune appear last
    byte first. *)
Fixpoint TrimLeftSpace_rev (s : string) : string :=
  match s with
  | EmptyString => s
  | String a s1 =>
      if space1 a then TrimLeftSpace_rev s1
      else match s1 with
           | EmptyString => s
           | String b s2 =>
               if space2 b a then TrimLeftSpace_rev s2
               else match s2 with
                    | EmptyString => s
                    | String c s3 =>
                        if space3 c b a then TrimLeftSpace_rev s3 else s
                    end
           end
  end.

(** [strings.TrimRightFunc(s, unicode.IsSpace)]. *)
Definition TrimRightSpace (s : string) : string :=
  rev (TrimLeftSpace_rev (rev s)).

(** [strings.TrimSpace(s)]: all leading and trailing white space removed. *)
Definition TrimSpace (s : string) : string :=
  TrimRightSpace (TrimLeftSpace s).

Definition is_empty (s : string) : bool :=
  match s with EmptyString => true | _ => false end.

End GoStrings.

Import GoStrings.

(* ===================================================================== *)
(** * Package nx: the world it runs in                                   *)
(* ===================================================================== *)

Module Nx.

(** A Go [error] value, kept as its message. *)
Definition error := string.

(** [fmt.Errorf("<msg>: %w", e)]. *)
Definition wrap_error (msg : string) (e : error) : error :=
  msg +:+ ": " +:+ e.

(** [ProjectNode] and [ProjectGraph] of changes.go. *)
Record ProjectNodeData := { Root : string }.
Record ProjectNode := { Name : string; Data : ProjectNodeData }.
Record ProjectGraph := { Nodes : option (gmap string ProjectNode) }.

(** The calls the package makes to the outside world. *)
Inductive Call :=
| Exec (name : string) (args : list string)  (* exec.Command(..).Output/Run/CombinedOutput *)
| CreateTemp (dir pattern : string)          (* os.CreateTemp *)
| ReadFile (path : string)                   (* os.ReadFile *)
| Remove (path : string).                    (* deferred Close + os.Remove *)

(** What a call gives back: its output (standard output, file name or
    file contents) and its error, [None] for [nil]. *)
Definition Response : Type := string * option error.

(** The package-level variables of changes.go and of the project
    resolver, and the history of calls made so far (oldest first). *)
Record World := {
  projectGraphCache : option (gmap string ProjectNode);
  projectGraphOnce : bool;
  changedFilesCache : option (list string);
  changedFilesOnce : bool;
  allProjectsCache : option (list string);
  allProjectsLoaded : bool;
  trace : list Call
}.

(** The process at start-up: nothing cached, no [sync.Once] consumed. *)
Definition initial : World :=
  {| projectGraphCache := None; projectGraphOnce := false;
     changedFilesCache := None; changedFilesOnce := false;
     allProjectsCache := None; allProjectsLoaded := false;
     trace := [] |}.

Definition set_projectGraphCache (v : option (gmap string ProjectNode)) (w : World) : World :=
  {| projectGraphCache := v; projectGraphOnce := projectGraphOnce w;
     changedFilesCache := changedFilesCache w; changedFilesOnce := changedFilesOnce w;
     allProjectsCache := allProjectsCache w; allProjectsLoaded := allProjectsLoaded w;
     trace := trace w |}.

Definition set_projectGraphOnce (v : bool) (w : World) : World :=
  {| projectGraphCache := projectGraphCache w; projectGraphOnce := v;
     changedFilesCache := changedFilesCache w; changedFilesOnce := changedFilesOnce w;
     allProjectsCache := allProjectsCache w; allProjectsLoaded := allProjectsLoaded w;
     trace := trace w |}.

Definition set_changedFilesCache (v : option (list string)) (w : World) : World :=
  {| projectGraphCache := projectGraphCache w; projectGraphOnce := projectGraphOnce w;
     changedFilesCache := v; changedFilesOnce := changedFilesOnce w;
     allProjectsCache := allProjectsCache w; allProjectsLoaded := allProjectsLoaded w;
     trace := trace w |}.

Definition set_changedFilesOnce (v : bool) (w : World) : World :=
  {| projectGraphCache := projectGraphCache w; projectGraphOnce := projectGraphOnce w;
     changedFilesCache := changedFilesCache w; changedFilesOnce := v;
     allProjectsCache := allProjectsCache w; allProjectsLoaded := allProjectsLoaded w;
     trace := trace w |}.

Definition set_allProjects (v : list string) (w : World) : World :=
  {| projectGraphCache := projectGraphCache w; projectGraphOnce := projectGraphOnce w;
     changedFilesCache := changedFilesCache w; changedFilesOnce := changedFilesOnce w;
     allProjectsCache := Some v; allProjectsLoaded := true;
     trace := trace w |}.

Definition log_call (c : Call) (w : World) : World :=
  {| projectGraphCache := projectGraphCache w; projectGraphOnce := projectGraphOnce w;
     changedFilesCache := changedFilesCache w; changedFilesOnce := changedFilesOnce w;
     allProjectsCache := allProjectsCache w; allProjectsLoaded := allProjectsLoaded w;
     trace := trace w ++ [c] |}.

(** ** The state monad *)

Definition M (A : Type) : Type := World → A * World.

Definition ret {A} (a : A) : M A := λ w, (a, w).
#[global] Instance M_ret : MRet M := @ret.
#[global] Instance M_bind : MBind M :=
  λ A B f m w, let '(a, w') := m w in f a w'.

Definition get {A} (f : World → A) : M A := λ w, (f w, w).
Definition modify (f : World → World) : M unit := λ w, (tt, f w).

(** A slice or map variable that may be [nil], read as a value. *)
Definition slice {A} (s : option (list A)) : list A := default [] s.
Definition nodes (g : option (gmap string ProjectNode)) : gmap string ProjectNode :=
  default ∅ g.

Section WithEnvironment.

(** The outside world: what a call answers, given every call made
    before it.  Nothing is assumed about it. *)
Variable os : list Call → Call → Response.

(** [json.Unmarshal(output, &graph)] of the standard library:
    the decoded graph, or the error it reports. *)
Variable json_Unmarshal : string → ProjectGraph + error.

Definition call (c : Call) : M Response :=
  λ w, (os (trace w) c, log_call c w).

(** *** changes.go *)

(** The arguments of the [git diff] command of [GetChangedFiles]. *)
Definition git_diff_args (base head : string) : list string :=
  if negb (is_empty base) && negb (is_empty head)
  then ["diff"; "--name-only"; base +:+ ".." +:+ head]
  else if negb (is_empty base)
  then ["diff"; "--name-only"; base]
  else ["diff"; "--name-only"; "HEAD"].

(** The loop over the lines of the diff: trim, drop empty lines,
    normalise backslashes. *)
Fixpoint collect_lines (lines : list string) (changedFiles : list string) : list string :=
  match lines with
  | [] => changedFiles
  | line :: rest =>
      let line := TrimSpace line in
      if negb (is_empty line)
      then collect_lines rest (changedFiles ++ [ReplaceAll line backslash slash])
      else collect_lines rest changedFiles
  end.

(** The function literal passed to [changedFilesOnce.Do]; its result
    is the value it leaves in the caller's local [err]. *)
Definition changedFiles_body (base head : string) : M (option error) :=
  r ← call (Exec "git" (git_diff_args base head));
  match r.2 with
  | Some cmdErr => ret (Some (wrap_error "failed to get changed files" cmdErr))
  | None =>
      let outputStr := TrimSpace r.1 in
      if is_empty outputStr
      then modify (set_changedFilesCache (Some []));; ret None
      else
        let lines := Split outputStr newline in
        modify (set_changedFilesCache (Some (collect_lines lines [])));;
        ret None
  end.

(** [GetChangedFiles].  [err] is a local of the call: it is [nil]
    unless this very call runs the function literal and that fails. *)
Definition GetChangedFiles (base head : string) : M (option (list string) * option error) :=
  ran ← get changedFilesOnce;
  err ← (if (ran : bool) then ret (None : option error)
         else modify (set_changedFilesOnce true);; changedFiles_body base head);
  match err with
  | Some e => ret (None, Some e)
  | None =>
      cache ← get changedFilesCache;
      ret (Some (slice cache), None)
  end.

Definition graph_args (sub file : string) : list string :=
  ["nx"; sub; "--file=" +:+ file; "--format=json"].

(** What follows the successful creation of the temporary file. *)
Definition projectGraph_query (file : string) : M (option error) :=
  r ← call (Exec "yarn" (graph_args "graph" file));
  r' ← match r.2 with
       | None => ret (None : option error)
       | Some _ => r2 ← call (Exec "yarn" (graph_args "dep-graph" file)); ret r2.2
       end;
  match r' with
  | Some cmdErr => ret (Some (wrap_error "failed to get project graph" cmdErr))
  | None =>
      o ← call (ReadFile file);
      match o.2 with
      | Some readErr => ret (Some (wrap_error "failed to read project graph file" readErr))
      | None =>
          match json_Unmarshal o.1 with
          | inr jsonErr => ret (Some (wrap_error "failed to parse project graph" jsonErr))
          | inl graph => modify (set_projectGraphCache (Nodes graph));; ret None
          end
      end
  end.

Definition projectGraph_body : M (option error) :=
  t ← call (CreateTemp "" "nx_graph_*.json");
  match t.2 with
  | Some tempErr => ret (Some (wrap_error "failed to create temporary file" tempErr))
  | None =>
      err ← projectGraph_query t.1;
      call (Remove t.1);;
      ret err
  end.

(** [GetProjectGraph]: the cache and the local [err] are returned
    together, whatever they hold. *)
Definition GetProjectGraph : M (option (gmap string ProjectNode) * option error) :=
  ran ← get projectGraphOnce;
  err ← (if (ran : bool) then ret (None : option error)
         else modify (set_projectGraphOnce true);; projectGraph_body);
  cache ← get projectGraphCache;
  ret (cache, err).

(** The inner loop of [GetChangedProjectsUsingGraph]: is some changed
    file in the directory [projectRoot]?  It stops at the first hit. *)
Fixpoint file_in_project (projectRoot : string) (changedFiles : list string) : bool :=
  match changedFiles with
  | [] => false
  | file :: rest =>
      if HasPrefix file (projectRoot +:+ "/") || bool_decide (file = projectRoot)
      then true
      else file_in_project projectRoot rest
  end.

(** One iteration of the outer loop. *)
Definition mark_node (changedFiles : list string) (node : ProjectNode)
    (changedProjectsSet : gmap string bool) : gmap string bool :=
  let projectRoot := ReplaceAll (Root (Data node)) backslash slash in
  if file_in_project projectRoot changedFiles
  then <[Name node := true]> changedProjectsSet
  else changedProjectsSet.

(** The outer loop, over the nodes in the order the map hands them out. *)
Definition mark_nodes (changedFiles : list string) (ns : list ProjectNode) : gmap string bool :=
  foldl (λ set node, mark_node changedFiles node set) ∅ ns.

(** Mapping changed files to projects, then the set as a slice.  Go
    leaves the iteration order of a map open; [map_to_list] fixes
    one. *)
Definition changed_projects (changedFiles : list string)
    (projectGraph : gmap string ProjectNode) : list string :=
  (map_to_list (mark_nodes changedFiles (map_to_list projectGraph).*2)).*1.

(** [GetChangedProjectsUsingGraph]. *)
Definition GetChangedProjectsUsingGraph (base head : string)
    : M (option (list string) * option error) :=
  cf ← GetChangedFiles base head;
  match cf.2 with
  | Some err => ret (None, Some err)
  | None =>
      let changedFiles := slice cf.1 in
      if (List.length changedFiles =? 0)%nat then ret (Some [], None)
      else
        pg ← GetProjectGraph;
        match pg.2 with
        | Some err => ret (None, Some err)
        | None => ret (Some (changed_projects changedFiles (nodes pg.1)), None)
        end
  end.

(** The final loop of [ShouldSkipProject]. *)
Fixpoint in_changed (projectName : string) (changedProjects : list string) : bool :=
  match changedProjects with
  | [] => false
  | changed :: rest =>
      if bool_decide (changed = projectName) then true
      else in_changed projectName rest
  end.

(** [ShouldSkipProject]. *)
Definition ShouldSkipProject (projectName base head : string) (forceAll : bool)
    : M (bool * option error) :=
  if forceAll then ret (false, None)
  else if is_empty base && is_empty head then ret (false, None)
  else
    cp ← GetChangedProjectsUsingGraph base head;
    match cp.2 with
    | Some _ => ret (false, None)
    | None => ret (negb (in_changed projectName (slice cp.1)), None)
    end.

(** *** The project resolver *)

(** The loop that keeps the non-empty lines of the tool's output. *)
Fixpoint nonempty_lines (rawProjects : list string) (projects : list string) : list string :=
  match rawProjects with
  | [] => projects
  | p :: rest =>
      if negb (is_empty p) then nonempty_lines rest (projects ++ [p])
      else nonempty_lines rest projects
  end.

Definition affected_args (base head : string) : list string :=
  let args := ["show"; "projects"; "--affected"; "-t"; "build"] in
  let args := if negb (is_empty base) && negb (is_empty head)
              then args ++ ["--base=" +:+ base; "--head=" +:+ head]
              else args in
  "nx" :: args.

(** [fmt.Errorf("failed to run nx command: %w\nOutput: %s", err, output)]. *)
Definition nx_command_error (err : error) (output : string) : error :=
  "failed to run nx command: " +:+ err +:+ String newline "Output: " +:+ output.

(** [GetProjects].  Under the lock the loaded flag is tested a second
    time; sequentially the two tests see the same value. *)
Definition GetProjects (base head : string) (getAllProjects : bool)
    : M (option (list string) * option error) :=
  if getAllProjects then
    loaded ← get allProjectsLoaded;
    if (loaded : bool) then
      cache ← get allProjectsCache;
      ret (cache, None)
    else
      r ← call (Exec "yarn" ["nx"; "show"; "projects"]);
      match r.2 with
      | Some err => ret (None, Some (nx_command_error err r.1))
      | None =>
          let rawProjects := Split (TrimSpace r.1) newline in
          let projects := nonempty_lines rawProjects [] in
          modify (set_allProjects projects);;
          ret (Some projects, None)
      end
  else
    r ← call (Exec "yarn" (affected_args base head));
    match r.2 with
    | Some err => ret (None, Some (nx_command_error err r.1))
    | None =>
        let rawProjects := Split (TrimSpace r.1) newline in
        ret (Some (nonempty_lines rawProjects []), None)
    end.

(** [GetAffectedProjects]. *)
Definition GetAffectedProjects (base head : string) :=
  GetProjects base head false.

(** The lookup map built from the universe of projects. *)
Definition build_projectMap (allProjects : list string) : gmap string bool :=
  foldl (λ projectMap p, <[p := true]> projectMap) ∅ allProjects.

(** [projectMap[k]]: a missing key reads as [false]. *)
Definition map_get (projectMap : gmap string bool) (k : string) : bool :=
  default false (projectMap !! k).

(** The loop over the requested names. *)
Fixpoint classify (projectMap : gmap string bool) (requestedProjects : list string)
    (validProjects invalidProjects : list string) : list string * list string :=
  match requestedProjects with
  | [] => (validProjects, invalidProjects)
  | project :: rest =>
      let trimmedProject := TrimSpace project in
      if is_empty trimmedProject
      then classify projectMap rest validProjects invalidProjects
      else if map_get projectMap trimmedProject
      then classify projectMap rest (validProjects ++ [trimmedProject]) invalidProjects
      else classify projectMap rest validProjects (invalidProjects ++ [trimmedProject])
  end.

(** [GetProjectsFromList] once the universe is known. *)
Definition projects_from_list (allProjects : list string) (projectsList : string)
    : list string * list string :=
  classify (build_projectMap allProjects) (Split projectsList ",") [] [].

(** [GetProjectsFromList]: valid names, invalid names, error. *)
Definition GetProjectsFromList (projectsList : string)
    : M (option (list string) * option (list string) * option error) :=
  ap ← GetProjects "" "" true;
  match ap.2 with
  | Some err => ret (None, None, Some (wrap_error "failed to get all projects" err))
  | None =>
      let vi := projects_from_list (slice ap.1) projectsList in
      ret (Some vi.1, Some vi.2, None)
  end.

End WithEnvironment.

End Nx.

(* ===================================================================== *)
(** * Package main: statistics                                           *)
(* ===================================================================== *)

Module Main.

(** Two's-complement wrap-around of [int32] and [int64] arithmetic. *)
Definition wrap (bits : Z) (z : Z) : Z :=
  (z + 2 ^ (bits - 1)) mod 2 ^ bits - 2 ^ (bits - 1).
Definition wrap32 : Z → Z := wrap 32.
Definition wrap64 : Z → Z := wrap 64.

(** [time.Second], [time.Minute] and [time.Hour] in nanoseconds. *)
Definition Second : Z := 1000000000.
Definition Minute : Z := 60 * Second.
Definition Hour : Z := 60 * Minute.

(** [Stats]; the mutex guards [minDuration] and has no state of its own
    between calls. *)
Record Stats := {
  totalProjects : Z;    (* int32 *)
  successful : Z;       (* int32 *)
  failed : Z;           (* int32 *)
  vulnerabilities : Z;  (* int32 *)
  totalDuration : Z;    (* int64, nanoseconds *)
  maxDuration : Z;      (* int64, nanoseconds *)
  minDuration : Z       (* int64, nanoseconds *)
}.

(** [&Stats{}]: every field zero. *)
Definition zero_Stats : Stats :=
  {| totalProjects := 0; successful := 0; failed := 0; vulnerabilities := 0;
     totalDuration := 0; maxDuration := 0; minDuration := 0 |}.

(** [Stats.initialize]: [vulnerabilities] is not among the fields it
    stores to. *)
Definition initialize (projectCount : Z) (s : Stats) : Stats :=
  {| totalProjects := wrap32 projectCount;
     successful := 0;
     failed := 0;
     vulnerabilities := vulnerabilities s;
     totalDuration := 0;
     maxDuration := 0;
     minDuration := Hour |}.

(** [Stats.recordResult].  The compare-and-swap loop on [maxDuration]
    is shown as it runs with no competing writer: the swap succeeds at
    its first attempt. *)
Definition recordResult (success : bool) (duration : Z) (vulnCount : Z) (s : Stats) : Stats :=
  let durationNanos := duration in
  {| totalProjects := totalProjects s;
     successful := if success then wrap32 (successful s + 1) else successful s;
     failed := if success then failed s else wrap32 (failed s + 1);
     vulnerabilities :=
       if 0 <? vulnCount then wrap32 (vulnerabilities s + wrap32 vulnCount)
       else vulnerabilities s;
     totalDuration := wrap64 (totalDuration s + durationNanos);
     maxDuration :=
       if durationNanos <=? maxDuration s then maxDuration s else durationNanos;
     minDuration :=
       if durationNanos <? minDuration s then durationNanos else minDuration s |}.

(** The average [print] computes: zero without results, else the
    truncating [int64] quotient (by a positive divisor, so it stays in
    range). *)
Definition avgDuration (s : Stats) : Z :=
  let n := wrap32 (successful s + failed s) in
  if 0 <? n then Z.quot (totalDuration s) n else 0.

(** The lines [print] logs.  A duration line carries the duration and
    whether it is shown in minutes. *)
Inductive ReportLine :=
| Title
| TotalProjectsLine (n : Z)
| SuccessfulLine (n : Z)
| FailedLine (n : Z)
| VulnerabilitiesLine (n : Z)
| AverageDurationLine (minutes : bool) (d : Z)
| MinDurationLine (minutes : bool) (d : Z)
| MaxDurationLine (minutes : bool) (d : Z).

(** [d.Seconds() > 60.0].  [Seconds] is
    [float64(d/1e9) + float64(d%1e9)/1e9]; on every [int64] that sum
    exceeds 60 exactly when [d] exceeds sixty seconds. *)
Definition over_a_minute (d : Z) : bool := Minute <? d.

(** [Stats.print], as the list of lines it logs. *)
Definition print (s : Stats) : list ReportLine :=
  let avg := avgDuration s in
  [Title;
   TotalProjectsLine (totalProjects s);
   SuccessfulLine (successful s);
   FailedLine (failed s);
   VulnerabilitiesLine (vulnerabilities s);
   AverageDurationLine (over_a_minute avg) avg]
  ++ (if 0 <? wrap32 (successful s + failed s)
      then [MinDurationLine (over_a_minute (minDuration s)) (minDuration s);
            MaxDurationLine (over_a_minute (maxDuration s)) (maxDuration s)]
      else []).

(** [models.Result]. *)
Record Result := {
  Project : string;
  Error : option Nx.error;
  Duration : Z;              (* time.Duration: int64 nanoseconds *)
  EndTime : Z;
  Issues : list string;      (* []models.VulnerabilityIssue, by name *)
  FossaLink : string;
  DependencyCount : Z
}.

(** The body of the collector loop on the statistics. *)
Definition record (s : Stats) (result : Result) : Stats :=
  let success := bool_decide (Error result = None) in
  recordResult success (Duration result) (Z.of_nat (List.length (Issues result))) s.

(* =================================================================== *)
(** ** The worker pool of [processProjectsOptimized]                    *)
(* =================================================================== *)

(** Where a worker goroutine stands: at its [select], inside the scan of
    a project, blocked on sending the result, or returned. *)
Inductive Worker :=
| Idle
| Running (project : string)
| Sending (result : Result)
| Exited.

(** A configuration of the pool: the feeder goroutine (the projects it
    has still to send, and whether it has returned and closed
    [projectCh]), the two buffered channels, the workers, the goroutine
    that closes [resultCh], the collector loop with its [results] slice
    and the statistics, and the deadline context. *)
Record Pool := mkPool {
  to_send : list string;
  feeder_done : bool;
  projectCh : list string;
  workers : list Worker;
  resultCh : list Result;
  resultCh_closed : bool;
  results : list Result;
  stats : Stats;
  returned : bool;
  cancelled : bool
}.

(** What a worker puts in a result: the project it took, the scanner's
    error, and the vulnerability data only after a successful scan.
    [time.Since] of a monotonic reading is a non-negative [int64]. *)
Definition scan_outcome (project : string) (r : Result) : Prop :=
  Project r = project ∧
  0 ≤ Duration r < 2 ^ 63 ∧
  (is_Some (Error r) → Issues r = [] ∧ FossaLink r = "" ∧ DependencyCount r = 0).

(** Both channels are made with capacity [workers*2]. *)
Definition capacity (n : nat) : nat := 2 * n.

Definition all_exited (ws : list Worker) : bool :=
  forallb (λ w, match w with Exited => true | _ => false end) ws.

(** One step of one goroutine (or of the deadline), for a pool of [n]
    workers. *)
Inductive step (n : nat) : Pool → Pool → Prop :=
(* feeder: [case projectCh <- project] *)
| FeederSend p ts pc ws rc rcc rs st ret can :
    (List.length pc < capacity n)%nat →
    step n (mkPool (p :: ts) false pc ws rc rcc rs st ret can)
           (mkPool ts false (pc ++ [p]) ws rc rcc rs st ret can)
(* feeder: [case <-ctx.Done()], then the deferred close *)
| FeederCancelled p ts pc ws rc rcc rs st ret :
    step n (mkPool (p :: ts) false pc ws rc rcc rs st ret true)
           (mkPool (p :: ts) true pc ws rc rcc rs st ret true)
(* feeder: end of the loop, then the deferred close *)
| FeederFinish pc ws rc rcc rs st ret can :
    step n (mkPool [] false pc ws rc rcc rs st ret can)
           (mkPool [] true pc ws rc rcc rs st ret can)
(* worker: [case project, ok := <-projectCh] with a project *)
| WorkerTake i p ts fd pc ws rc rcc rs st ret can :
    ws !! i = Some Idle →
    step n (mkPool ts fd (p :: pc) ws rc rcc rs st ret can)
           (mkPool ts fd pc (<[i := Running p]> ws) rc rcc rs st ret can)
(* worker: the channel is closed and drained *)
| WorkerClosed i ts ws rc rcc rs st ret can :
    ws !! i = Some Idle →
    step n (mkPool ts true [] ws rc rcc rs st ret can)
           (mkPool ts true [] (<[i := Exited]> ws) rc rcc rs st ret can)
(* worker: [case <-ctx.Done()] *)
| WorkerCancelled i ts fd pc ws rc rcc rs st ret :
    ws !! i = Some Idle →
    step n (mkPool ts fd pc ws rc rcc rs st ret true)
           (mkPool ts fd pc (<[i := Exited]> ws) rc rcc rs st ret true)
(* worker: the scan of the project returns *)
| WorkerScanned i p r ts fd pc ws rc rcc rs st ret can :
    ws !! i = Some (Running p) →
    scan_outcome p r →
    step n (mkPool ts fd pc ws rc rcc rs st ret can)
           (mkPool ts fd pc (<[i := Sending r]> ws) rc rcc rs st ret can)
(* worker: [resultCh <- models.Result{...}] *)
| WorkerSend i r ts fd pc ws rc rcc rs st ret can :
    ws !! i = Some (Sending r) →
    (List.length rc < capacity n)%nat →
    step n (mkPool ts fd pc ws rc rcc rs st ret can)
           (mkPool ts fd pc (<[i := Idle]> ws) (rc ++ [r]) rcc rs st ret can)
(* [wg.Wait(); close(resultCh)] *)
| CloseResults ts fd pc ws rc rs st ret can :
    all_exited ws = true →
    step n (mkPool ts fd pc ws rc false rs st ret can)
           (mkPool ts fd pc ws rc true rs st ret can)
(* collector: one iteration of [for result := range resultCh] *)
| Collect r ts fd pc ws rc rcc rs st can :
    step n (mkPool ts fd pc ws (r :: rc) rcc rs st false can)
           (mkPool ts fd pc ws rc rcc (rs ++ [r]) (record st r) false can)
(* collector: the channel is closed and drained; the function returns *)
| CollectorReturn ts fd pc ws rs st can :
    step n (mkPool ts fd pc ws [] true rs st false can)
           (mkPool ts fd pc ws [] true rs st true can)
(* the deadline of the context passes *)
| Deadline ts fd pc ws rc rcc rs st ret :
    step n (mkPool ts fd pc ws rc rcc rs st ret false)
           (mkPool ts fd pc ws rc rcc rs st ret true).

(** The pool when [processProjectsOptimized] has started its goroutines. *)
Definition start (projects : list string) (n : nat) (st : Stats) : Pool :=
  mkPool projects false [] (replicate n Idle) [] false [] st false false.

(** The configurations a run can be in. *)
Definition reachable (projects : list string) (n : nat) (st : Stats) (c : Pool) : Prop :=
  rtc (step n) (start projects n st) c.

(** The project a worker holds, if any. *)
Definition held (w : Worker) : list string :=
  match w with
  | Running p => [p]
  | Sending r => [Project r]
  | Idle | Exited => []
  end.

(** How many steps a configuration has left at most. *)
Definition worker_weight (w : Worker) : nat :=
  match w with
  | Running _ => 4
  | Sending _ => 3
  | Idle => 1
  | Exited => 0
  end.

Definition flag_weight (done : bool) : nat := if done then 0 else 1.

Definition weight (c : Pool) : nat :=
  5 * List.length (to_send c) + 4 * List.length (projectCh c)
  + sum_list_with worker_weight (workers c) + List.length (resultCh c)
  + flag_weight (feeder_done c) + flag_weight (resultCh_closed c)
  + flag_weight (returned c) + flag_weight (cancelled c).

(* =================================================================== *)
(** ** The root command                                                 *)
(* =================================================================== *)

(** The flags of the root command that bear on control flow. *)
Record Flags := {
  base : string;
  head : string;
  maxConcurrent : Z;
  allProjects : bool;
  includeUnmapped : bool;
  projectName : string;
  emailEnabled : bool;
  toEmails : string;
  githubEnabled : bool;
  githubToken : string;
  cpuProfile : string;
  memProfile : string
}.

(** How the process ends: [os.Exit(code)] (also through [log.Fatalf]),
    or a plain return of the function at hand. *)
Inductive Outcome :=
| Exit (code : Z)
| Return.

(** What the run logs, as far as errors are concerned. *)
Inductive LogEntry :=
| Fatalf (msg : string)
| Printf (msg : string)
| StatsReport (lines : list ReportLine).

(** [strings.Contains(s, ",")]. *)
Fixpoint Contains (s : string) (c : ascii) : bool :=
  match s with
  | EmptyString => false
  | String a s' => Ascii.eqb a c || Contains s' c
  end.

(** [email.ParseEmailList]. *)
Fixpoint parse_emails (rawList : list string) (result : list string) : list string :=
  match rawList with
  | [] => result
  | addr :: rest =>
      let trimmed := TrimSpace addr in
      if negb (is_empty trimmed) then parse_emails rest (result ++ [trimmed])
      else parse_emails rest result
  end.

Definition ParseEmailList (emails : string) : list string :=
  parse_emails (Split emails ",") [].

(** The outcome of the project-selection part of [Run]. *)
Inductive Selection :=
| Fatal (msg : string)                 (* log.Fatalf: exit status 1 *)
| NothingToDo                          (* "No projects found to analyze." *)
| Selected (projects : list string).

(** The loops that split a list by [mapping.IsProjectMapped]. *)
Fixpoint keep_mapped (IsProjectMapped : string → bool) (ps : list string)
    (mappedProjects : list string) : list string :=
  match ps with
  | [] => mappedProjects
  | project :: rest =>
      if IsProjectMapped project
      then keep_mapped IsProjectMapped rest (mappedProjects ++ [project])
      else keep_mapped IsProjectMapped rest mappedProjects
  end.

(** The search for the single requested project. *)
Fixpoint project_exists (projectName : string) (allAvailableProjects : list string) : bool :=
  match allAvailableProjects with
  | [] => false
  | p :: rest =>
      if bool_decide (p = projectName) then true else project_exists projectName rest
  end.

(** The collaborators of the root command outside the pool. *)
Record Collaborators := {
  IsProjectMapped : string → bool;                    (* mapping.IsProjectMapped *)
  NumCPU : nat;                                       (* runtime.NumCPU *)
  SendHTMLReport : list Result → option Nx.error;     (* email.SendHTMLReport *)
  CreateIssues : list Result → option Nx.error;       (* github.CreateIssues *)
  CreateCommitStatus : list Result → option Nx.error; (* github.CreateCommitStatus *)
  cpu_create_error : option Nx.error;     (* os.Create(cpuProfile) *)
  cpu_start_error : option Nx.error;      (* pprof.StartCPUProfile *)
  mem_create_error : option Nx.error;     (* os.Create(memProfile) *)
  mem_write_error : option Nx.error       (* pprof.WriteHeapProfile *)
}.

Section RootCommand.

Variable os : list Nx.Call → Nx.Call → Nx.Response.
Variable co : Collaborators.

(** [Run], from the flag check to the choice of the projects. *)
Definition select_projects (f : Flags) : Nx.M Selection :=
  if negb (is_empty (projectName f))
     && (allProjects f || (negb (is_empty (base f)) || negb (is_empty (head f))))
  then Nx.ret (Fatal "Error: --project flag cannot be used with --all, --base, or --head")
  else if negb (is_empty (projectName f)) then
    if Contains (projectName f) "," then
      r ← Nx.GetProjectsFromList os (projectName f);
      match r.2 with
      | Some err => Nx.ret (Fatal ("Error getting projects: " +:+ err))
      | None =>
          let validProjects := Nx.slice r.1.1 in
          if (List.length validProjects =? 0)%nat
          then Nx.ret (Fatal ("No valid projects found in the list: " +:+ projectName f))
          else if negb (includeUnmapped f) then
            let mappedProjects := keep_mapped (IsProjectMapped co) validProjects [] in
            if (List.length mappedProjects =? 0)%nat
            then Nx.ret (Fatal "No mapped projects found in the list. Use --include-unmapped to include unmapped projects.")
            else Nx.ret (Selected mappedProjects)
          else Nx.ret (Selected validProjects)
      end
    else
      r ← Nx.GetProjects os "" "" true;
      match r.2 with
      | Some err => Nx.ret (Fatal ("Error getting projects: " +:+ err))
      | None =>
          if negb (project_exists (projectName f) (Nx.slice r.1))
          then Nx.ret (Fatal ("Project '" +:+ projectName f +:+ "' not found."))
          else if negb (includeUnmapped f) && negb (IsProjectMapped co (projectName f))
          then Nx.ret (Fatal ("Project '" +:+ projectName f +:+ "' is not mapped in configuration. Use --include-unmapped to include it."))
          else Nx.ret (Selected [projectName f])
      end
  else
    r ← Nx.GetProjects os (base f) (head f) (allProjects f);
    match r.2 with
    | Some err => Nx.ret (Fatal ("Error getting projects: " +:+ err))
    | None =>
        let candidateProjects := Nx.slice r.1 in
        let projects :=
          if negb (includeUnmapped f)
          then keep_mapped (IsProjectMapped co) candidateProjects []
          else candidateProjects in
        if (List.length projects =? 0)%nat then Nx.ret NothingToDo
        else Nx.ret (Selected projects)
    end.

(** The number of workers handed to the pool. *)
Definition worker_count (f : Flags) : nat :=
  if maxConcurrent f <=? 0 then NumCPU co else Z.to_nat (maxConcurrent f).

(** The statistics the pool is started with. *)
Definition fresh_stats (projects : list string) : Stats :=
  initialize (Z.of_nat (List.length projects)) zero_Stats.

Definition log_error (what : string) (e : option Nx.error) : list LogEntry :=
  match e with
  | Some err => [Printf (what +:+ ": " +:+ err)]
  | None => []
  end.

(** [Run], from the return of the pool on: the summary, the
    notifications, the exit. *)
Definition after_pool (f : Flags) (results : list Result) (stats : Stats)
    : list LogEntry * Outcome :=
  let recipientList :=
    if negb (is_empty (toEmails f)) then ParseEmailList (toEmails f) else [] in
  let emailConfig_Enabled :=
    emailEnabled f && (0 <? List.length recipientList)%nat in
  let githubConfig_Enabled :=
    githubEnabled f && negb (is_empty (githubToken f)) in
  let log :=
    [StatsReport (print stats)]
    ++ (if emailConfig_Enabled
        then log_error "Error sending email report" (SendHTMLReport co results)
        else [])
    ++ (if githubConfig_Enabled
        then log_error "Error creating GitHub issues" (CreateIssues co results)
             ++ log_error "Error creating GitHub commit status"
                  (CreateCommitStatus co results)
        else []) in
  (log, if 0 <? failed stats then Exit 1 else Return).

(** [Run].  [final] is the configuration in which the pool returned,
    when the run gets that far. *)
Definition Run (f : Flags) (final : Pool) : Nx.M (list LogEntry * Outcome) :=
  sel ← select_projects f;
  match sel with
  | Fatal msg => Nx.ret ([Fatalf msg], Exit 1)
  | NothingToDo => Nx.ret ([Printf "No projects found to analyze."], Return)
  | Selected projects => Nx.ret (after_pool f (results final) (stats final))
  end.

(** [PersistentPreRun]: the CPU profile, when asked for. *)
Definition PersistentPreRun (f : Flags) : list LogEntry * Outcome :=
  if negb (is_empty (cpuProfile f)) then
    match cpu_create_error co with
    | Some err => ([Fatalf ("Could not create CPU profile: " +:+ err)], Exit 1)
    | None =>
        match cpu_start_error co with
        | Some err => ([Fatalf ("Could not start CPU profile: " +:+ err)], Exit 1)
        | None => ([], Return)
        end
    end
  else ([], Return).

(** [PersistentPostRun]: the memory profile, when asked for. *)
Definition PersistentPostRun (f : Flags) : list LogEntry * Outcome :=
  if negb (is_empty (memProfile f)) then
    match mem_create_error co with
    | Some err => ([Fatalf ("Could not create memory profile: " +:+ err)], Exit 1)
    | None =>
        match mem_write_error co with
        | Some err => ([Fatalf ("Could not write memory profile: " +:+ err)], Exit 1)
        | None => ([], Return)
        end
    end
  else ([], Return).

(** [main] once the flags are parsed: [rootCmd.Execute] runs the
    pre-run hook, [Run] and the post-run hook in turn, each only if
    the process is still alive, and returns [nil]; [main] then ends
    with status 0. *)
Definition main (f : Flags) (final : Pool) : Nx.M (list LogEntry * Z) :=
  match PersistentPreRun f with
  | (log, Exit code) => Nx.ret (log, code)
  | (log, Return) =>
      r ← Run f final;
      match r.2 with
      | Exit code => Nx.ret (log ++ r.1, code)
      | Return =>
          match PersistentPostRun f with
          | (log', Exit code) => Nx.ret (log ++ r.1 ++ log', code)
          | (log', Return) => Nx.ret (log ++ r.1 ++ log', 0)
          end
      end
  end.

(** The pool configurations [final] may stand for in a run that
    selects [projects]. *)
Definition pool_returned (f : Flags) (projects : list string) (final : Pool) : Prop :=
  reachable projects (worker_count f) (fresh_stats projects) final
  ∧ returned final = true.

End RootCommand.

End Main.

(* ===================================================================== *)
(** * Package mapping: the configuration file                            *)
(* ===================================================================== *)

Module Mapping.

Definition error := string.

(** [models.TeamMapping], [models.FossaConfig] and [models.Config].
    The package looks at [Projects] through [len] and lookups, and at
    [Teams] and [Prefixes] through [len] and [range]: a nil map or slice
    is an empty one for all of them. *)
Record TeamMapping := {
  Prefixes : list string;
  TeamValue : string;
  CheckmarxPath : string
}.

Record FossaConfig := {
  Projects : gmap string string;
  DefaultProject : string;
  Teams : list TeamMapping;
  DefaultTeam : string;
  Endpoint : string
}.

Record Config := { Fossa : FossaConfig }.

(** What the operating system and the YAML decoder answer at the time of
    a call.  Nothing is assumed about them, and two calls may see two
    different environments. *)
Record Env := {
  Getenv : string → string;                 (* os.Getenv *)
  Stat : string → option error;             (* os.Stat: its error *)
  UserHomeDir : string + error;             (* os.UserHomeDir *)
  Join : string → string → string;          (* filepath.Join *)
  ReadFile : string → string + error;       (* ioutil.ReadFile *)
  yaml_Unmarshal : string → Config + error  (* yaml.Unmarshal into a fresh Config *)
}.

(** The package-level variables, the files read so far and the lines
    printed so far (oldest first). *)
Record State := {
  globalConfig : option Config;   (* a nil pointer is [None] *)
  configOnce : bool;
  configError : option error;
  reads : list string;
  stdout : list string
}.

Definition initial : State :=
  {| globalConfig := None; configOnce := false; configError := None;
     reads := []; stdout := [] |}.

Definition set_globalConfig (c : Config) (s : State) : State :=
  {| globalConfig := Some c; configOnce := configOnce s;
     configError := configError s; reads := reads s; stdout := stdout s |}.

Definition set_configError (e : option error) (s : State) : State :=
  {| globalConfig := globalConfig s; configOnce := true;
     configError := e; reads := reads s; stdout := stdout s |}.

Definition log_read (path : string) (s : State) : State :=
  {| globalConfig := globalConfig s; configOnce := configOnce s;
     configError := configError s; reads := reads s ++ [path]; stdout := stdout s |}.

Definition print (line : string) (s : State) : State :=
  {| globalConfig := globalConfig s; configOnce := configOnce s;
     configError := configError s; reads := reads s; stdout := stdout s ++ [line] |}.

(** How a call ends: it returns, it ends the process through [os.Exit],
    or it dereferences a nil pointer. *)
Inductive Outcome (A : Type) :=
| Returns (a : A)
| Exits (code : Z)
| Panics.
Arguments Returns {A} a.
Arguments Exits {A} code.
Arguments Panics {A}.

(** [loadConfigFromFile]. *)
Definition loadConfigFromFile (env : Env) (configPath : string) (s : State)
    : option error * State :=
  let s := log_read configPath s in
  match ReadFile env configPath with
  | inr err =>
      (Some ("error reading config file " +:+ configPath +:+ ": " +:+ err), s)
  | inl configData =>
      match yaml_Unmarshal env configData with
      | inr err =>
          (Some ("error parsing config file " +:+ configPath +:+ ": " +:+ err), s)
      | inl config =>
          if (size (Projects (Fossa config)) =? 0)%nat then
            (Some ("missing or empty projects section in config file " +:+ configPath), s)
          else if (List.length (Teams (Fossa config)) =? 0)%nat then
            (Some ("missing or empty teams section in config file " +:+ configPath), s)
          else if is_empty (Endpoint (Fossa config)) then
            (Some ("missing endpoint in config file " +:+ configPath), s)
          else
            (None, print ("Loaded configuration from " +:+ configPath)
                     (set_globalConfig config s))
      end
  end.

Definition configFiles : list string :=
  ["fossa-config.yaml"; "fossa-config.yml"; ".fossa.yaml"; ".fossa.yml"].

(** The loops over [configFiles]: the first name, mapped by [place], that
    [os.Stat] accepts. *)
Fixpoint first_existing (env : Env) (place : string → string) (filenames : list string)
    : option string :=
  match filenames with
  | [] => None
  | filename :: rest =>
      match Stat env (place filename) with
      | None => Some (place filename)
      | Some _ => first_existing env place rest
      end
  end.

Definition no_configuration_file : error :=
  "no configuration file found. Please create fossa-config.yaml in your project directory or home directory".

(** [loadConfigImpl]. *)
Definition loadConfigImpl (env : Env) (s : State) : option error * State :=
  let configPath := Getenv env "FOSSA_CONFIG_PATH" in
  if negb (is_empty configPath) then
    match Stat env configPath with
    | None => loadConfigFromFile env configPath s
    | Some _ => (Some ("specified config file not found: " +:+ configPath), s)
    end
  else
    match first_existing env (λ filename, filename) configFiles with
    | Some filename => loadConfigFromFile env filename s
    | None =>
        match UserHomeDir env with
        | inl home =>
            match first_existing env (Join env home) configFiles with
            | Some homeConfig => loadConfigFromFile env homeConfig s
            | None => (Some no_configuration_file, s)
            end
        | inr _ => (Some no_configuration_file, s)
        end
    end.

(** [LoadConfig]: the body runs under [configOnce]. *)
Definition LoadConfig (env : Env) (s : State) : (option Config * option error) * State :=
  let s :=
    if configOnce s then s
    else let '(e, s1) := loadConfigImpl env s in set_configError e s1 in
  ((globalConfig s, configError s), s).

(** [IsProjectMapped]. *)
Definition IsProjectMapped (env : Env) (projectName : string) (s : State)
    : Outcome bool * State :=
  let '((config, err), s) := LoadConfig env s in
  match err with
  | Some _ => (Returns false, s)
  | None =>
      match config with
      | None => (Panics, s)
      | Some c =>
          (Returns (bool_decide (is_Some (Projects (Fossa c) !! projectName))), s)
      end
  end.

(** The common start of the three getters: the configuration, or the end
    of the process. *)
Definition config_or_exit {A} (env : Env) (k : Config → A) (s : State)
    : Outcome A * State :=
  let '((config, err), s) := LoadConfig env s in
  match err with
  | Some e => (Exits 1, print ("Error loading config: " +:+ e) s)
  | None =>
      match config with
      | None => (Panics, s)
      | Some c => (Returns (k c), s)
      end
  end.

(** [GetFossaProjectID]. *)
Definition GetFossaProjectID (env : Env) (projectName : string)
    : State → Outcome string * State :=
  config_or_exit env (λ config,
    match Projects (Fossa config) !! projectName with
    | Some id => id
    | None => DefaultProject (Fossa config)
    end).

(** The inner loop of [GetTeamValue]: does a prefix of the team match? *)
Fixpoint matches (projectName : string) (prefixes : list string) : bool :=
  match prefixes with
  | [] => false
  | prefix :: rest =>
      if HasPrefix projectName prefix then true else matches projectName rest
  end.

(** The outer loop of [GetTeamValue]. *)
Fixpoint find_team (projectName : string) (teams : list TeamMapping) : option string :=
  match teams with
  | [] => None
  | team :: rest =>
      if matches projectName (Prefixes team) then Some (TeamValue team)
      else find_team projectName rest
  end.

(** [GetTeamValue]. *)
Definition GetTeamValue (env : Env) (projectName : string)
    : State → Outcome string * State :=
  config_or_exit env (λ config,
    match find_team projectName (Teams (Fossa config)) with
    | Some teamValue => teamValue
    | None => DefaultTeam (Fossa config)
    end).

(** [GetFossaEndpoint]. *)
Definition GetFossaEndpoint (env : Env) : State → Outcome string * State :=
  config_or_exit env (λ config, Endpoint (Fossa config)).

End Mapping.

(* ===================================================================== *)
(** * Package git: the commit and the branch                             *)
(* ===================================================================== *)

Module Git.

(** The package-level variables and the processes started so far. *)
Record State := {
  currentCommit : string;
  currentBranch : string;
  gitInfoInitialized : bool;
  trace : list Nx.Call
}.

Definition initial : State :=
  {| currentCommit := ""; currentBranch := ""; gitInfoInitialized := false;
     trace := [] |}.

Definition rev_parse_HEAD : Nx.Call := Nx.Exec "git" ["rev-parse"; "HEAD"].
Definition rev_parse_branch : Nx.Call :=
  Nx.Exec "git" ["rev-parse"; "--abbrev-ref"; "HEAD"].

Section WithEnvironment.

Variable os : list Nx.Call → Nx.Call → Nx.Response.

(** [initGitInfoOnce]. *)
Definition initGitInfoOnce (s : State) : State :=
  if gitInfoInitialized s then s
  else
    let r1 := os (trace s) rev_parse_HEAD in
    let commit :=
      match r1.2 with
      | None => TrimSpace r1.1
      | Some _ => currentCommit s
      end in
    let r2 := os (trace s ++ [rev_parse_HEAD]) rev_parse_branch in
    let branch :=
      match r2.2 with
      | None => TrimSpace r2.1
      | Some _ => currentBranch s
      end in
    {| currentCommit := commit; currentBranch := branch;
       gitInfoInitialized := true;
       trace := trace s ++ [rev_parse_HEAD; rev_parse_branch] |}.

(** [GetCommitHash]. *)
Definition GetCommitHash (s : State) : (string * option Nx.error) * State :=
  let s := initGitInfoOnce s in ((currentCommit s, None), s).

(** [GetBranchName]. *)
Definition GetBranchName (s : State) : (string * option Nx.error) * State :=
  let s := initGitInfoOnce s in ((currentBranch s, None), s).

End WithEnvironment.

End Git.

(* ===================================================================== *)
(** * Package fossa: what a scan is started with                         *)
(* ===================================================================== *)

Module Fossa.

(** The cached package-level variables of the package. *)
Record State := {
  monorepoRootOnce : bool;
  monorepoRootDir : string;
  monorepoRootErr : option Nx.error;
  filteredEnvOnce : bool;
  filteredEnvVars : list string
}.

Definition initial : State :=
  {| monorepoRootOnce := false; monorepoRootDir := ""; monorepoRootErr := None;
     filteredEnvOnce := false; filteredEnvVars := [] |}.

(** [getMonorepoRoot]; [Getwd] is what [os.Getwd] answers at the time of
    the call. *)
Definition getMonorepoRoot (Getwd : string * option Nx.error) (s : State)
    : (string * option Nx.error) * State :=
  let s :=
    if monorepoRootOnce s then s
    else {| monorepoRootOnce := true; monorepoRootDir := Getwd.1;
            monorepoRootErr := Getwd.2;
            filteredEnvOnce := filteredEnvOnce s;
            filteredEnvVars := filteredEnvVars s |} in
  ((monorepoRootDir s, monorepoRootErr s), s).

(** The loop of [getFilteredEnv]. *)
Fixpoint keep_env (env : list string) (filteredEnvVars : list string) : list string :=
  match env with
  | [] => filteredEnvVars
  | envVar :: rest =>
      if negb (HasPrefix envVar "SSL_CERT_DIR=")
      then keep_env rest (filteredEnvVars ++ [envVar])
      else keep_env rest filteredEnvVars
  end.

(** [getFilteredEnv]; [Environ] is what [os.Environ] answers at the time
    of the call. *)
Definition getFilteredEnv (Environ : list string) (s : State) : list string * State :=
  let s :=
    if filteredEnvOnce s then s
    else {| monorepoRootOnce := monorepoRootOnce s;
            monorepoRootDir := monorepoRootDir s;
            monorepoRootErr := monorepoRootErr s;
            filteredEnvOnce := true;
            filteredEnvVars := keep_env Environ [] |} in
  (filteredEnvVars s, s).

End Fossa.

(* ===================================================================== *)
(** * Formatting functions of the Go standard library                    *)
(* ===================================================================== *)

Module GoFmt.

(** [len(s)] of a string, in bytes, and [len(l)] of a slice, as [int]s. *)
Definition len_string (s : string) : Z := Z.of_nat (String.length s).
Definition len {A} (l : list A) : Z := Z.of_nat (List.length l).

(** [s[:n]], for a string of at least [n] bytes. *)
Definition upto (n : nat) (s : string) : string := substring 0 n s.

(** The decimal digit of a number below ten. *)
Definition digit (d : Z) : ascii := ascii_of_nat (48 + Z.to_nat d).

(** The decimal digits of a positive number in front of [acc]; a number
    has no more decimal than binary digits, which is what [fuel] counts. *)
Fixpoint digits (fuel : nat) (n : Z) (acc : string) : string :=
  match fuel with
  | O => acc
  | S fuel' =>
      let acc' := String (digit (n mod 10)) acc in
      if n / 10 =? 0 then acc' else digits fuel' (n / 10) acc'
  end.

(** [fmt.Sprintf("%d", n)]. *)
Definition itoa (n : Z) : string :=
  if n <? 0 then String "-" (digits (S (Z.to_nat (Z.log2 (- n)))) (- n) "")
  else digits (S (Z.to_nat (Z.log2 n))) n "".

(** [strings.Join(elems, sep)]. *)
Fixpoint Join (elems : list string) (sep : string) : string :=
  match elems with
  | [] => ""
  | [e] => e
  | e :: rest => e +:+ sep +:+ Join rest sep
  end.

End GoFmt.

(* ===================================================================== *)
(** * Package github: the commit status                                  *)
(* ===================================================================== *)

Module GitHub.

Import GoFmt.

(** [models.GitHubConfig]. *)
Record GitHubConfig := {
  Token : string;
  Organization : string;
  Repository : string;
  ApiUrl : string;
  Enabled : bool
}.

(** [github.RepoStatus], the three fields the code sets. *)
Record RepoStatus := {
  State : string;
  Description : string;
  Context : string
}.

(** The GitHub client, as far as [CreateCommitStatus] uses it: the error
    of [url.Parse] and the error of [Repositories.CreateStatus]. *)
Record Api := {
  url_Parse : string → option Nx.error;
  CreateStatus : string → string → string → RepoStatus → option Nx.error
}.

(** How a call ends: with its error ([None] for nil), or in a run-time
    panic (a slice bound out of range). *)
Inductive Outcome :=
| Returns (err : option Nx.error)
| Panics.

(** The loop over the results: [totalVulnerabilities], [failedScans]
    and [projectNames]. *)
Fixpoint tally (results : list Main.Result) (totalVulnerabilities failedScans : Z)
    (projectNames : list string) : Z * Z * list string :=
  match results with
  | [] => (totalVulnerabilities, failedScans, projectNames)
  | result :: rest =>
      let projectNames := projectNames ++ [Main.Project result] in
      match Main.Error result with
      | Some _ =>
          tally rest totalVulnerabilities (Main.wrap64 (failedScans + 1)) projectNames
      | None =>
          tally rest (Main.wrap64 (totalVulnerabilities + len (Main.Issues result)))
            failedScans projectNames
      end
  end.

(** The status context. *)
Definition status_context (projectNames : list string) : string :=
  let escapedProjectName := Join projectNames "-" in
  let escapedProjectName := ReplaceAll escapedProjectName " " "-" in
  let escapedProjectName := ReplaceAll escapedProjectName "/" "-" in
  let context := "ci/fossa-" +:+ escapedProjectName in
  if 255 <? len_string context then
    if len projectNames =? 1 then
      let context := "ci/fossa-" +:+ nth 0 projectNames "" in
      if 255 <? len_string context then "ci/fossa-scan" else context
    else "ci/fossa-" +:+ itoa (len projectNames) +:+ "-projects"
  else context.

(** The state and the description, before the last check of its length. *)
Definition status_verdict (totalVulnerabilities failedScans : Z)
    (projectNames : list string) : string * string :=
  if 0 <? failedScans then
    ("failure", "FOSSA scan failed for " +:+ itoa failedScans +:+ " project(s)")
  else if 0 <? totalVulnerabilities then
    ("failure", "FOSSA found " +:+ itoa totalVulnerabilities +:+ " vulnerabilities")
  else
    ("success",
     if len projectNames =? 1 then
       let projectName := nth 0 projectNames "" in
       let projectName :=
         if 100 <? len_string projectName then upto 100 projectName +:+ "..."
         else projectName in
       "FOSSA scan passed for " +:+ projectName
     else "FOSSA scan passed for " +:+ itoa (len projectNames) +:+ " projects").

(** The status request built from the results. *)
Definition status_of (results : list Main.Result) : RepoStatus :=
  let '(totalVulnerabilities, failedScans, projectNames) := tally results 0 0 [] in
  let context := status_context projectNames in
  let '(state, description) :=
    status_verdict totalVulnerabilities failedScans projectNames in
  let description :=
    if 140 <? len_string description then upto 137 description +:+ "..."
    else description in
  {| State := state; Description := description; Context := context |}.

Section WithEnvironment.

Variable os : list Nx.Call → Nx.Call → Nx.Response.
Variable api : Api.

(** [CreateCommitStatus].  The result is how the call ends and the status
    request handed to the API, if it got that far. *)
Definition CreateCommitStatus (results : list Main.Result) (config : GitHubConfig)
    (verbose : bool) (s : Git.State) : (Outcome * option RepoStatus) * Git.State :=
  if negb (Enabled config) then ((Returns None, None), s)
  else
    let '((commitHash, err), s) := Git.GetCommitHash os s in
    if bool_decide (err ≠ None) || is_empty commitHash then ((Returns None, None), s)
    else
      match
        (if negb (is_empty (ApiUrl config)) then url_Parse api (ApiUrl config +:+ "/")
         else None)
      with
      | Some err => ((Returns (Some ("invalid GitHub API URL: " +:+ err)), None), s)
      | None =>
          let status := status_of results in
          match
            CreateStatus api (Organization config) (Repository config) commitHash status
          with
          | Some err =>
              ((Returns (Some ("error creating commit status: " +:+ err)), Some status), s)
          | None =>
              if verbose && (len_string commitHash <? 8)
              then ((Panics, Some status), s)   (* commitHash[:8] *)
              else ((Returns None, Some status), s)
          end
      end.

End WithEnvironment.

End GitHub.

(* ===================================================================== *)
(** * Package nx: project roots and the temporary package.json           *)
(* ===================================================================== *)

Module Resolver.

Definition error := string.

(** The calls that [GetProjectRoot], [CreateTemporaryPackageJson] and
    [fossa.RunAnalysis] make to the outside world.  [ExecIn] is a command
    whose working directory and environment are set by the caller. *)
Inductive Call :=
| Exec (name : string) (args : list string)
| ExecIn (dir : string) (env : list string) (name : string) (args : list string)
| Stat (path : string)
| ReadFile (path : string)
| WriteFile (path : string) (data : string)
| Symlink (oldname newname : string)
| Remove (path : string).

(** What a call gives back: its output and its error, [None] for nil. *)
Definition Response : Type := string * option error.

Local Set Warnings "-register-all".

(** A decoded JSON value (an [interface{}]), as far as the code tells
    values apart: strings, arrays and objects; [VOther] holds the numbers,
    the booleans and null. *)
Inductive Value :=
| VString (s : string)
| VArray (items : list Value)
| VObject (entries : gmap string Value)
| VOther (raw : string).

(** A value of the map [packageJSON]: a decoded value, or the
    [map[string]string] of the dependencies. *)
Inductive Entry :=
| Plain (v : Value)
| StringMap (d : gmap string string).

(** The cache of project roots and the calls made so far (oldest
    first). *)
Record State := {
  projectRootCache : gmap string string;
  trace : list Call
}.

Definition initial : State := {| projectRootCache := ∅; trace := [] |}.

(** How a call ends: it returns, or a type assertion fails. *)
Inductive Outcome (A : Type) :=
| Returns (a : A)
| Panics.
Arguments Returns {A} a.
Arguments Panics {A}.

(** [strings.ReplaceAll(s, old, "")] for a one-byte [old]. *)
Fixpoint drop_byte (s : string) (old : ascii) : string :=
  match s with
  | EmptyString => EmptyString
  | String c s' =>
      if Ascii.eqb c old then drop_byte s' old else String c (drop_byte s' old)
  end.

Section WithEnvironment.

(** The outside world, the JSON decoder and encoder, and
    [filepath.Join].  Nothing is assumed about them. *)
Variable os : list Call → Call → Response.
Variable json_Unmarshal : string → gmap string Value + error.
Variable json_MarshalIndent : gmap string Entry → string + error.
Variable Join : string → string → string.

Definition call (c : Call) (s : State) : Response * State :=
  (os (trace s) c,
   {| projectRootCache := projectRootCache s; trace := trace s ++ [c] |}).

(** The root that [nx show project --json] reports, if it reports one:
    the command succeeded, its output is a JSON object, and the field
    [root] is a string that is not empty. *)
Definition reported_root (output : Response) : option string :=
  match output.2 with
  | Some _ => None
  | None =>
      match json_Unmarshal output.1 with
      | inl projectInfo =>
          match projectInfo !! "root" with
          | Some (VString root) => if negb (is_empty root) then Some root else None
          | _ => None
          end
      | inr _ => None
      end
  end.

(** The loop over [commonPatterns]. *)
Fixpoint first_pattern (commonPatterns : list string) (s : State)
    : option string * State :=
  match commonPatterns with
  | [] => (None, s)
  | pattern :: rest =>
      let '(r, s) := call (Stat pattern) s in
      match r.2 with
      | None => (Some pattern, s)
      | Some _ => first_pattern rest s
      end
  end.

Definition sanitize (projectName : string) : string :=
  let sanitizedName := drop_byte projectName "@" in
  ReplaceAll sanitizedName "/" "-".

(** [determineProjectRoot]. *)
Definition determineProjectRoot (projectName : string) (s : State)
    : (string * option error) * State :=
  let '(output, s) :=
    call (Exec "yarn" ["nx"; "show"; "project"; projectName; "--json"]) s in
  match reported_root output with
  | Some root => ((root, None), s)
  | None =>
      let sanitizedName := sanitize projectName in
      let commonPatterns :=
        [Join "apps" sanitizedName; Join "libs" sanitizedName;
         Join "packages" sanitizedName] in
      match first_pattern commonPatterns s with
      | (Some pattern, s) => ((pattern, None), s)
      | (None, s) =>
          (("", Some ("could not determine project root for " +:+ projectName)), s)
      end
  end.

(** [GetProjectRoot]. *)
Definition GetProjectRoot (projectName : string) (s : State)
    : (string * option error) * State :=
  match projectRootCache s !! projectName with
  | Some root => ((root, None), s)
  | None =>
      let '((root, err), s) := determineProjectRoot projectName s in
      match err with
      | Some e => (("", Some e), s)
      | None =>
          ((root, None),
           {| projectRootCache := <[projectName := root]> (projectRootCache s);
              trace := trace s |})
      end
  end.

(** The map [packageJSON] as it is created. *)
Definition basic_package (projectName : string) : gmap string Entry :=
  {[ "name" := Plain (VString projectName);
     "version" := Plain (VString "1.0.0");
     "dependencies" := StringMap ∅ ]}.

(** Serialising and writing the map: the two ends of the function. *)
Definition write_package (packageJsonPath : string) (packageJSON : gmap string Entry)
    (s : State) : (string * option error) * State :=
  match json_MarshalIndent packageJSON with
  | inr err => (("", Some ("failed to serialize package.json: " +:+ err)), s)
  | inl jsonData =>
      let '(r, s) := call (WriteFile packageJsonPath jsonData) s in
      match r.2 with
      | Some err => (("", Some ("failed to write package.json: " +:+ err)), s)
      | None => ((packageJsonPath, None), s)
      end
  end.

(** The loop over the projects this project depends on. *)
Definition add_dependencies (deps : list Value) (dependencies : gmap string string)
    : gmap string string :=
  foldl (λ dependencies dep,
           match dep with
           | VString depName => <[depName := "^1.0.0"]> dependencies
           | _ => dependencies
           end) dependencies deps.

(** The dependencies found by nx, put into the map; [None] is a failed
    type assertion. *)
Definition with_dependencies (depOutput : string) (packageJSON : gmap string Entry)
    : option (gmap string Entry) :=
  match json_Unmarshal depOutput with
  | inl depInfo =>
      match packageJSON !! "dependencies" with
      | Some (StringMap dependencies) =>
          match depInfo !! "dependencies" with
          | Some (VArray deps) =>
              Some (<["dependencies" := StringMap (add_dependencies deps dependencies)]>
                      packageJSON)
          | _ => Some packageJSON
          end
      | _ => None
      end
  | inr _ => Some packageJSON
  end.

(** The loop that copies the properties of the existing file, in the
    order [map_to_list] hands them out. *)
Definition merge_properties (existingPackage : gmap string Value)
    (packageJSON : gmap string Entry) : gmap string Entry :=
  foldl (λ packageJSON kv,
           if bool_decide (kv.1 ≠ "dependencies")
           then <[kv.1 := Plain kv.2]> packageJSON
           else packageJSON) packageJSON (map_to_list existingPackage).

(** One assignment of the loop over the existing dependencies. *)
Definition set_dependency (k vStr : string) (packageJSON : gmap string Entry)
    : option (gmap string Entry) :=
  match packageJSON !! "dependencies" with
  | Some (StringMap d) => Some (<["dependencies" := StringMap (<[k := vStr]> d)]> packageJSON)
  | _ => None
  end.

(** The loop over the existing dependencies. *)
Definition merge_dependencies (existingDeps : gmap string Value)
    (packageJSON : gmap string Entry) : option (gmap string Entry) :=
  foldl (λ packageJSON kv,
           match kv.2 with
           | VString vStr => packageJSON ≫= set_dependency kv.1 vStr
           | _ => packageJSON
           end) (Some packageJSON) (map_to_list existingDeps).

(** The merge with the file that is there, if it can be read and
    decoded. *)
Definition with_existing (existing : Response) (packageJSON : gmap string Entry)
    : option (gmap string Entry) :=
  match existing.2 with
  | Some _ => Some packageJSON
  | None =>
      match json_Unmarshal existing.1 with
      | inr _ => Some packageJSON
      | inl existingPackage =>
          let packageJSON := merge_properties existingPackage packageJSON in
          match existingPackage !! "dependencies" with
          | Some (VObject existingDeps) => merge_dependencies existingDeps packageJSON
          | _ => Some packageJSON
          end
      end
  end.

(** [CreateTemporaryPackageJson]. *)
Definition CreateTemporaryPackageJson (projectName projectRoot : string) (s : State)
    : Outcome (string * option error) * State :=
  let packageJsonPath := Join projectRoot "package.json" in
  let packageJSON := basic_package projectName in
  let '(dep, s) :=
    call (Exec "yarn" ["nx"; "show"; "project"; projectName; "--with-deps"; "--json"]) s in
  match dep.2 with
  | Some _ =>
      let '(r, s) := write_package packageJsonPath packageJSON s in (Returns r, s)
  | None =>
      match with_dependencies dep.1 packageJSON with
      | None => (Panics, s)
      | Some packageJSON =>
          let '(existing, s) := call (ReadFile packageJsonPath) s in
          match with_existing existing packageJSON with
          | None => (Panics, s)
          | Some packageJSON =>
              let '(r, s) := write_package packageJsonPath packageJSON s in
              (Returns r, s)
          end
      end
  end.

End WithEnvironment.

End Resolver.

(* ===================================================================== *)
(** * Package fossa: the analysis of one project                         *)
(* ===================================================================== *)

Module Analysis.

(** What a scan works on: the package-level variables of the packages
    mapping, nx and fossa, the calls made so far among them. *)
Record State := {
  mapping : Mapping.State;
  resolver : Resolver.State;
  fossa : Fossa.State
}.

Definition initial : State :=
  {| mapping := Mapping.initial; resolver := Resolver.initial; fossa := Fossa.initial |}.

Definition set_mapping (m : Mapping.State) (st : State) : State :=
  {| mapping := m; resolver := resolver st; fossa := fossa st |}.
Definition set_resolver (r : Resolver.State) (st : State) : State :=
  {| mapping := mapping st; resolver := r; fossa := fossa st |}.
Definition set_fossa (f : Fossa.State) (st : State) : State :=
  {| mapping := mapping st; resolver := resolver st; fossa := f |}.

(** How [RunAnalysis] ends: with its error ([None] for nil), in
    [os.Exit], or in a panic. *)
Inductive Outcome :=
| Returns (err : option Resolver.error)
| Exits (code : Z)
| Panics.

(** The state-tracking variables of [RunAnalysis]. *)
Record Tracking := {
  absProjectRoot : string;
  packageJsonPath : string;
  originalPackageJson : string;
  packageJsonExists : bool;
  nodeModulesPath : string;
  monorepoNodeModulesPath : string;
  nodeModulesCreated : bool
}.

(** The arguments of the two fossa commands. *)
Definition analyze_args (fossaEndpoint teamValue fossaProject gitBranchName
    gitCommitHash : string) : list string :=
  ["analyze"; "-e"; fossaEndpoint; "-T"; teamValue; "-p"; fossaProject]
  ++ (if negb (is_empty gitBranchName) then ["-b"; gitBranchName] else [])
  ++ (if negb (is_empty gitCommitHash) then ["-r"; gitCommitHash] else [])
  ++ ["--policy"; "Website/Hosted Service Use"].

Definition test_args (fossaEndpoint fossaProject gitCommitHash : string) : list string :=
  ["test"; "-e"; fossaEndpoint; "-p"; fossaProject]
  ++ (if negb (is_empty gitCommitHash) then ["-r"; gitCommitHash] else []).

(** What a git command contributes: its trimmed output, or nothing when
    it failed. *)
Definition git_value (r : Resolver.Response) : string :=
  match r.2 with
  | None => TrimSpace r.1
  | Some _ => ""
  end.

Section WithEnvironment.

(** The environment of the configuration, the outside world, the JSON
    codec, and what [filepath.Join], [filepath.Abs], [os.Getwd],
    [os.Environ] and [os.IsNotExist] answer.  Nothing is assumed about
    them. *)
Variable env : Mapping.Env.
Variable os : list Resolver.Call → Resolver.Call → Resolver.Response.
Variable json_Unmarshal : string → gmap string Resolver.Value + Resolver.error.
Variable json_MarshalIndent : gmap string Resolver.Entry → string + Resolver.error.
Variable Join : string → string → string.
Variable Abs : string → string * option Resolver.error.
Variable Getwd : string * option Resolver.error.
Variable Environ : list string.
Variable IsNotExist : Resolver.error → bool.

Definition call (c : Resolver.Call) (st : State) : Resolver.Response * State :=
  let '(r, s) := Resolver.call os c (resolver st) in (r, set_resolver s st).

(** The deferred function: the original package.json back, or the
    temporary one removed; the link removed if this call made it. *)
Definition cleanup (t : Tracking) (st : State) : State :=
  let st :=
    (call (if packageJsonExists t
           then Resolver.WriteFile (packageJsonPath t) (originalPackageJson t)
           else Resolver.Remove (packageJsonPath t)) st).2 in
  if nodeModulesCreated t then (call (Resolver.Remove (nodeModulesPath t)) st).2 else st.

(** The team, the project and the endpoint, from the configuration. *)
Definition config_values (projectName : string) (st : State)
    : Mapping.Outcome (string * string * string) * State :=
  let '(teamValue, m) := Mapping.GetTeamValue env projectName (mapping st) in
  match teamValue with
  | Mapping.Exits code => (Mapping.Exits code, set_mapping m st)
  | Mapping.Panics => (Mapping.Panics, set_mapping m st)
  | Mapping.Returns teamValue =>
      let '(fossaProject, m) := Mapping.GetFossaProjectID env projectName m in
      match fossaProject with
      | Mapping.Exits code => (Mapping.Exits code, set_mapping m st)
      | Mapping.Panics => (Mapping.Panics, set_mapping m st)
      | Mapping.Returns fossaProject =>
          let '(fossaEndpoint, m) := Mapping.GetFossaEndpoint env m in
          match fossaEndpoint with
          | Mapping.Exits code => (Mapping.Exits code, set_mapping m st)
          | Mapping.Panics => (Mapping.Panics, set_mapping m st)
          | Mapping.Returns fossaEndpoint =>
              (Mapping.Returns (teamValue, fossaProject, fossaEndpoint), set_mapping m st)
          end
      end
  end.

(** [RunAnalysis], from the configuration values to the end. *)
Definition run_fossa (projectName : string) (t : Tracking) (st : State)
    : Outcome * State :=
  let '(values, st) := config_values projectName st in
  match values with
  | Mapping.Exits code => (Exits code, st)
  | Mapping.Panics => (Panics, st)
  | Mapping.Returns (teamValue, fossaProject, fossaEndpoint) =>
      let '(gitCommitOutput, st) := call (Resolver.Exec "git" ["rev-parse"; "HEAD"]) st in
      let gitCommitHash := git_value gitCommitOutput in
      let '(gitBranchOutput, st) :=
        call (Resolver.Exec "git" ["rev-parse"; "--abbrev-ref"; "HEAD"]) st in
      let gitBranchName := git_value gitBranchOutput in
      (* the clean-up is deferred here: it runs at every return below *)
      let '(filteredEnv, f) := Fossa.getFilteredEnv Environ (fossa st) in
      let st := set_fossa f st in
      let '(analyze, st) :=
        call (Resolver.ExecIn (absProjectRoot t) filteredEnv "fossa"
                (analyze_args fossaEndpoint teamValue fossaProject gitBranchName
                   gitCommitHash)) st in
      match analyze.2 with
      | Some e => (Returns (Some ("FOSSA analyze command failed: " +:+ e)), cleanup t st)
      | None =>
          let '(test, st) :=
            call (Resolver.ExecIn (absProjectRoot t) filteredEnv "fossa"
                    (test_args fossaEndpoint fossaProject gitCommitHash)) st in
          match test.2 with
          | Some e => (Returns (Some ("FOSSA test command failed: " +:+ e)), cleanup t st)
          | None => (Returns None, cleanup t st)
          end
      end
  end.

(** The backup of package.json: whether it exists, its contents, and the
    error of reading it. *)
Definition backup (packageJsonPath : string) (st : State)
    : (bool * string * option Resolver.error) * State :=
  let '(stat, st) := call (Resolver.Stat packageJsonPath) st in
  match stat.2 with
  | None =>
      let '(r, st) := call (Resolver.ReadFile packageJsonPath) st in
      ((true, r.1, r.2), st)
  | Some _ => ((false, "", None), st)
  end.

(** The link to the node_modules of the monorepo: whether this call
    made it, and the error of making it. *)
Definition link (monorepoNodeModulesPath nodeModulesPath : string) (st : State)
    : (bool * option Resolver.error) * State :=
  let '(stat, st) := call (Resolver.Stat nodeModulesPath) st in
  match stat.2 with
  | Some e =>
      if IsNotExist e then
        let '(r, st) :=
          call (Resolver.Symlink monorepoNodeModulesPath nodeModulesPath) st in
        ((bool_decide (r.2 = None), r.2), st)
      else ((false, None), st)
  | None => ((false, None), st)
  end.

(** [RunAnalysis], from the temporary package.json on. *)
Definition install (projectName : string) (t : Tracking) (st : State) : Outcome * State :=
  let '(created, r) :=
    Resolver.CreateTemporaryPackageJson os json_Unmarshal json_MarshalIndent Join
      projectName (absProjectRoot t) (resolver st) in
  let st := set_resolver r st in
  match created with
  | Resolver.Panics => (Panics, st)
  | Resolver.Returns (_, Some e) =>
      (Returns (Some ("failed to create temporary package.json: " +:+ e)), st)
  | Resolver.Returns (_, None) =>
      let '((nodeModulesCreated, err), st) :=
        link (monorepoNodeModulesPath t) (nodeModulesPath t) st in
      match err with
      | Some e => (Returns (Some ("failed to create node_modules symlink: " +:+ e)), st)
      | None =>
          run_fossa projectName
            {| absProjectRoot := absProjectRoot t;
               packageJsonPath := packageJsonPath t;
               originalPackageJson := originalPackageJson t;
               packageJsonExists := packageJsonExists t;
               nodeModulesPath := nodeModulesPath t;
               monorepoNodeModulesPath := monorepoNodeModulesPath t;
               nodeModulesCreated := nodeModulesCreated |} st
      end
  end.

(** [RunAnalysis], from the state-tracking variables on. *)
Definition stage (projectName absProjectRoot monorepoRoot : string) (st : State)
    : Outcome * State :=
  let packageJsonPath := Join absProjectRoot "package.json" in
  let nodeModulesPath := Join absProjectRoot "node_modules" in
  let monorepoNodeModulesPath := Join monorepoRoot "node_modules" in
  let '((packageJsonExists, originalPackageJson, err), st) := backup packageJsonPath st in
  match err with
  | Some e => (Returns (Some ("failed to read package.json: " +:+ e)), st)
  | None =>
      install projectName
        {| absProjectRoot := absProjectRoot;
           packageJsonPath := packageJsonPath;
           originalPackageJson := originalPackageJson;
           packageJsonExists := packageJsonExists;
           nodeModulesPath := nodeModulesPath;
           monorepoNodeModulesPath := monorepoNodeModulesPath;
           nodeModulesCreated := false |} st
  end.

(** [RunAnalysis]. *)
Definition RunAnalysis (projectName : string) (st : State) : Outcome * State :=
  let '(mapped, m) := Mapping.IsProjectMapped env projectName (mapping st) in
  let st := set_mapping m st in
  match mapped with
  | Mapping.Panics => (Panics, st)
  | Mapping.Exits code => (Exits code, st)
  | Mapping.Returns false =>
      (Returns (Some ("project " +:+ projectName +:+ " is not mapped in configuration")),
       st)
  | Mapping.Returns true =>
      let '((projectRoot, err), r) :=
        Resolver.GetProjectRoot os json_Unmarshal Join projectName (resolver st) in
      let st := set_resolver r st in
      match err with
      | Some e => (Returns (Some ("failed to get project root: " +:+ e)), st)
      | None =>
          let '(absProjectRoot, err) := Abs projectRoot in
          match err with
          | Some e => (Returns (Some ("failed to get absolute path: " +:+ e)), st)
          | None =>
              let '((monorepoRoot, err), f) := Fossa.getMonorepoRoot Getwd (fossa st) in
              let st := set_fossa f st in
              match err with
              | Some e => (Returns (Some ("failed to get monorepo root: " +:+ e)), st)
              | None => stage projectName absProjectRoot monorepoRoot st
              end
          end
      end
  end.

End WithEnvironment.

End Analysis.

(* ===================================================================== *)
(** * Vocabulary of the statements                                       *)
(* ===================================================================== *)

Import Nx.

(** The normalised root of a node. *)
Definition normalized_root (node : ProjectNode) : string :=
  ReplaceAll (Root (Data node)) backslash slash.

(** A changed file lies in the directory of a node: it is the root, or the
    root, a slash, and more. *)
Definition touches (changedFiles : list string) (node : ProjectNode) : Prop :=
  ∃ file, file ∈ changedFiles ∧
    (file = normalized_root node ∨ ∃ rest, file = normalized_root node +:+ "/" +:+ rest).

(** The node of the specification's boundary test. *)
Definition app1 : ProjectNode := {| Name := "app1"; Data := {| Root := "apps/app1" |} |}.

(** The entry points of package nx, as a client may call them in any
    order, and what a sequence of such calls does to the world. *)
Inductive Op :=
| CallGetChangedFiles (base head : string)
| CallGetProjectGraph
| CallGetChangedProjectsUsingGraph (base head : string)
| CallShouldSkipProject (projectName base head : string) (forceAll : bool)
| CallGetProjects (base head : string) (getAllProjects : bool)
| CallGetProjectsFromList (projectsList : string).

Definition perform (os : list Call → Call → Response)
    (json : string → ProjectGraph + error) (op : Op) (w : World) : World :=
  match op with
  | CallGetChangedFiles base head => (GetChangedFiles os base head w).2
  | CallGetProjectGraph => (GetProjectGraph os json w).2
  | CallGetChangedProjectsUsingGraph base head =>
      (GetChangedProjectsUsingGraph os json base head w).2
  | CallShouldSkipProject projectName base head forceAll =>
      (ShouldSkipProject os json projectName base head forceAll w).2
  | CallGetProjects base head getAllProjects => (GetProjects os base head getAllProjects w).2
  | CallGetProjectsFromList projectsList => (GetProjectsFromList os projectsList w).2
  end.

Definition perform_all (os : list Call → Call → Response)
    (json : string → ProjectGraph + error) (ops : list Op) (w : World) : World :=
  foldl (λ w op, perform os json op w) w ops.

(** A guard that has not been consumed guards an empty cache. *)
Definition consistent (w : World) : Prop :=
  (changedFilesOnce w = false → changedFilesCache w = None)
  ∧ (projectGraphOnce w = false → projectGraphCache w = None).

(** The part of the world each memoised query owns. *)
Definition changedFiles_part (w : World) := (changedFilesOnce w, changedFilesCache w).
Definition projectGraph_part (w : World) := (projectGraphOnce w, projectGraphCache w).

(** The state a failed first query leaves behind. *)
Definition changedFiles_spent (w : World) : Prop :=
  changedFilesOnce w = true ∧ changedFilesCache w = None.
Definition projectGraph_spent (w : World) : Prop :=
  projectGraphOnce w = true ∧ projectGraphCache w = None.

(** The calls a step from [w] to [w'] has added to the history. *)
Definition new_calls (w w' : World) : list Call :=
  drop (List.length (trace w)) (trace w').

(** A run of [yarn nx <sub> ...], the graph query ([graph]) or its
    fallback ([dep-graph]). *)
Definition is_graph_query (sub : string) (c : Call) : bool :=
  match c with
  | Exec name (a :: b :: _) =>
      bool_decide (name = "yarn") && bool_decide (a = "nx") && bool_decide (b = sub)
  | _ => false
  end.

Definition queries (sub : string) (cs : list Call) : nat :=
  List.length (List.filter (is_graph_query sub) cs).

(** The names a comma-separated list asks for, in the order written:
    its entries trimmed, without the entries that trim to nothing. *)
Definition requested_names (projectsList : string) : list string :=
  filter (λ p, p ≠ "") (TrimSpace <$> Split projectsList comma).

(** ** Statistics *)

Import Main.

(** One call of [recordResult]: outcome, duration in nanoseconds,
    vulnerability count. *)
Definition Input : Type := bool * Z * Z.

Definition succeeded (i : Input) : bool := i.1.1.
Definition duration_of (i : Input) : Z := i.1.2.
Definition vulnerabilities_of (i : Input) : Z := i.2.

Definition record_input (s : Stats) (i : Input) : Stats :=
  recordResult (succeeded i) (duration_of i) (vulnerabilities_of i) s.

(** [recordResult] applied once per input, in the order of the list. *)
Definition record_all (inputs : list Input) (s : Stats) : Stats :=
  foldl record_input s inputs.

(** The single-threaded reference computation of the specification. *)
Definition total (l : list Z) : Z := foldr Z.add 0 l.
Definition durations (inputs : list Input) : list Z := duration_of <$> inputs.
Definition successes (inputs : list Input) : Z :=
  Z.of_nat (List.length (filter (λ i, succeeded i = true) inputs)).
Definition failures (inputs : list Input) : Z :=
  Z.of_nat (List.length (filter (λ i, succeeded i = false) inputs)).
Definition positive_vulnerabilities (inputs : list Input) : Z :=
  total (filter (λ v, 0 < v) (vulnerabilities_of <$> inputs)).
Definition is_maximum (m : Z) (l : list Z) : Prop := m ∈ l ∧ ∀ x, x ∈ l → x ≤ m.
Definition is_minimum (m : Z) (l : list Z) : Prop := m ∈ l ∧ ∀ x, x ∈ l → m ≤ x.

(** Inputs a run can produce: elapsed times and slice lengths are not
    negative, and the sums stay within [int64] and [int32]. *)
Definition in_range (inputs : list Input) : Prop :=
  Forall (λ i, 0 ≤ duration_of i ∧ 0 ≤ vulnerabilities_of i) inputs
  ∧ total (durations inputs) < 2 ^ 63
  ∧ Z.of_nat (List.length inputs) < 2 ^ 31
  ∧ positive_vulnerabilities inputs < 2 ^ 31.

(** Which lines of the report show an extreme duration. *)
Definition is_extreme_line (l : ReportLine) : bool :=
  match l with
  | MinDurationLine _ _ | MaxDurationLine _ _ => true
  | _ => false
  end.

(** Five scans that succeed after one to five seconds. *)
Definition five_scans : list Input :=
  [(true, 1 * Second, 0); (true, 2 * Second, 0); (true, 3 * Second, 0);
   (true, 4 * Second, 0); (true, 5 * Second, 0)].

(** One scan that succeeds after two hours. *)
Definition long_scan : list Input := [(true, 2 * Hour, 0)].

(** ** The pool *)

(** What the collector records of a result. *)
Definition input_of (r : Result) : Input :=
  (bool_decide (Error r = None), Duration r, Z.of_nat (List.length (Issues r))).

(** The projects that have left the feeder, by where they are now:
    collected, waiting in [resultCh], held by a worker, or waiting in
    [projectCh]. *)
Definition dispatched (c : Pool) : list string :=
  (Project <$> results c) ++ (Project <$> resultCh c)
  ++ mbind held (workers c) ++ projectCh c.

(** What holds of every configuration of a run over [projects] with [n]
    workers, started with the statistics [st]. *)
Record invariant (projects : list string) (n : nat) (st : Stats) (c : Pool) : Prop := {
  inv_stats : stats c = record_all (input_of <$> results c) st;
  inv_feeder : ∃ sent, projects = sent ++ to_send c ∧ dispatched c ≡ₚ sent;
  inv_workers : List.length (workers c) = n;
  inv_returned : returned c = true → resultCh_closed c = true ∧ resultCh c = [];
  inv_closed : resultCh_closed c = true → all_exited (workers c) = true;
  inv_exited : cancelled c = false → Exited ∈ workers c →
               feeder_done c = true ∧ projectCh c = [];
  inv_feeder_done : cancelled c = false → feeder_done c = true → to_send c = []
}.

(** The valid names [GetProjectsFromList] returns. *)
Definition valid_projects (os : list Call → Call → Response)
    (projectsList : string) (w : World) : list string :=
  slice (GetProjectsFromList os projectsList w).1.1.1.

(** ** The root command *)

(** The status the process exits with. *)
Definition exit_code (os : list Call → Call → Response) (co : Collaborators)
    (f : Flags) (final : Pool) (w : World) : Z :=
  (main os co f final w).1.2.

(** What the run logs. *)
Definition run_log (os : list Call → Call → Response) (co : Collaborators)
    (f : Flags) (final : Pool) (w : World) : list LogEntry :=
  (main os co f final w).1.1.

(** The projects [Run] selects. *)
Definition selection (os : list Call → Call → Response) (co : Collaborators)
    (f : Flags) (w : World) : Selection :=
  (select_projects os co f w).1.

(** The status the post-run hook leaves the process with. *)
Definition post_run_code (co : Collaborators) (f : Flags) : Z :=
  match (PersistentPostRun co f).2 with
  | Exit code => code
  | Return => 0
  end.

(** A memory profile is asked for and cannot be created or written. *)
Definition memory_profile_fails (co : Collaborators) (f : Flags) : Prop :=
  memProfile f ≠ "" ∧ (is_Some (mem_create_error co) ∨ is_Some (mem_write_error co)).

(** The same collaborators with other notifiers. *)
Definition with_notifiers (co : Collaborators)
    (send issues status : list Result → option error) : Collaborators :=
  {| IsProjectMapped := IsProjectMapped co;
     NumCPU := NumCPU co;
     SendHTMLReport := send;
     CreateIssues := issues;
     CreateCommitStatus := status;
     cpu_create_error := cpu_create_error co;
     cpu_start_error := cpu_start_error co;
     mem_create_error := mem_create_error co;
     mem_write_error := mem_write_error co |}.

(** Every job of the run succeeded; some job failed. *)
Definition all_succeeded (final : Pool) : Prop :=
  Forall (λ r, Error r = None) (results final).
Definition some_failed (final : Pool) : Prop :=
  ∃ r, r ∈ results final ∧ is_Some (Error r).

(** ** Sample environments *)

(** An outside world in which every tool works: [git diff] reports one
    changed file under apps/app1, the project inventory lists app1 and
    app2, temporary files can be created. *)
Definition os_fine (history : list Call) (c : Call) : Response :=
  match c with
  | Exec "git" _ => ("apps/app1/src/x.ts", None)
  | Exec "yarn" ["nx"; "show"; "projects"] => ("app1" +:+ String newline "app2", None)
  | CreateTemp _ _ => ("/tmp/nx_graph_1.json", None)
  | _ => ("", None)
  end.

(** A decoder that yields the one-node graph of the boundary test. *)
Definition json_app1 (output : string) : ProjectGraph + error :=
  inl {| Nodes := Some {["app1" := app1]} |}.

(** An outside world in which nothing works. *)
Definition os_broken (history : list Call) (c : Call) : Response :=
  ("", Some "exit status 1").

(** An outside world in which only the creation of temporary files
    fails. *)
Definition os_no_temp (history : list Call) (c : Call) : Response :=
  match c with
  | CreateTemp _ _ => ("", Some "no space left on device")
  | _ => os_fine history c
  end.

(** An outside world in which the primary graph query fails and the
    fallback works. *)
Definition os_old_nx (history : list Call) (c : Call) : Response :=
  match c with
  | Exec "yarn" ("nx" :: "graph" :: _) => ("", Some "exit status 1")
  | _ => os_fine history c
  end.

(** A scan always has some outcome. *)
Definition plain_result (project : string) : Result :=
  {| Project := project; Error := None; Duration := 0; EndTime := 0;
     Issues := []; FossaLink := ""; DependencyCount := 0 |}.

(** A run of the root command on the single project app1, every
    collaborator at its best. *)
Definition flags_app1 : Flags :=
  {| base := ""; head := ""; maxConcurrent := 1; allProjects := false;
     includeUnmapped := true; projectName := "app1";
     emailEnabled := true; toEmails := "dev@example.org";
     githubEnabled := true; githubToken := "token";
     cpuProfile := ""; memProfile := "" |}.

Definition co_fine : Collaborators :=
  {| IsProjectMapped := λ _, true;
     NumCPU := 4;
     SendHTMLReport := λ _, None;
     CreateIssues := λ _, None;
     CreateCommitStatus := λ _, None;
     cpu_create_error := None;
     cpu_start_error := None;
     mem_create_error := None;
     mem_write_error := None |}.

(** The pool after the scan of app1 has succeeded and the function has
    returned. *)
Definition pool_app1_done : Pool :=
  mkPool [] true [] [Exited] [] true [plain_result "app1"]
    (record (fresh_stats ["app1"]) (plain_result "app1")) true false.

(** The same run asked to write a memory profile to a place where none
    can be written. *)
Definition flags_app1_memprofile : Flags :=
  {| base := ""; head := ""; maxConcurrent := 1; allProjects := false;
     includeUnmapped := true; projectName := "app1";
     emailEnabled := false; toEmails := "";
     githubEnabled := false; githubToken := "";
     cpuProfile := ""; memProfile := "/nonexistent/mem.prof" |}.

Definition co_no_memprofile : Collaborators :=
  {| IsProjectMapped := λ _, true;
     NumCPU := 4;
     SendHTMLReport := λ _, None;
     CreateIssues := λ _, None;
     CreateCommitStatus := λ _, None;
     cpu_create_error := None;
     cpu_start_error := None;
     mem_create_error := Some "open /nonexistent/mem.prof: no such file or directory";
     mem_write_error := None |}.

(** ** Vocabulary of the further properties *)

(** A path as [GetChangedFiles] hands it out: not empty, and free of
    backslashes. *)
Definition normal_path (f : string) : Prop :=
  f ≠ "" ∧ Contains f backslash = false.

(** An outside world on Windows: [git diff] prints one path with
    backslashes, and a blank line. *)
Definition os_windows (history : list Call) (c : Call) : Response :=
  match c with
  | Exec "git" _ =>
      ("apps" +:+ String backslash "app1" +:+ String backslash "x.ts"
       +:+ String newline (String newline "  "), None)
  | _ => os_fine history c
  end.

(** A graph in which two nodes carry the name app1. *)
Definition graph_twice : gmap string ProjectNode :=
  {[ "app1" := app1;
     "app1-e2e" := {| Name := "app1"; Data := {| Root := "apps/app1" |} |} ]}.

(** The part of the world the project inventory owns. *)
Definition allProjects_part (w : World) := (allProjectsLoaded w, allProjectsCache w).

(** The command that lists every project. *)
Definition inventory_call : Call := Exec "yarn" ["nx"; "show"; "projects"].

(** An outside world in which the inventory fails at the first attempt
    only. *)
Definition os_flaky (history : list Call) (c : Call) : Response :=
  match history with
  | [] => ("", Some "exit status 1")
  | _ => os_fine history c
  end.

(** The scans in progress. *)
Definition is_running (w : Worker) : bool :=
  match w with Running _ => true | _ => false end.
Definition running (c : Pool) : list Worker := List.filter is_running (workers c).

(** A pool in the middle of a run over three projects with one worker,
    after the deadline: the first result is collected, the second scan is
    under way, the third project is still queued. *)
Definition pool_midway : Pool :=
  mkPool [] true ["app3"] [Running "app2"] [] false [plain_result "app1"]
    (record (fresh_stats ["app1"; "app2"; "app3"]) (plain_result "app1")) false true.

(** The same run when the function has returned: the second result was
    still collected, the third project never left the queue. *)
Definition pool_cut_short : Pool :=
  mkPool [] true ["app3"] [Exited] [] true [plain_result "app1"; plain_result "app2"]
    (record (record (fresh_stats ["app1"; "app2"; "app3"]) (plain_result "app1"))
       (plain_result "app2")) true true.

(** Collaborators for whom only app1 is mapped in the configuration. *)
Definition co_app1_only : Collaborators :=
  {| IsProjectMapped := λ p, bool_decide (p = "app1");
     NumCPU := 4;
     SendHTMLReport := λ _, Some "smtp: connection refused";
     CreateIssues := λ _, None;
     CreateCommitStatus := λ _, None;
     cpu_create_error := None;
     cpu_start_error := None;
     mem_create_error := None;
     mem_write_error := None |}.

(** A run over an explicit list, one name of which does not exist. *)
Definition flags_list : Flags :=
  {| base := ""; head := ""; maxConcurrent := 0; allProjects := false;
     includeUnmapped := false; projectName := "app2, app1,ghost";
     emailEnabled := true; toEmails := " , ";
     githubEnabled := false; githubToken := "";
     cpuProfile := ""; memProfile := "" |}.

(** The same flags without the email flag. *)
Definition without_email (f : Flags) : Flags :=
  {| base := base f; head := head f; maxConcurrent := maxConcurrent f;
     allProjects := allProjects f; includeUnmapped := includeUnmapped f;
     projectName := projectName f;
     emailEnabled := false; toEmails := toEmails f;
     githubEnabled := githubEnabled f; githubToken := githubToken f;
     cpuProfile := cpuProfile f; memProfile := memProfile f |}.

(** ** The configuration *)

(** A call of one of the exported functions of package mapping. *)
Inductive MappingCall :=
| AskLoadConfig
| AskIsProjectMapped (projectName : string)
| AskGetFossaProjectID (projectName : string)
| AskGetTeamValue (projectName : string)
| AskGetFossaEndpoint.

(** The state a call leaves, made in a given environment. *)
Definition mapping_perform (s : Mapping.State) (call : Mapping.Env * MappingCall)
    : Mapping.State :=
  match call.2 with
  | AskLoadConfig => (Mapping.LoadConfig call.1 s).2
  | AskIsProjectMapped p => (Mapping.IsProjectMapped call.1 p s).2
  | AskGetFossaProjectID p => (Mapping.GetFossaProjectID call.1 p s).2
  | AskGetTeamValue p => (Mapping.GetTeamValue call.1 p s).2
  | AskGetFossaEndpoint => (Mapping.GetFossaEndpoint call.1 s).2
  end.

Definition mapping_perform_all (calls : list (Mapping.Env * MappingCall))
    (s : Mapping.State) : Mapping.State :=
  foldl mapping_perform s calls.

(** A configuration with projects, teams and an endpoint. *)
Definition valid_config (c : Mapping.Config) : Prop :=
  Mapping.Projects (Mapping.Fossa c) ≠ ∅
  ∧ Mapping.Teams (Mapping.Fossa c) ≠ []
  ∧ Mapping.Endpoint (Mapping.Fossa c) ≠ "".

(** A team owns a project when one of its prefixes starts the name. *)
Definition owns (team : Mapping.TeamMapping) (projectName : string) : Prop :=
  ∃ prefix, prefix ∈ Mapping.Prefixes team ∧ HasPrefix projectName prefix = true.

(** Where a configuration file is looked for when no path is given: the
    four names in the working directory, then in the home directory. *)
Definition candidates (env : Mapping.Env) : list string :=
  Mapping.configFiles
  ++ match Mapping.UserHomeDir env with
     | inl home => Mapping.Join env home <$> Mapping.configFiles
     | inr _ => []
     end.

(** The one file the configuration is read from, if any. *)
Definition config_path (env : Mapping.Env) : option string :=
  let given := Mapping.Getenv env "FOSSA_CONFIG_PATH" in
  if bool_decide (given = "") then
    hd_error (filter (λ p, Mapping.Stat env p = None) (candidates env))
  else if bool_decide (Mapping.Stat env given = None) then Some given
  else None.

(** The files read by a sequence of calls. *)
Definition files_read (calls : list (Mapping.Env * MappingCall)) : list string :=
  match calls with
  | [] => []
  | call :: _ => option_list (config_path call.1)
  end.

(** What holds of the package variables in every state the package can
    be in. *)
Definition config_sound (s : Mapping.State) : Prop :=
  match Mapping.globalConfig s with
  | Some c =>
      valid_config c ∧ Mapping.configOnce s = true ∧ Mapping.configError s = None
  | None => Mapping.configOnce s = true → is_Some (Mapping.configError s)
  end.

(** A sample configuration and two environments: one in which it is
    found as [.fossa.yaml], one that points to a file that is not there. *)
Definition config_sample : Mapping.Config :=
  {| Mapping.Fossa :=
       {| Mapping.Projects := {[ "app1" := "custom+1/app1" ]};
          Mapping.DefaultProject := "custom+1/default";
          Mapping.Teams :=
            [ {| Mapping.Prefixes := ["lib-"; "app"]; Mapping.TeamValue := "Apps";
                 Mapping.CheckmarxPath := "" |};
              {| Mapping.Prefixes := ["app1"]; Mapping.TeamValue := "Payments";
                 Mapping.CheckmarxPath := "" |} ];
          Mapping.DefaultTeam := "Everyone";
          Mapping.Endpoint := "https://fossa.example.com" |} |}.

Definition env_sample : Mapping.Env :=
  {| Mapping.Getenv := λ _, "";
     Mapping.Stat := λ p,
       if bool_decide (p = ".fossa.yaml" ∨ p = "/home/ci/fossa-config.yaml")
       then None else Some "no such file or directory";
     Mapping.UserHomeDir := inl "/home/ci";
     Mapping.Join := λ dir name, dir +:+ "/" +:+ name;
     Mapping.ReadFile := λ _, inl "fossa: ...";
     Mapping.yaml_Unmarshal := λ _, inl config_sample |}.

Definition env_missing : Mapping.Env :=
  {| Mapping.Getenv := λ _, "ci/fossa.yaml";
     Mapping.Stat := λ p,
       if bool_decide (p = ".fossa.yaml") then None
       else Some "no such file or directory";
     Mapping.UserHomeDir := inl "/home/ci";
     Mapping.Join := λ dir name, dir +:+ "/" +:+ name;
     Mapping.ReadFile := λ _, inl "fossa: ...";
     Mapping.yaml_Unmarshal := λ _, inl config_sample |}.

(** ** The commit, the branch and the environment of a scan *)

(** A call of [GetCommitHash] ([true]) or of [GetBranchName] ([false]),
    as far as the state goes. *)
Definition git_ask (os : list Call → Call → Response) (s : Git.State) (commit : bool)
    : Git.State :=
  if commit then (Git.GetCommitHash os s).2 else (Git.GetBranchName os s).2.

(** What git answered the first time it was asked, or nothing when it
    failed. *)
Definition answer_or_nothing (r : Response) : string :=
  match r.2 with
  | None => TrimSpace r.1
  | Some _ => ""
  end.

Definition first_commit (os : list Call → Call → Response) : string :=
  answer_or_nothing (os [] Git.rev_parse_HEAD).

Definition first_branch (os : list Call → Call → Response) : string :=
  answer_or_nothing (os [Git.rev_parse_HEAD] Git.rev_parse_branch).

(** A call of one of the two cached functions of package fossa, with
    what the operating system would answer at that time. *)
Inductive FossaCall :=
| AskMonorepoRoot (Getwd : string * option error)
| AskFilteredEnv (Environ : list string).

Definition fossa_perform (s : Fossa.State) (call : FossaCall) : Fossa.State :=
  match call with
  | AskMonorepoRoot wd => (Fossa.getMonorepoRoot wd s).2
  | AskFilteredEnv env => (Fossa.getFilteredEnv env s).2
  end.

(** ** The commit status *)

(** The scans that failed, and the vulnerabilities of those that did
    not. *)
Definition failed_scans (results : list Result) : Z :=
  Z.of_nat (List.length (filter (λ r, Error r ≠ None) results)).

Definition found_vulnerabilities (results : list Result) : Z :=
  foldr (λ r n, if bool_decide (Error r = None)
                then Z.of_nat (List.length (Issues r)) + n else n) 0 results.

(** A value of Go's [int]. *)
Definition int64 (z : Z) : Prop := - 2 ^ 63 ≤ z < 2 ^ 63.

(** A byte that is no decimal digit. *)
Definition no_digit (c : ascii) : Prop :=
  ∀ d, 0 ≤ d < 10 → Ascii.eqb (GoFmt.digit d) c = false.

(** A project whose name has a space and a slash in it, one with a
    vulnerability, and one whose scan failed. *)
Definition spaced_result : Result :=
  {| Project := "libs/ui kit"; Error := None; Duration := 0; EndTime := 0;
     Issues := []; FossaLink := ""; DependencyCount := 0 |}.

Definition vulnerable_result : Result :=
  {| Project := "app2"; Error := None; Duration := 0; EndTime := 0;
     Issues := ["CVE-2024-0001"]; FossaLink := ""; DependencyCount := 0 |}.

Definition failed_result : Result :=
  {| Project := "app3"; Error := Some "FOSSA analyze command failed: exit status 1";
     Duration := 0; EndTime := 0; Issues := []; FossaLink := "";
     DependencyCount := 0 |}.

Definition github_on : GitHub.GitHubConfig :=
  {| GitHub.Token := "t"; GitHub.Organization := "org"; GitHub.Repository := "repo";
     GitHub.ApiUrl := ""; GitHub.Enabled := true |}.

(** A GitHub that accepts everything. *)
Definition api_fine : GitHub.Api :=
  {| GitHub.url_Parse := λ _, None; GitHub.CreateStatus := λ _ _ _ _, None |}.

(** An outside world in which git prints an abbreviated commit. *)
Definition os_short_hash (history : list Call) (c : Call) : Response :=
  ("abc1234" +:+ String newline "", None).

(** ** Project roots and the temporary package.json *)

(** A call of one of the two functions, as far as the state goes. *)
Inductive ResolverCall :=
| AskProjectRoot (projectName : string)
| AskPackageJson (projectName projectRoot : string).

Definition resolver_perform (os : list Resolver.Call → Resolver.Call → Resolver.Response)
    (json_Unmarshal : string → gmap string Resolver.Value + error)
    (json_MarshalIndent : gmap string Resolver.Entry → string + error)
    (Join : string → string → string)
    (s : Resolver.State) (c : ResolverCall) : Resolver.State :=
  match c with
  | AskProjectRoot p => (Resolver.GetProjectRoot os json_Unmarshal Join p s).2
  | AskPackageJson p root =>
      (Resolver.CreateTemporaryPackageJson os json_Unmarshal json_MarshalIndent Join
         p root s).2
  end.

(** The two commands the functions run. *)
Definition show_project (projectName : string) : Resolver.Call :=
  Resolver.Exec "yarn" ["nx"; "show"; "project"; projectName; "--json"].

Definition show_dependencies (projectName : string) : Resolver.Call :=
  Resolver.Exec "yarn" ["nx"; "show"; "project"; projectName; "--with-deps"; "--json"].

(** The strings among decoded values. *)
Definition strings_of (vs : list Resolver.Value) : list string :=
  omap (λ v, match v with Resolver.VString s => Some s | _ => None end) vs.

(** The projects nx lists as dependencies, when its output decodes to an
    object whose field [dependencies] is an array. *)
Definition listed_dependencies (json_Unmarshal : string → gmap string Resolver.Value + error)
    (depOutput : string) : list string :=
  match json_Unmarshal depOutput with
  | inl depInfo =>
      match depInfo !! "dependencies" with
      | Some (Resolver.VArray deps) => strings_of deps
      | _ => []
      end
  | inr _ => []
  end.

(** The package.json that is there, when it can be read and decoded,
    and its field [dependencies], when that is an object. *)
Definition existing_package (json_Unmarshal : string → gmap string Resolver.Value + error)
    (existing : Resolver.Response) : gmap string Resolver.Value :=
  match existing.2 with
  | Some _ => ∅
  | None =>
      match json_Unmarshal existing.1 with
      | inl existingPackage => existingPackage
      | inr _ => ∅
      end
  end.

Definition existing_dependencies (existingPackage : gmap string Resolver.Value)
    : gmap string Resolver.Value :=
  match existingPackage !! "dependencies" with
  | Some (Resolver.VObject existingDeps) => existingDeps
  | _ => ∅
  end.

(** Sample codecs and worlds: nx knows the root of app1 and lists lib-a
    and lib-b as its dependencies; the package.json that is there pins
    lib-a and carries a licence. *)
Definition json_sample (document : string) : gmap string Resolver.Value + error :=
  if bool_decide (document = "root") then
    inl {[ "root" := Resolver.VString "apps/app1" ]}
  else if bool_decide (document = "deps") then
    inl {[ "dependencies" :=
             Resolver.VArray [Resolver.VString "lib-a"; Resolver.VOther "1";
                              Resolver.VString "lib-b"] ]}
  else if bool_decide (document = "existing") then
    inl {[ "license" := Resolver.VString "MIT";
           "dependencies" :=
             Resolver.VObject {[ "lib-a" := Resolver.VString "2.3.4";
                                 "left-pad" := Resolver.VOther "null" ]} ]}
  else inr "unexpected end of JSON input".

Definition marshal_sample (packageJSON : gmap string Resolver.Entry) : string + error :=
  inl "{...}".

Definition join_sample (dir name : string) : string := dir +:+ "/" +:+ name.

Definition os_project (history : list Resolver.Call) (c : Resolver.Call)
    : Resolver.Response :=
  match c with
  | Resolver.Exec "yarn" ["nx"; "show"; "project"; _; "--json"] => ("root", None)
  | Resolver.Exec "yarn" ["nx"; "show"; "project"; _; "--with-deps"; "--json"] =>
      ("deps", None)
  | Resolver.ReadFile _ => ("existing", None)
  | Resolver.Stat "apps/app1/node_modules" => ("", Some "no such file or directory")
  | _ => ("", None)
  end.


(** ** The analysis of one project *)

(** The calls a scan has added to the history. *)
Definition scan_calls (st st' : Analysis.State) : list Resolver.Call :=
  drop (List.length (Resolver.trace (Analysis.resolver st)))
    (Resolver.trace (Analysis.resolver st')).

(** The two git commands of a scan. *)
Definition git_commands : list Resolver.Call :=
  [Resolver.Exec "git" ["rev-parse"; "HEAD"];
   Resolver.Exec "git" ["rev-parse"; "--abbrev-ref"; "HEAD"]].

(** A fossa command run in [dir]. *)
Definition fossa_command (dir : string) (c : Resolver.Call) : Prop :=
  ∃ env args, c = Resolver.ExecIn dir env "fossa" args.

(** A call that neither runs a command in a directory of its own nor
    makes a link. *)
Definition plain_call (c : Resolver.Call) : Prop :=
  match c with
  | Resolver.ExecIn _ _ _ _ | Resolver.Symlink _ _ => False
  | _ => True
  end.

(** An environment free of SSL_CERT_DIR. *)
Definition filtered (env : list string) : Prop :=
  Forall (λ v, HasPrefix v "SSL_CERT_DIR=" = false) env.

(** Sample surroundings of a scan of app1. *)
Definition abs_sample (path : string) : string * option Resolver.error :=
  ("/repo/" +:+ path, None).

Definition os_scan (history : list Resolver.Call) (c : Resolver.Call)
    : Resolver.Response :=
  match c with
  | Resolver.Exec "yarn" ["nx"; "show"; "project"; _; "--json"] => ("root", None)
  | Resolver.Exec "yarn" ["nx"; "show"; "project"; _; "--with-deps"; "--json"] =>
      ("deps", None)
  | Resolver.Exec "git" _ => ("0123456789abcdef", None)
  | Resolver.ReadFile _ => ("existing", None)
  | Resolver.Stat "/repo/apps/app1/node_modules" => ("", Some "no such file or directory")
  | Resolver.ExecIn _ _ "fossa" ("test" :: _) => ("", Some "exit status 1")
  | _ => ("", None)
  end.

(** The same, on a file system on which no link can be made. *)
Definition os_no_link (history : list Resolver.Call) (c : Resolver.Call)
    : Resolver.Response :=
  match c with
  | Resolver.Symlink _ _ => ("", Some "operation not permitted")
  | _ => os_scan history c
  end.

Definition is_not_exist_sample (e : Resolver.error) : bool :=
  bool_decide (e = "no such file or directory").

(** What the deferred function of a scan does. *)
Definition restore_calls (t : Analysis.Tracking) : list Resolver.Call :=
  (if Analysis.packageJsonExists t
   then Resolver.WriteFile (Analysis.packageJsonPath t) (Analysis.originalPackageJson t)
   else Resolver.Remove (Analysis.packageJsonPath t))
  :: (if Analysis.nodeModulesCreated t
      then [Resolver.Remove (Analysis.nodeModulesPath t)] else []).

(** The error of a scan is not that of the link. *)
Definition not_the_link_error (err : option Resolver.error) : Prop :=
  match err with
  | Some e => HasPrefix e "failed to create node_modules symlink" = false
  | None => True
  end.

(** The configuration is loaded and maps the project to [id]. *)
Definition settled_for (p id : string) (c : Mapping.Config) (st : Analysis.State) : Prop :=
  Mapping.configOnce (Analysis.mapping st) = true
  ∧ Mapping.globalConfig (Analysis.mapping st) = Some c
  ∧ Mapping.configError (Analysis.mapping st) = None
  ∧ Mapping.Projects (Mapping.Fossa c) !! p = Some id.

(** A fossa command of the scan of a project mapped to [id]. *)
Definition scan_command (dir : string) (fenv : list string) (id : string)
    (c : Resolver.Call) : Prop :=
  ∃ args before after,
    c = Resolver.ExecIn dir fenv "fossa" args ∧ args = before ++ "-p" :: id :: after.

(** How a scan went, seen from the calls it made after resolving the
    project root: it stopped before making the link, it failed to make
    the link, or it ran fossa. *)
Definition stopped_early (r : Analysis.Outcome) (calls : list Resolver.Call) : Prop :=
  ∃ e, r = Analysis.Returns (Some e) ∧ not_the_link_error (Some e)
    ∧ Forall plain_call calls.

Definition link_failed (Join : string → string → string) (dir mono : string)
    (r : Analysis.Outcome) (calls : list Resolver.Call) : Prop :=
  ∃ e h data,
    r = Analysis.Returns (Some ("failed to create node_modules symlink: " +:+ e))
    ∧ calls = h ++ [Resolver.WriteFile (Join dir "package.json") data;
                    Resolver.Stat (Join dir "node_modules");
                    Resolver.Symlink (Join mono "node_modules") (Join dir "node_modules")]
    ∧ Forall plain_call h.

(** The scan ran fossa.  [history] is the history of calls at the backup
    of package.json, [existed] whether package.json was there, [original]
    what it held, [created] whether the scan made the link; what the
    scan does last mirrors the two. *)
Definition scanned (os : list Resolver.Call → Resolver.Call → Resolver.Response)
    (Join : string → string → string)
    (history : list Resolver.Call) (fenv : list string)
    (dir mono id : string) (r : Analysis.Outcome) (calls : list Resolver.Call) : Prop :=
  let pj := Join dir "package.json" in
  let nm := Join dir "node_modules" in
  let mnm := Join mono "node_modules" in
  ∃ err (existed : bool) original (created : bool) pkg cmds,
    r = Analysis.Returns err ∧ not_the_link_error err
    ∧ calls
      = Resolver.Stat pj :: (if existed then [Resolver.ReadFile pj] else [])
        ++ pkg
        ++ Resolver.Stat nm :: (if created then [Resolver.Symlink mnm nm] else [])
        ++ git_commands ++ cmds
        ++ restore_calls
             {| Analysis.absProjectRoot := dir;
                Analysis.packageJsonPath := pj;
                Analysis.originalPackageJson := original;
                Analysis.packageJsonExists := existed;
                Analysis.nodeModulesPath := nm;
                Analysis.monorepoNodeModulesPath := mnm;
                Analysis.nodeModulesCreated := created |}
    ∧ Forall plain_call pkg
    ∧ (∃ h data, pkg = h ++ [Resolver.WriteFile pj data])
    ∧ cmds ≠ [] ∧ Forall (scan_command dir fenv id) cmds
    ∧ existed = bool_decide ((os history (Resolver.Stat pj)).2 = None)
    ∧ (existed = true
       → original = (os (history ++ [Resolver.Stat pj]) (Resolver.ReadFile pj)).1).

(** The cached environment, if any, is free of SSL_CERT_DIR. *)
Definition fossa_sound (f : Fossa.State) : Prop :=
  Fossa.filteredEnvOnce f = true → filtered (Fossa.filteredEnvVars f).

(** A scan of app1 in the sample surroundings, in a fresh process. *)
Definition scan_sample (os : list Resolver.Call → Resolver.Call → Resolver.Response)
    : Analysis.Outcome * Analysis.State :=
  Analysis.RunAnalysis env_sample os json_sample marshal_sample join_sample abs_sample
    ("/repo", None) ["PATH=/bin"; "SSL_CERT_DIR=/etc/ssl"] is_not_exist_sample
    "app1" Analysis.initial.

(* ===================================================================== *)
(** * Properties                                                         *)
(* ===================================================================== *)

(** ** Strings *)

Lemma HasPrefix_app (s pre : string) :
  HasPrefix s pre = true ↔ ∃ rest, s = pre +:+ rest.
Proof.
  revert s. induction pre as [|p pre IH]; intros s; simpl.
  - split; [intros _; by exists s | done].
  - destruct s as [|c s].
    + split; [done | intros [rest Hr]; discriminate].
    + rewrite andb_true_iff, IH, Ascii.eqb_eq. split.
      * intros [-> [rest ->]]. by exists rest.
      * intros [rest Hr]. injection Hr as -> ->. split; [done | by exists rest].
Qed.

Lemma append_cons (x : ascii) (a b : string) : String x a +:+ b = String x (a +:+ b).
Proof. reflexivity. Qed.

Lemma append_assoc (a b c : string) : (a +:+ b) +:+ c = a +:+ (b +:+ c).
Proof. induction a as [|x a IH]; [done | by rewrite !append_cons, IH]. Qed.

Lemma is_empty_true (s : string) : is_empty s = true ↔ s = "".
Proof. destruct s; simpl; split; congruence. Qed.

Lemma is_empty_false (s : string) : is_empty s = false ↔ s ≠ "".
Proof. destruct s; simpl; split; congruence. Qed.

(** ** Changed files and affected projects *)

Lemma file_in_project_touches (changedFiles : list string) (node : ProjectNode) :
  file_in_project (normalized_root node) changedFiles = true ↔ touches changedFiles node.
Proof.
  unfold touches. induction changedFiles as [|file rest IH]; simpl.
  - split; [done | intros (f & Hf & _); inversion Hf].
  - destruct (HasPrefix file (normalized_root node +:+ "/") || bool_decide (file = normalized_root node)) eqn:E.
    + split; [intros _ | done]. exists file. split; [left|].
      apply orb_true_iff in E as [E|E].
      * right. apply HasPrefix_app in E as [r ->]. exists r.
        by rewrite append_assoc.
      * left. by apply bool_decide_eq_true in E.
    + apply orb_false_iff in E as [E1 E2]. apply bool_decide_eq_false in E2.
      rewrite IH. split.
      * intros (f & Hf & H). exists f. split; [by right | done].
      * intros (f & Hf & H). exists f. split; [|done].
        apply elem_of_cons in Hf as [->|Hf]; [|done]. exfalso.
        destruct H as [H|[r H]]; [done|].
        assert (HasPrefix file (normalized_root node +:+ "/") = true); [|congruence].
        apply HasPrefix_app. exists r. by rewrite H, append_assoc.
Qed.

Lemma mark_nodes_lookup (changedFiles : list string) (ns : list ProjectNode)
    (set : gmap string bool) (n : string) :
  is_Some (foldl (λ set node, mark_node changedFiles node set) set ns !! n)
  ↔ is_Some (set !! n) ∨ ∃ node, node ∈ ns ∧ Name node = n ∧ touches changedFiles node.
Proof.
  revert set. induction ns as [|node ns IH]; intros set; simpl.
  - split; [by left | intros [H|(x & Hx & _)]; [done | inversion Hx]].
  - rewrite IH. unfold mark_node at 1. fold (normalized_root node).
    destruct (file_in_project (normalized_root node) changedFiles) eqn:E.
    + apply file_in_project_touches in E.
      rewrite lookup_insert_is_Some. split.
      * intros [[<-|[_ H]]|(x & Hx & H)].
        -- right. exists node. split; [left | done].
        -- by left.
        -- right. exists x. split; [by right | done].
      * intros [H|(x & Hx & Hn & Ht)].
        -- left. destruct (decide (Name node = n)); [by left | by right].
        -- apply elem_of_cons in Hx as [->|Hx]; [left; by left |].
           right. by exists x.
    + assert (¬ touches changedFiles node) as Hno.
      { rewrite <- file_in_project_touches. congruence. }
      split.
      * intros [H|(x & Hx & H)]; [by left |]. right. exists x. split; [by right | done].
      * intros [H|(x & Hx & Hn & Ht)]; [by left |].
        apply elem_of_cons in Hx as [->|Hx]; [done |]. right. by exists x.
Qed.

Lemma changed_projects_elem (changedFiles : list string)
    (projectGraph : gmap string ProjectNode) (n : string) :
  n ∈ changed_projects changedFiles projectGraph
  ↔ ∃ key node, projectGraph !! key = Some node ∧ Name node = n
                ∧ touches changedFiles node.
Proof.
  unfold changed_projects, mark_nodes.
  rewrite list_elem_of_fmap. split.
  - intros ([k b] & -> & H). apply elem_of_map_to_list in H. simpl.
    assert (is_Some (foldl (λ set node, mark_node changedFiles node set) ∅
                       (map_to_list projectGraph).*2 !! k)) as Hs by eauto.
    apply mark_nodes_lookup in Hs as [Hs|(node & Hn & Hname & Ht)].
    + rewrite lookup_empty in Hs. by destruct Hs.
    + apply list_elem_of_fmap in Hn as ([key nd] & -> & Hin).
      apply elem_of_map_to_list in Hin. by exists key, nd.
  - intros (key & node & Hl & Hn & Ht).
    assert (is_Some (foldl (λ set node, mark_node changedFiles node set) ∅
                       (map_to_list projectGraph).*2 !! n)) as [b Hb].
    { apply mark_nodes_lookup. right. exists node. split; [|done].
      apply list_elem_of_fmap. exists (key, node). split; [done|].
      by apply elem_of_map_to_list. }
    exists (n, b). split; [done|]. by apply elem_of_map_to_list.
Qed.

(** Unfolding one layer of the state monad. *)
Ltac monad_unfold := unfold mbind, M_bind, ret, get, modify in *.

(** C1. When the changed files are known and, if there are any, the
    project graph as well, [GetChangedProjectsUsingGraph] returns exactly
    the names of the nodes that some changed file touches: a file touches a node when it equals
    the node's normalised root or starts with that root followed by a
    slash.  Hence, for a node whose name stands for one root, the node's
    project is in the result if and only if a changed file touches it.
    For the node app1 with root apps/app1, the file apps/app1/src/x.ts marks
    app1 and the file apps/app1b/x.ts does not. *)
Theorem C1_affected_iff_changed_file_under_root :
  (∀ os json (base head : string) (w w1 w2 : World)
     (changedFiles : list string) (g : option (gmap string ProjectNode)),
     GetChangedFiles os base head w = ((Some changedFiles, None), w1) →
     (changedFiles ≠ [] → GetProjectGraph os json w1 = ((g, None), w2)) →
     ∃ changed w',
       GetChangedProjectsUsingGraph os json base head w = ((Some changed, None), w')
       ∧ (∀ n, n ∈ changed ↔
               ∃ key node, nodes g !! key = Some node ∧ Name node = n
                           ∧ touches changedFiles node)
       ∧ (∀ key node, nodes g !! key = Some node →
            (∀ key' node', nodes g !! key' = Some node' → Name node' = Name node →
                           normalized_root node' = normalized_root node) →
            (Name node ∈ changed ↔ touches changedFiles node)))
  ∧ changed_projects ["apps/app1/src/x.ts"] {["app1" := app1]} = ["app1"]
  ∧ changed_projects ["apps/app1b/x.ts"] {["app1" := app1]} = [].
Proof.
  split; [|split; reflexivity].
  intros os json base head w w1 w2 changedFiles g Hcf Hpg.
  assert (∃ changed w',
    GetChangedProjectsUsingGraph os json base head w = ((Some changed, None), w')
    ∧ ∀ n, n ∈ changed ↔
           ∃ key node, nodes g !! key = Some node ∧ Name node = n
                       ∧ touches changedFiles node) as (changed & w' & Hrun & Hiff).
  { unfold GetChangedProjectsUsingGraph. monad_unfold. rewrite Hcf. simpl.
    destruct changedFiles as [|file rest]; simpl.
    - eexists _, _. split; [done|]. intros n. split; [intros H; inversion H|].
      intros (_ & _ & _ & _ & f & Hf & _). inversion Hf.
    - rewrite Hpg by done. simpl. eexists _, _. split; [done|].
      intros n. apply changed_projects_elem. }
  exists changed, w'. split; [done|]. split; [done|].
  intros key node Hnode Huniq. rewrite Hiff. split.
  - intros (key' & node' & Hl & Hn & (f & Hf & Ht)). exists f. split; [done|].
    by rewrite <- (Huniq key' node' Hl Hn).
  - intros Ht. by exists key, node.
Qed.

(** ** Skipping unchanged projects *)

Lemma in_changed_elem (projectName : string) (changedProjects : list string) :
  in_changed projectName changedProjects = true ↔ projectName ∈ changedProjects.
Proof.
  induction changedProjects as [|c rest IH]; simpl.
  - split; [done | intros H; inversion H].
  - case_bool_decide as Hc.
    + subst. split; [intros _; left | done].
    + rewrite IH. split; [by right|].
      intros [->|H]%elem_of_cons; done.
Qed.

(** C3. [ShouldSkipProject] never returns an error.  It answers false,
    without looking at anything, when [forceAll] is set or when base and
    head are both empty.  Otherwise it runs the affected-project
    computation for (base, head): if that fails the answer is false
    (the scan is run); if it succeeds the answer is true exactly when the
    project is not among the affected projects. *)
Theorem C3_should_skip_policy os json (projectName base head : string)
    (forceAll : bool) (w : World) :
  (ShouldSkipProject os json projectName base head forceAll w).1.2 = None
  ∧ (forceAll = true ∨ (base = "" ∧ head = "") →
     ShouldSkipProject os json projectName base head forceAll w = ((false, None), w))
  ∧ (forceAll = false → ¬ (base = "" ∧ head = "") →
     ∀ changed err w',
       GetChangedProjectsUsingGraph os json base head w = ((changed, err), w') →
       ∃ skip,
         ShouldSkipProject os json projectName base head forceAll w = ((skip, None), w')
         ∧ (is_Some err → skip = false)
         ∧ (err = None → (skip = true ↔ projectName ∉ slice changed))).
Proof.
  unfold ShouldSkipProject. split; [|split].
  - destruct forceAll; [done|].
    destruct (is_empty base && is_empty head); [done|].
    monad_unfold.
    destruct (GetChangedProjectsUsingGraph os json base head w) as [[changed [e|]] w']; done.
  - intros [->|[-> ->]]; [done|]. by destruct forceAll.
  - intros -> Hne changed err w' Hrun.
    destruct (is_empty base && is_empty head) eqn:E.
    { apply andb_true_iff in E as [E1%is_empty_true E2%is_empty_true]. tauto. }
    monad_unfold. rewrite Hrun. simpl. destruct err as [e|]; simpl.
    + exists false. split; [done|]. split; [done | intros; discriminate].
    + eexists. split; [done|]. split; [intros [? ?]; discriminate|].
      intros _. rewrite negb_true_iff, <- in_changed_elem.
      destruct (in_changed projectName (slice changed)); split; congruence.
Qed.

(** ** Memoised queries *)

(** Case analysis on every branch of a monadic definition, innermost
    test first. *)
Ltac branches :=
  repeat (simpl in *; try done;
          match goal with
          | |- context [match ?x with _ => _ end] =>
              lazymatch x with
              | context [match _ with _ => _ end] => fail
              | _ => destruct x eqn:?
              end
          end).

Section Memo.

Variable os : list Call → Call → Response.
Variable json : string → ProjectGraph + error.

Lemma GetChangedFiles_cached base head w :
  changedFilesOnce w = true →
  GetChangedFiles os base head w = ((Some (slice (changedFilesCache w)), None), w).
Proof. intros H. unfold GetChangedFiles. monad_unfold. by rewrite H. Qed.

Lemma GetProjectGraph_cached w :
  projectGraphOnce w = true →
  GetProjectGraph os json w = ((projectGraphCache w, None), w).
Proof. intros H. unfold GetProjectGraph. monad_unfold. by rewrite H. Qed.

Lemma GetChangedFiles_first base head w :
  changedFilesOnce w = false →
  let r := GetChangedFiles os base head w in
  changedFilesOnce r.2 = true
  ∧ (is_Some r.1.2 → changedFilesCache r.2 = changedFilesCache w)
  ∧ (r.1.2 = None → is_Some (changedFilesCache r.2)).
Proof.
  intros H. unfold GetChangedFiles, changedFiles_body, call. monad_unfold.
  rewrite H. branches; (split; [done|]); split; try done; intros [? ?]; done.
Qed.

Lemma GetChangedFiles_frame base head w :
  projectGraph_part (GetChangedFiles os base head w).2 = projectGraph_part w.
Proof.
  unfold GetChangedFiles, changedFiles_body, call. monad_unfold. branches.
Qed.

Lemma GetProjectGraph_first w :
  projectGraphOnce w = false →
  let r := GetProjectGraph os json w in
  projectGraphOnce r.2 = true
  ∧ (is_Some r.1.2 → projectGraphCache r.2 = projectGraphCache w).
Proof.
  intros H. unfold GetProjectGraph, projectGraph_body, projectGraph_query, call.
  monad_unfold. rewrite H. branches; split; try done; intros [? ?]; done.
Qed.

Lemma GetProjectGraph_frame w :
  changedFiles_part (GetProjectGraph os json w).2 = changedFiles_part w.
Proof.
  unfold GetProjectGraph, projectGraph_body, projectGraph_query, call.
  monad_unfold. branches.
Qed.

Lemma GetProjects_frame base head all w :
  changedFiles_part (GetProjects os base head all w).2 = changedFiles_part w
  ∧ projectGraph_part (GetProjects os base head all w).2 = projectGraph_part w.
Proof. unfold GetProjects, call. monad_unfold. branches. Qed.

Lemma GetChangedProjectsUsingGraph_world base head w :
  let w1 := (GetChangedFiles os base head w).2 in
  (GetChangedProjectsUsingGraph os json base head w).2 = w1
  ∨ (GetChangedProjectsUsingGraph os json base head w).2 = (GetProjectGraph os json w1).2.
Proof.
  unfold GetChangedProjectsUsingGraph. monad_unfold.
  destruct (GetChangedFiles os base head w) as [[cf [e|]] w1]; simpl; [by left|].
  destruct (List.length (slice cf) =? 0)%nat; [by left|].
  destruct (GetProjectGraph os json w1) as [[pg [e|]] w2]; by right.
Qed.

Lemma ShouldSkipProject_world projectName base head forceAll w :
  (ShouldSkipProject os json projectName base head forceAll w).2 = w
  ∨ (ShouldSkipProject os json projectName base head forceAll w).2
    = (GetChangedProjectsUsingGraph os json base head w).2.
Proof.
  unfold ShouldSkipProject. destruct forceAll; [by left|].
  destruct (is_empty base && is_empty head); [by left|]. monad_unfold.
  destruct (GetChangedProjectsUsingGraph os json base head w) as [[cp [e|]] w1]; by right.
Qed.

Lemma GetProjectsFromList_world projectsList w :
  (GetProjectsFromList os projectsList w).2 = (GetProjects os "" "" true w).2.
Proof.
  unfold GetProjectsFromList. monad_unfold.
  by destruct (GetProjects os "" "" true w) as [[ap [e|]] w1].
Qed.

(** A property of the world that the three primitive queries keep is
    kept by every entry point, hence by every sequence of calls. *)
Lemma perform_keeps (P : World → Prop) :
  (∀ base head w, P w → P (GetChangedFiles os base head w).2) →
  (∀ w, P w → P (GetProjectGraph os json w).2) →
  (∀ base head all w, P w → P (GetProjects os base head all w).2) →
  ∀ op w, P w → P (perform os json op w).
Proof.
  intros Hcf Hpg Hps.
  assert (∀ base head w, P w → P (GetChangedProjectsUsingGraph os json base head w).2) as Hcp.
  { intros base head w Hw.
    destruct (GetChangedProjectsUsingGraph_world base head w) as [-> | ->]; auto. }
  intros [base head| |base head|projectName base head forceAll|base head all|projectsList] w Hw;
    simpl; auto.
  - destruct (ShouldSkipProject_world projectName base head forceAll w) as [-> | ->]; auto.
  - rewrite GetProjectsFromList_world. auto.
Qed.

Lemma perform_all_keeps (P : World → Prop) :
  (∀ op w, P w → P (perform os json op w)) →
  ∀ ops w, P w → P (perform_all os json ops w).
Proof.
  intros Hstep ops. unfold perform_all.
  induction ops as [|op ops IH]; intros w Hw; simpl; auto.
Qed.

Lemma part_eq_changedFiles w w' :
  changedFiles_part w' = changedFiles_part w →
  changedFilesOnce w' = changedFilesOnce w ∧ changedFilesCache w' = changedFilesCache w.
Proof. unfold changedFiles_part. intros [= -> ->]. done. Qed.

Lemma part_eq_projectGraph w w' :
  projectGraph_part w' = projectGraph_part w →
  projectGraphOnce w' = projectGraphOnce w ∧ projectGraphCache w' = projectGraphCache w.
Proof. unfold projectGraph_part. intros [= -> ->]. done. Qed.

Lemma changedFiles_spent_forever ops w :
  changedFiles_spent w → changedFiles_spent (perform_all os json ops w).
Proof.
  apply perform_all_keeps. apply perform_keeps; unfold changedFiles_spent.
  - intros base head w0 [H1 H2]. by rewrite GetChangedFiles_cached.
  - intros w0 [H1 H2].
    destruct (part_eq_changedFiles _ _ (GetProjectGraph_frame w0)) as [-> ->]. done.
  - intros base head all w0 [H1 H2].
    destruct (part_eq_changedFiles _ _ (proj1 (GetProjects_frame base head all w0))) as [-> ->].
    done.
Qed.

Lemma projectGraph_spent_forever ops w :
  projectGraph_spent w → projectGraph_spent (perform_all os json ops w).
Proof.
  apply perform_all_keeps. apply perform_keeps; unfold projectGraph_spent.
  - intros base head w0 [H1 H2].
    destruct (part_eq_projectGraph _ _ (GetChangedFiles_frame base head w0)) as [-> ->]. done.
  - intros w0 [H1 H2]. by rewrite GetProjectGraph_cached.
  - intros base head all w0 [H1 H2].
    destruct (part_eq_projectGraph _ _ (proj2 (GetProjects_frame base head all w0))) as [-> ->].
    done.
Qed.

Lemma consistent_forever ops : consistent (perform_all os json ops initial).
Proof.
  apply perform_all_keeps; [|done]. apply perform_keeps; unfold consistent.
  - intros base head w [H1 H2].
    destruct (part_eq_projectGraph _ _ (GetChangedFiles_frame base head w)) as [-> ->].
    split; [|done]. destruct (changedFilesOnce w) eqn:E.
    + rewrite GetChangedFiles_cached by done. simpl. congruence.
    + destruct (GetChangedFiles_first base head w E) as (-> & _). done.
  - intros w [H1 H2].
    destruct (part_eq_changedFiles _ _ (GetProjectGraph_frame w)) as [-> ->].
    split; [done|]. destruct (projectGraphOnce w) eqn:E.
    + rewrite GetProjectGraph_cached by done. simpl. congruence.
    + destruct (GetProjectGraph_first w E) as (-> & _). done.
  - intros base head all w [H1 H2].
    destruct (part_eq_changedFiles _ _ (proj1 (GetProjects_frame base head all w))) as [-> ->].
    destruct (part_eq_projectGraph _ _ (proj2 (GetProjects_frame base head all w))) as [-> ->].
    done.
Qed.

(** C4. A failure of a memoised query is reported once.  Take the
    process after any calls to the package.  If a call to
    [GetChangedFiles] then returns an error, every later call to it, with
    any arguments and after any further calls, returns the empty slice
    with a nil error and leaves the world as it is, and the
    affected-project computation likewise answers with no project and no
    error.  If a call to [GetProjectGraph] returns an error, every later
    call returns the nil map with a nil error. *)
Theorem C4_failure_reported_once (before after : list Op) :
  let w := perform_all os json before initial in
  (∀ base head r e w1,
     GetChangedFiles os base head w = ((r, Some e), w1) →
     let w2 := perform_all os json after w1 in
     ∀ base' head',
       GetChangedFiles os base' head' w2 = ((Some [], None), w2)
       ∧ GetChangedProjectsUsingGraph os json base' head' w2 = ((Some [], None), w2))
  ∧ (∀ r e w1,
       GetProjectGraph os json w = ((r, Some e), w1) →
       let w2 := perform_all os json after w1 in
       GetProjectGraph os json w2 = ((None, None), w2)).
Proof.
  intros w. pose proof (consistent_forever before) as [Hc1 Hc2]. fold w in Hc1, Hc2.
  split.
  - intros base head r e w1 Hrun w2 base' head'.
    assert (changedFiles_spent w1) as Hs.
    { destruct (changedFilesOnce w) eqn:E.
      { rewrite GetChangedFiles_cached in Hrun by done. discriminate. }
      pose proof (GetChangedFiles_first base head w E) as (H1 & H2 & _).
      rewrite Hrun in H1, H2. simpl in *. split; [done|].
      rewrite H2 by eauto. auto. }
    apply (changedFiles_spent_forever after) in Hs. fold w2 in Hs.
    destruct Hs as [Ho Hn].
    assert (GetChangedFiles os base' head' w2 = (Some [], None, w2)) as Hcf.
    { rewrite GetChangedFiles_cached by done. by rewrite Hn. }
    split; [done|]. unfold GetChangedProjectsUsingGraph. monad_unfold. by rewrite Hcf.
  - intros r e w1 Hrun w2.
    assert (projectGraph_spent w1) as Hs.
    { destruct (projectGraphOnce w) eqn:E.
      { rewrite GetProjectGraph_cached in Hrun by done. discriminate. }
      pose proof (GetProjectGraph_first w E) as (H1 & H2).
      rewrite Hrun in H1, H2. simpl in *. split; [done|].
      rewrite H2 by eauto. auto. }
    apply (projectGraph_spent_forever after) in Hs. fold w2 in Hs.
    destruct Hs as [Ho Hn]. rewrite GetProjectGraph_cached by done. by rewrite Hn.
Qed.

End Memo.

(** ** The project graph is queried at most once *)

Section GraphQuery.

Variable os : list Call → Call → Response.
Variable json : string → ProjectGraph + error.

(** C5, as the code has it.  Take a world in which the guard of the
    project graph has not been consumed, and call [GetProjectGraph] twice
    in a row.  The second call makes no call to the outside world and
    returns the cache with a nil error.  The first call runs the primary
    graph query once if the temporary file could be created, and not at
    all otherwise; it runs the fallback query once if the primary query
    ran and failed, and not at all otherwise; and when both fail it
    returns the error of the fallback. *)
Theorem C5_graph_queried_at_most_once (w : World) :
  projectGraphOnce w = false →
  let temp := os (trace w) (CreateTemp "" "nx_graph_*.json") in
  let primary_call := Exec "yarn" (graph_args "graph" temp.1) in
  let primary := os (trace w ++ [CreateTemp "" "nx_graph_*.json"]) primary_call in
  let fallback_call := Exec "yarn" (graph_args "dep-graph" temp.1) in
  let fallback :=
    os (trace w ++ [CreateTemp "" "nx_graph_*.json"] ++ [primary_call]) fallback_call in
  let first := GetProjectGraph os json w in
  let second := GetProjectGraph os json first.2 in
  second = ((projectGraphCache first.2, None), first.2)
  ∧ queries "graph" (new_calls w second.2)
    = (if temp.2 is None then 1 else 0)%nat
  ∧ queries "dep-graph" (new_calls w second.2)
    = (if temp.2 is None then if primary.2 is Some _ then 1 else 0 else 0)%nat
  ∧ (temp.2 = None → is_Some primary.2 →
     ∀ e, fallback.2 = Some e →
          first.1.2 = Some (wrap_error "failed to get project graph" e)).
Proof.
  intros Honce temp primary_call primary fallback_call fallback first second.
  assert (second = ((projectGraphCache first.2, None), first.2)) as Hsecond.
  { unfold second. apply GetProjectGraph_cached.
    by destruct (GetProjectGraph_first os json w Honce) as [H _]. }
  split; [done|]. rewrite Hsecond. simpl.
  unfold first, GetProjectGraph, projectGraph_body, projectGraph_query, call.
  monad_unfold. rewrite Honce. simpl. fold temp.
  destruct (temp.2) as [tempErr|] eqn:Et; simpl.
  { unfold new_calls. simpl. rewrite drop_app_length. simpl.
    split; [|split]; [done..|]. intros; discriminate. }
  fold primary_call. fold primary.
  destruct (primary.2) as [cmdErr|] eqn:Ep; simpl.
  - rewrite <- !app_assoc. fold fallback_call. fold fallback.
    destruct (fallback.2) as [cmdErr2|] eqn:Ef; simpl.
    + unfold new_calls. simpl. rewrite <- !app_assoc, drop_app_length. simpl.
      split; [done|]. split; [done|]. intros _ _ e [= ->]. done.
    + branches; unfold new_calls; simpl; rewrite <- ?app_assoc, drop_app_length;
        (split; [done|]); (split; [done|]); intros; discriminate.
  - branches; unfold new_calls; simpl; rewrite <- ?app_assoc, drop_app_length;
      (split; [done|]); (split; [done|]); by intros _ [? ?].
Qed.

End GraphQuery.

(** ** Explicit project lists *)

Lemma build_projectMap_lookup (allProjects : list string) (k : string) :
  map_get (build_projectMap allProjects) k = true ↔ k ∈ allProjects.
Proof.
  unfold build_projectMap, map_get.
  assert (∀ m : gmap string bool,
    default false (foldl (λ projectMap p, <[p := true]> projectMap) m allProjects !! k) = true
    ↔ default false (m !! k) = true ∨ k ∈ allProjects) as H.
  { induction allProjects as [|p ps IH]; intros m; simpl.
    - split; [by left | intros [Hm|Hm]; [done | inversion Hm]].
    - rewrite IH. destruct (decide (p = k)) as [->|Hne].
      + rewrite lookup_insert_eq. simpl. split; [intros _; right; left | by left].
      + rewrite lookup_insert_ne by done. split.
        * intros [Hm|Hm]; [by left | right; by right].
        * intros [Hm|[->|Hm]%elem_of_cons]; [by left | done | by right]. }
  rewrite H, lookup_empty. simpl. split; [intros [Hm|Hm]; done | by right].
Qed.

Lemma classify_filter (projectMap : gmap string bool) (requested valid invalid : list string) :
  classify projectMap requested valid invalid
  = (valid ++ filter (λ p, map_get projectMap p = true)
               (filter (λ p, p ≠ "") (TrimSpace <$> requested)),
     invalid ++ filter (λ p, map_get projectMap p ≠ true)
                 (filter (λ p, p ≠ "") (TrimSpace <$> requested))).
Proof.
  revert valid invalid. induction requested as [|project rest IH]; intros valid invalid.
  - simpl. by rewrite !app_nil_r.
  - rewrite fmap_cons. cbn [classify]. destruct (is_empty (TrimSpace project)) eqn:E.
    + apply is_empty_true in E. rewrite IH, filter_cons_False; [done|].
      intros H. done.
    + apply is_empty_false in E. rewrite filter_cons_True by done.
      destruct (map_get projectMap (TrimSpace project)) eqn:Em; rewrite IH.
      * rewrite filter_cons_True by done. rewrite filter_cons_False by (intros H; done).
        by rewrite <- app_assoc.
      * rewrite filter_cons_False by congruence. rewrite filter_cons_True by congruence.
        by rewrite <- app_assoc.
Qed.

Lemma projects_from_list_filter (allProjects : list string) (projectsList : string) :
  projects_from_list allProjects projectsList
  = (filter (λ p, p ∈ allProjects) (requested_names projectsList),
     filter (λ p, p ∉ allProjects) (requested_names projectsList)).
Proof.
  unfold projects_from_list, requested_names. rewrite classify_filter. simpl. f_equal.
  - apply list_filter_iff. intros p. apply build_projectMap_lookup.
  - apply list_filter_iff. intros p. by rewrite build_projectMap_lookup.
Qed.

(** C6. Against the universe the all-projects query returns,
    [GetProjectsFromList] returns as valid the requested names that are in
    the universe and as invalid those that are not, each list in the
    order of the input, where the requested names are the comma-separated
    entries trimmed, without the entries that are empty after trimming.
    It fails only if the all-projects query fails.  The input
    app1,app2,ghost against the universe of app1 and app2 gives the valid
    names app1, app2 and the invalid name ghost. *)
Theorem C6_explicit_list_partition :
  (∀ os (projectsList : string) (w w' : World) (universe : option (list string)),
     GetProjects os "" "" true w = ((universe, None), w') →
     GetProjectsFromList os projectsList w
     = ((Some (filter (λ p, p ∈ slice universe) (requested_names projectsList)),
         Some (filter (λ p, p ∉ slice universe) (requested_names projectsList)),
         None), w'))
  ∧ (∀ os (projectsList : string) (w : World),
       is_Some (GetProjectsFromList os projectsList w).1.2
       ↔ is_Some (GetProjects os "" "" true w).1.2)
  ∧ projects_from_list ["app1"; "app2"] "app1,app2,ghost" = (["app1"; "app2"], ["ghost"]).
Proof.
  split; [|split].
  - intros os projectsList w w' universe Hall.
    unfold GetProjectsFromList. monad_unfold. rewrite Hall. simpl.
    by rewrite projects_from_list_filter.
  - intros os projectsList w. unfold GetProjectsFromList. monad_unfold.
    destruct (GetProjects os "" "" true w) as [[u [e|]] w']; simpl.
    + split; eauto.
    + split; intros [? ?]; done.
  - reflexivity.
Qed.

(** ** Statistics *)

Lemma wrap_small (bits z : Z) :
  0 < bits → - 2 ^ (bits - 1) ≤ z < 2 ^ (bits - 1) → wrap bits z = z.
Proof.
  intros Hb Hz. unfold wrap.
  assert (2 ^ bits = 2 * 2 ^ (bits - 1)) as E.
  { rewrite <- Z.pow_succ_r by lia. f_equal. lia. }
  rewrite Z.mod_small by lia. lia.
Qed.

Lemma wrap32_small z : - 2 ^ 31 ≤ z < 2 ^ 31 → wrap32 z = z.
Proof. intros. by apply wrap_small. Qed.

Lemma wrap64_small z : - 2 ^ 63 ≤ z < 2 ^ 63 → wrap64 z = z.
Proof. intros. by apply wrap_small. Qed.

Lemma wrap_add_l (bits x y : Z) : wrap bits (wrap bits x + y) = wrap bits (x + y).
Proof.
  unfold wrap. f_equal.
  replace ((x + 2 ^ (bits - 1)) mod 2 ^ bits - 2 ^ (bits - 1) + y + 2 ^ (bits - 1))
    with ((x + 2 ^ (bits - 1)) mod 2 ^ bits + y) by lia.
  rewrite Zplus_mod_idemp_l. f_equal. lia.
Qed.

Lemma record_all_cons i inputs s :
  record_all (i :: inputs) s = record_all inputs (record_input s i).
Proof. reflexivity. Qed.

Lemma record_all_snoc i inputs s :
  record_all (inputs ++ [i]) s = record_input (record_all inputs s) i.
Proof. unfold record_all. by rewrite foldl_app. Qed.

(** The extreme durations are running maxima and minima, whatever the
    inputs. *)
Lemma record_all_extrema inputs s :
  maxDuration (record_all inputs s) = foldl Z.max (maxDuration s) (durations inputs)
  ∧ minDuration (record_all inputs s) = foldl Z.min (minDuration s) (durations inputs)
  ∧ totalProjects (record_all inputs s) = totalProjects s.
Proof.
  revert s. induction inputs as [|i inputs IH]; intros s; [done|].
  rewrite record_all_cons. destruct (IH (record_input s i)) as (-> & -> & ->).
  unfold durations. rewrite fmap_cons. simpl. repeat split; f_equal.
  - destruct (Z.leb_spec (duration_of i) (maxDuration s)); lia.
  - destruct (Z.ltb_spec (duration_of i) (minDuration s)); lia.
Qed.

Lemma foldl_max_spec (l : list Z) (a : Z) :
  a ≤ foldl Z.max a l ∧ (∀ x, x ∈ l → x ≤ foldl Z.max a l)
  ∧ (foldl Z.max a l = a ∨ foldl Z.max a l ∈ l).
Proof.
  revert a. induction l as [|d l IH]; intros a; simpl.
  - split; [lia|]. split; [intros x H; inversion H | by left].
  - destruct (IH (Z.max a d)) as (H1 & H2 & H3). split; [lia|]. split.
    + intros x [->|Hx]%elem_of_cons; [lia | auto].
    + destruct H3 as [H3|H3]; [|right; by right].
      destruct (Z.max_spec a d) as [[? E]|[? E]]; rewrite E in *.
      * right. rewrite H3. left.
      * by left.
Qed.

Lemma foldl_min_spec (l : list Z) (a : Z) :
  foldl Z.min a l ≤ a ∧ (∀ x, x ∈ l → foldl Z.min a l ≤ x)
  ∧ (foldl Z.min a l = a ∨ foldl Z.min a l ∈ l).
Proof.
  revert a. induction l as [|d l IH]; intros a; simpl.
  - split; [lia|]. split; [intros x H; inversion H | by left].
  - destruct (IH (Z.min a d)) as (H1 & H2 & H3). split; [lia|]. split.
    + intros x [->|Hx]%elem_of_cons; [lia | auto].
    + destruct H3 as [H3|H3]; [|right; by right].
      destruct (Z.min_spec a d) as [[? E]|[? E]]; rewrite E in *.
      * by left.
      * right. rewrite H3. left.
Qed.

Lemma successes_cons i inputs :
  successes (i :: inputs) = (if succeeded i then 1 else 0) + successes inputs.
Proof.
  unfold successes. destruct (succeeded i) eqn:E.
  - rewrite filter_cons_True by done. simpl. lia.
  - rewrite filter_cons_False by congruence. lia.
Qed.

Lemma failures_cons i inputs :
  failures (i :: inputs) = (if succeeded i then 0 else 1) + failures inputs.
Proof.
  unfold failures. destruct (succeeded i) eqn:E.
  - rewrite filter_cons_False by congruence. lia.
  - rewrite filter_cons_True by done. simpl. lia.
Qed.

Lemma positive_vulnerabilities_cons i inputs :
  positive_vulnerabilities (i :: inputs)
  = (if 0 <? vulnerabilities_of i then vulnerabilities_of i else 0)
    + positive_vulnerabilities inputs.
Proof.
  unfold positive_vulnerabilities. rewrite fmap_cons.
  destruct (Z.ltb_spec 0 (vulnerabilities_of i)).
  - by rewrite filter_cons_True.
  - rewrite filter_cons_False by lia. lia.
Qed.

Lemma counts_nonneg inputs :
  0 ≤ successes inputs ∧ 0 ≤ failures inputs
  ∧ successes inputs + failures inputs = Z.of_nat (List.length inputs).
Proof.
  induction inputs as [|i inputs IH].
  - unfold successes, failures. simpl. lia.
  - rewrite successes_cons, failures_cons. simpl List.length.
    destruct (succeeded i); lia.
Qed.

Lemma positive_vulnerabilities_nonneg inputs : 0 ≤ positive_vulnerabilities inputs.
Proof.
  induction inputs as [|i inputs IH]; [done|].
  rewrite positive_vulnerabilities_cons. destruct (Z.ltb_spec 0 (vulnerabilities_of i)); lia.
Qed.

Lemma total_durations_nonneg inputs :
  Forall (λ i, 0 ≤ duration_of i ∧ 0 ≤ vulnerabilities_of i) inputs →
  0 ≤ total (durations inputs).
Proof.
  induction 1 as [|i inputs [H _] _ IH]; [done|].
  unfold durations. rewrite fmap_cons. simpl. fold (durations inputs). lia.
Qed.

(** The counters and sums are exact as long as nothing wraps around. *)
Lemma record_all_counters inputs s :
  0 ≤ successful s → 0 ≤ failed s → 0 ≤ vulnerabilities s → 0 ≤ totalDuration s →
  Forall (λ i, 0 ≤ duration_of i ∧ 0 ≤ vulnerabilities_of i) inputs →
  successful s + failed s + Z.of_nat (List.length inputs) < 2 ^ 31 →
  vulnerabilities s + positive_vulnerabilities inputs < 2 ^ 31 →
  totalDuration s + total (durations inputs) < 2 ^ 63 →
  successful (record_all inputs s) = successful s + successes inputs
  ∧ failed (record_all inputs s) = failed s + failures inputs
  ∧ vulnerabilities (record_all inputs s) = vulnerabilities s + positive_vulnerabilities inputs
  ∧ totalDuration (record_all inputs s) = totalDuration s + total (durations inputs).
Proof.
  revert s. induction inputs as [|i inputs IH]; intros s Hs Hf Hv Ht Hall Hn Hvs Hts.
  - unfold successes, failures, positive_vulnerabilities. simpl. lia.
  - apply Forall_cons in Hall as [[Hd Hvi] Hall].
    pose proof (total_durations_nonneg inputs Hall) as Htd.
    pose proof (positive_vulnerabilities_nonneg inputs) as Hpv.
    rewrite record_all_cons, successes_cons, failures_cons, positive_vulnerabilities_cons.
    rewrite positive_vulnerabilities_cons in Hvs.
    unfold durations in *. rewrite fmap_cons in *. simpl in Hts, Hn |- *.
    fold (durations inputs) in *.
    assert (successful (record_input s i) = successful s + (if succeeded i then 1 else 0)) as Es.
    { unfold record_input, recordResult. simpl.
      destruct (succeeded i); [rewrite wrap32_small|]; lia. }
    assert (failed (record_input s i) = failed s + (if succeeded i then 0 else 1)) as Ef.
    { unfold record_input, recordResult. simpl.
      destruct (succeeded i); [|rewrite wrap32_small]; lia. }
    assert (vulnerabilities (record_input s i)
            = vulnerabilities s + (if 0 <? vulnerabilities_of i then vulnerabilities_of i else 0)) as Ev.
    { unfold record_input, recordResult. simpl.
      destruct (Z.ltb_spec 0 (vulnerabilities_of i)); [|lia].
      rewrite (wrap32_small (vulnerabilities_of i)) by lia. rewrite wrap32_small; lia. }
    assert (totalDuration (record_input s i) = totalDuration s + duration_of i) as Et.
    { unfold record_input, recordResult. simpl. rewrite wrap64_small; lia. }
    destruct (IH (record_input s i)) as (-> & -> & -> & ->).
    + rewrite Es. destruct (succeeded i); lia.
    + rewrite Ef. destruct (succeeded i); lia.
    + rewrite Ev. destruct (0 <? vulnerabilities_of i); lia.
    + rewrite Et. lia.
    + done.
    + rewrite Es, Ef. destruct (succeeded i); lia.
    + rewrite Ev. lia.
    + rewrite Et. lia.
    + rewrite Es, Ef, Ev, Et. lia.
Qed.

(** The average lies between the extremes. *)
Lemma quot_between (t n lo hi : Z) :
  0 < n → lo * n ≤ t → t ≤ hi * n → 0 ≤ hi → lo ≤ Z.quot t n ≤ hi.
Proof.
  intros Hn Hlo Hhi H0. destruct (Z_le_gt_dec 0 t) as [Ht|Ht].
  - rewrite Z.quot_div_nonneg by lia. split.
    + apply Z.div_le_lower_bound; lia.
    + apply Z.div_le_upper_bound; lia.
  - replace t with (- (- t)) by lia. rewrite Z.quot_opp_l by lia.
    rewrite Z.quot_div_nonneg by lia.
    assert (0 ≤ (- t) / n) by (apply Z.div_pos; lia).
    assert ((- t) / n ≤ - lo) by (apply Z.div_le_upper_bound; lia).
    lia.
Qed.

Lemma total_between (l : list Z) (lo hi : Z) :
  (∀ x, x ∈ l → lo ≤ x ≤ hi) →
  lo * Z.of_nat (List.length l) ≤ total l ≤ hi * Z.of_nat (List.length l).
Proof.
  induction l as [|d l IH]; intros H; [simpl; lia|].
  assert (lo ≤ d ≤ hi) by (apply H; left).
  destruct IH as [? ?]; [intros x Hx; apply H; by right|].
  simpl total. simpl List.length. lia.
Qed.

(** What a run from fresh statistics leaves in every field. *)
Lemma record_all_fresh (n : Z) (inputs : list Input) :
  in_range inputs →
  let s := record_all inputs (initialize n zero_Stats) in
  successful s = successes inputs
  ∧ failed s = failures inputs
  ∧ vulnerabilities s = positive_vulnerabilities inputs
  ∧ totalDuration s = total (durations inputs)
  ∧ maxDuration s = foldl Z.max 0 (durations inputs)
  ∧ minDuration s = foldl Z.min Hour (durations inputs).
Proof.
  intros (Hall & Ht & Hn & Hv) s.
  destruct (record_all_counters inputs (initialize n zero_Stats)) as (E1 & E2 & E3 & E4);
    simpl; try done; try lia.
  destruct (record_all_extrema inputs (initialize n zero_Stats)) as (E5 & E6 & _).
  unfold s. rewrite E1, E2, E3, E4, E5, E6. simpl. repeat split; lia.
Qed.

(** C8. After at least one result has been recorded in fresh statistics,
    the minimum duration is at most the average and the average at most
    the maximum, where the average is the total duration divided by the
    number of results (successful plus failed), and the report shows the
    minimum and the maximum.  Before any result is recorded the report
    has no line for the minimum or the maximum. *)
Theorem C8_min_avg_max :
  (∀ (n : Z) (inputs : list Input),
     inputs ≠ [] → in_range inputs →
     let s := record_all inputs (initialize n zero_Stats) in
     avgDuration s = Z.quot (totalDuration s) (successful s + failed s)
     ∧ minDuration s ≤ avgDuration s ≤ maxDuration s
     ∧ MinDurationLine (over_a_minute (minDuration s)) (minDuration s) ∈ print s
     ∧ MaxDurationLine (over_a_minute (maxDuration s)) (maxDuration s) ∈ print s)
  ∧ (∀ (n : Z) (s0 : Stats) (l : ReportLine),
       l ∈ print (initialize n s0) → is_extreme_line l = false).
Proof.
  split.
  - intros n inputs Hne Hr s.
    destruct (record_all_fresh n inputs Hr) as (E1 & E2 & E3 & E4 & E5 & E6).
    fold s in E1, E2, E3, E4, E5, E6.
    destruct Hr as (Hall & Ht & Hn & Hv).
    destruct (counts_nonneg inputs) as (Hs & Hf & Hsum).
    assert (0 < Z.of_nat (List.length inputs)) as Hpos.
    { destruct inputs; [done | simpl; lia]. }
    assert (wrap32 (successful s + failed s) = successful s + failed s) as Ew.
    { apply wrap32_small. rewrite E1, E2. lia. }
    assert ((0 <? successful s + failed s) = true) as Egt.
    { apply Z.ltb_lt. rewrite E1, E2. lia. }
    assert (avgDuration s = Z.quot (totalDuration s) (successful s + failed s)) as Eavg.
    { unfold avgDuration. by rewrite Ew, Egt. }
    split; [done|]. split.
    + rewrite Eavg, E1, E2, E4, E5, E6, Hsum.
      destruct (foldl_max_spec (durations inputs) 0) as (M0 & Mall & _).
      destruct (foldl_min_spec (durations inputs) Hour) as (_ & mall & _).
      assert (List.length (durations inputs) = List.length inputs) as El.
      { unfold durations. by rewrite length_fmap. }
      pose proof (total_between (durations inputs)
                    (foldl Z.min Hour (durations inputs))
                    (foldl Z.max 0 (durations inputs))) as Hb.
      rewrite El in Hb. destruct Hb as [Hlo Hhi]; [intros x Hx; split; auto|].
      apply quot_between; lia.
    + unfold print. rewrite Ew, Egt. split.
      * apply elem_of_app. right. left.
      * apply elem_of_app. right. right. left.
  - intros n s0 l. unfold print. simpl.
    intros H. repeat (apply elem_of_cons in H as [->|H]; [done|]). inversion H.
Qed.

Lemma leb_max (a b : Z) : (if a <=? b then b else a) = Z.max b a.
Proof. destruct (Z.leb_spec a b); lia. Qed.

Lemma ltb_min (a b : Z) : (if a <? b then a else b) = Z.min b a.
Proof. destruct (Z.ltb_spec a b); lia. Qed.

(** Recording two results in either order gives the same statistics. *)
Lemma record_input_comm (s : Stats) (i j : Input) :
  record_input (record_input s i) j = record_input (record_input s j) i.
Proof.
  unfold record_input, recordResult. simpl.
  f_equal;
    first
      [ by destruct (succeeded i), (succeeded j)
      | destruct (0 <? vulnerabilities_of i), (0 <? vulnerabilities_of j);
        try reflexivity; unfold wrap32; rewrite !wrap_add_l; f_equal; lia
      | unfold wrap64; rewrite !wrap_add_l; f_equal; lia
      | rewrite !leb_max; lia
      | rewrite !ltb_min; lia ].
Qed.

Lemma record_all_permutation (inputs inputs' : list Input) (s : Stats) :
  inputs ≡ₚ inputs' → record_all inputs s = record_all inputs' s.
Proof.
  intros H. revert s. induction H as [|i l l' _ IH|i j l|l l' l'' _ IH1 _ IH2]; intros s.
  - done.
  - rewrite !record_all_cons. apply IH.
  - rewrite !record_all_cons. by rewrite record_input_comm.
  - by rewrite IH1.
Qed.

(** C9, as far as the code goes, and where it stops.  Recording the same
    inputs in any order gives the same statistics.  For inputs in range,
    recorded in fresh statistics: [successful] and [failed] are the
    numbers of successes and failures, [totalDuration] is the sum of the
    durations, [vulnerabilities] the sum of the positive counts,
    [maxDuration] the maximum of the durations (when there is one), and
    [minDuration] the minimum of one hour and the durations.  Five
    successes after 1 to 5 seconds give 5 successes, no failure, a minimum
    of 1s, a maximum of 5s and an average of 3s.  But after one scan of two
    hours, [minDuration] is one hour: not the minimum of the durations. *)
Theorem C9_stats_against_reference :
  (∀ (inputs inputs' : list Input) (s : Stats),
     inputs ≡ₚ inputs' → record_all inputs s = record_all inputs' s)
  ∧ (∀ (n : Z) (inputs : list Input),
       in_range inputs →
       let s := record_all inputs (initialize n zero_Stats) in
       successful s = successes inputs
       ∧ failed s = failures inputs
       ∧ totalDuration s = total (durations inputs)
       ∧ vulnerabilities s = positive_vulnerabilities inputs
       ∧ (inputs ≠ [] → is_maximum (maxDuration s) (durations inputs))
       ∧ is_minimum (minDuration s) (Hour :: durations inputs))
  ∧ (let s := record_all five_scans (initialize 5 zero_Stats) in
     successful s = 5 ∧ failed s = 0 ∧ minDuration s = 1 * Second
     ∧ maxDuration s = 5 * Second ∧ avgDuration s = 3 * Second)
  ∧ (let s := record_all long_scan (initialize 1 zero_Stats) in
     minDuration s = Hour ∧ ¬ is_minimum (minDuration s) (durations long_scan)).
Proof.
  split; [apply record_all_permutation|]. split; [|split].
  - intros n inputs Hr s.
    destruct (record_all_fresh n inputs Hr) as (E1 & E2 & E3 & E4 & E5 & E6).
    fold s in E1, E2, E3, E4, E5, E6. repeat (split; [done|]).
    destruct Hr as (Hall & _). split.
    + intros Hne. rewrite E5.
      destruct (foldl_max_spec (durations inputs) 0) as (M0 & Mall & [M|M]).
      * (* the maximum is 0: some duration is 0 *)
        rewrite M. split; [|intros x Hx; rewrite <- M; auto].
        destruct inputs as [|i inputs]; [done|].
        apply Forall_cons in Hall as [[Hd _] _].
        assert (duration_of i ≤ 0) as Hle.
        { rewrite <- M. apply Mall. unfold durations. rewrite fmap_cons. left. }
        replace 0 with (duration_of i) by lia. unfold durations. rewrite fmap_cons. left.
      * split; [done | auto].
    + rewrite E6.
      destruct (foldl_min_spec (durations inputs) Hour) as (m0 & mall & [m|m]).
      * rewrite m. split; [left|]. intros x [->|Hx]%elem_of_cons; [lia|].
        rewrite <- m. auto.
      * split; [by right|]. intros x [->|Hx]%elem_of_cons; auto.
  - vm_compute. repeat split.
  - split; [reflexivity|]. intros [Hin _]. vm_compute in Hin.
    apply elem_of_cons in Hin as [Hin|Hin]; [discriminate | inversion Hin].
Qed.

(** ** The worker pool *)

(** Replacing the state of one worker changes what the workers hold, and
    what they weigh, in that one place. *)
Lemma workers_insert {A} (f : Worker → list A) (ws : list Worker) (i : nat) (w : Worker) :
  ws !! i = Some w →
  ∃ before after,
    mbind f ws = before ++ f w ++ after
    ∧ ∀ w', mbind f (<[i := w']> ws) = before ++ f w' ++ after.
Proof.
  intros H. exists (mbind f (take i ws)), (mbind f (drop (S i) ws)). split.
  - rewrite <- (take_drop_middle ws i w H) at 1. by rewrite bind_app, bind_cons.
  - intros w'. rewrite insert_take_drop by (by eapply lookup_lt_Some).
    by rewrite bind_app, bind_cons.
Qed.

Lemma weight_insert (ws : list Worker) (i : nat) (w : Worker) :
  ws !! i = Some w →
  ∃ k, sum_list_with worker_weight ws = (k + worker_weight w)%nat
       ∧ ∀ w', sum_list_with worker_weight (<[i := w']> ws) = (k + worker_weight w')%nat.
Proof.
  intros H.
  exists (sum_list_with worker_weight (take i ws)
          + sum_list_with worker_weight (drop (S i) ws))%nat.
  split.
  - rewrite <- (take_drop_middle ws i w H) at 1.
    rewrite sum_list_with_app. simpl. lia.
  - intros w'. rewrite insert_take_drop by (by eapply lookup_lt_Some).
    rewrite sum_list_with_app. simpl. lia.
Qed.

Lemma all_exited_lookup (ws : list Worker) (i : nat) (w : Worker) :
  all_exited ws = true → ws !! i = Some w → w = Exited.
Proof.
  unfold all_exited. rewrite forallb_forall. intros H Hl.
  assert (In w ws) as Hin by (apply list_elem_of_In; by eapply list_elem_of_lookup_2).
  specialize (H w Hin). by destruct w.
Qed.

Lemma all_exited_held (ws : list Worker) : all_exited ws = true → mbind held ws = [].
Proof.
  induction ws as [|w ws IH]; [done|]. intros H. simpl in H.
  apply andb_true_iff in H as [Hw H].
  rewrite bind_cons, IH by done. by destruct w.
Qed.

Lemma all_exited_elem (ws : list Worker) :
  all_exited ws = true → (0 < List.length ws)%nat → Exited ∈ ws.
Proof.
  destruct ws as [|w ws]; simpl; [lia|]. intros [Hw _]%andb_true_iff _.
  destruct w; try done. left.
Qed.

Lemma exited_insert (ws : list Worker) (i : nat) (w' : Worker) :
  Exited ∈ <[i := w']> ws → w' ≠ Exited → Exited ∈ ws.
Proof.
  intros [j Hj]%list_elem_of_lookup_1 Hne.
  apply list_lookup_insert_Some in Hj as [(? & ? & ?)|[? Hj]]; [congruence|].
  by eapply list_elem_of_lookup_2.
Qed.

(** A worker that is still at work contradicts a closed result channel. *)
Ltac worker_exited :=
  match goal with
  | Hc : ?closed = true → all_exited ?ws = true, Hl : ?ws !! ?i = Some ?w |- _ =>
      let E := fresh in
      assert (w = Exited) as E by (eapply all_exited_lookup; [apply Hc; tauto | exact Hl]);
      discriminate E
  end.

Lemma step_invariant (projects : list string) (n : nat) (st : Stats) (c c' : Pool) :
  step n c c' → invariant projects n st c → invariant projects n st c'.
Proof.
  intros Hstep [Hst (sent & Hp & Hd) Hw Hret Hcl Hex Hfd].
  unfold dispatched in Hd.
  inversion Hstep; subst; simpl in *.
  all: constructor; unfold dispatched; simpl.
  all: try done.
  all: try (rewrite length_insert; done).
  all: try (intros; worker_exited).
  all: try (intros Hr; destruct (Hret Hr); worker_exited).
  all: try tauto.
  all: try (intros Hc He; apply exited_insert in He; [by apply Hex | done]).
  all: try (exists sent; split; [done|]; first [exact Hd | by rewrite <- Hd]).
  - (* FeederSend *)
    exists (sent ++ [p]). split; [by rewrite <- app_assoc|].
    rewrite <- Hd. solve_Permutation.
  - intros Hc He. by destruct (Hex Hc He).
  - (* WorkerTake *)
    destruct (workers_insert held ws i _ H) as (before & after & E1 & E2).
    exists sent. split; [done|]. rewrite E2, <- Hd, E1. simpl. solve_Permutation.
  - intros Hc He. apply exited_insert in He; [|done]. by destruct (Hex Hc He).
  - (* WorkerClosed *)
    destruct (workers_insert held ws i _ H) as (before & after & E1 & E2).
    exists sent. split; [done|]. by rewrite E2, <- Hd, E1.
  - (* WorkerCancelled *)
    destruct (workers_insert held ws i _ H) as (before & after & E1 & E2).
    exists sent. split; [done|]. by rewrite E2, <- Hd, E1.
  - (* WorkerScanned *)
    destruct (workers_insert held ws i _ H) as (before & after & E1 & E2).
    destruct H0 as (Hproj & _).
    exists sent. split; [done|]. rewrite E2, <- Hd, E1. simpl. by rewrite Hproj.
  - (* WorkerSend *)
    destruct (workers_insert held ws i _ H) as (before & after & E1 & E2).
    exists sent. split; [done|]. rewrite E2, <- Hd, E1, fmap_app. simpl.
    solve_Permutation.
  - (* Collect: the statistics *)
    rewrite fmap_app. change (input_of <$> [r]) with [input_of r].
    by rewrite record_all_snoc, <- Hst.
  - (* Collect: the projects *)
    exists sent. split; [done|]. rewrite <- Hd, fmap_app. simpl. solve_Permutation.
Qed.

Lemma held_replicate_Idle (n : nat) : mbind held (replicate n Idle) = [].
Proof.
  induction n as [|n IH]; [done|].
  change (replicate (S n) Idle) with (Idle :: replicate n Idle).
  by rewrite bind_cons, IH.
Qed.

Lemma start_invariant (projects : list string) (n : nat) (st : Stats) :
  invariant projects n st (start projects n st).
Proof.
  constructor; simpl; try done.
  - exists []. split; [done|]. unfold dispatched. simpl. by rewrite held_replicate_Idle.
  - apply length_replicate.
  - intros _ [H _]%elem_of_replicate. done.
Qed.

Lemma reachable_invariant (projects : list string) (n : nat) (st : Stats) (c : Pool) :
  reachable projects n st c → invariant projects n st c.
Proof.
  unfold reachable. revert c. apply rtc_ind_r.
  - apply start_invariant.
  - intros c1 c2 _ H12 IH. by eapply step_invariant.
Qed.

(** Every step uses up some of the weight: no run goes on for ever. *)
Lemma step_weight (n : nat) (c c' : Pool) : step n c c' → (weight c' < weight c)%nat.
Proof.
  intros Hstep. inversion Hstep; subst; unfold weight; simpl;
    try rewrite length_app; simpl; try lia;
    match goal with
    | H : ?ws !! ?i = Some _ |- _ =>
        destruct (weight_insert ws i _ H) as (k & -> & ->); simpl; lia
    end.
Qed.

Lemma plain_result_outcome (project : string) : scan_outcome project (plain_result project).
Proof. split; [done|]. split; [simpl; lia|]. intros [e He]. discriminate. Qed.

Lemma not_all_exited (ws : list Worker) :
  all_exited ws = false → ∃ i w, ws !! i = Some w ∧ w ≠ Exited.
Proof.
  induction ws as [|w ws IH]; simpl; [done|]. intros H.
  destruct w; try (by eexists 0%nat, _).
  destruct (IH H) as (i & w' & Hl & Hw). by exists (S i), w'.
Qed.

(** As long as the function has not returned, some goroutine can move,
    whether or not the deadline has passed. *)
Lemma step_progress (n : nat) (c : Pool) :
  (1 ≤ n)%nat → returned c = false → ∃ c', step n c c' ∧ cancelled c' = cancelled c.
Proof.
  intros Hn Hret. destruct c as [ts fd pc ws rc rcc rs st ret can]. simpl in Hret. subst ret.
  destruct rc as [|r rc]; [|eexists; split; [apply Collect | done]].
  destruct rcc; [eexists; split; [apply CollectorReturn | done]|].
  destruct (all_exited ws) eqn:Eall; [eexists; split; [by apply CloseResults | done]|].
  destruct (not_all_exited ws Eall) as (i & w & Hl & Hw).
  destruct w as [|p|r|]; [| | |done].
  - destruct pc as [|p pc]; [|eexists; split; [by eapply WorkerTake | done]].
    destruct fd; [eexists; split; [by eapply WorkerClosed | done]|].
    destruct ts as [|p ts]; [eexists; split; [apply FeederFinish | done]|].
    eexists. split; [apply FeederSend; unfold capacity; simpl; lia | done].
  - eexists. split; [eapply WorkerScanned; [done | apply plain_result_outcome] | done].
  - eexists. split; [eapply WorkerSend; [done | unfold capacity; simpl; lia] | done].
Qed.

(** So a run can always be brought to the return of the function. *)
Lemma pool_returns (n : nat) (c : Pool) :
  (1 ≤ n)%nat →
  ∃ c', rtc (step n) c c' ∧ returned c' = true ∧ cancelled c' = cancelled c.
Proof.
  intros Hn. remember (weight c) as k eqn:Ek. revert c Ek.
  induction k as [k IH] using lt_wf_ind. intros c ->.
  destruct (returned c) eqn:Er.
  - exists c. by split.
  - destruct (step_progress n c Hn Er) as (c1 & Hs & Hc).
    destruct (IH (weight c1) (step_weight n c c1 Hs) c1 eq_refl) as (c2 & Hrun & Hr & Hc2).
    exists c2. split; [by eapply rtc_l|]. split; [done | congruence].
Qed.

Lemma record_all_counts inputs s :
  0 ≤ successful s → 0 ≤ failed s →
  successful s + failed s + Z.of_nat (List.length inputs) < 2 ^ 31 →
  successful (record_all inputs s) = successful s + successes inputs
  ∧ failed (record_all inputs s) = failed s + failures inputs.
Proof.
  revert s. induction inputs as [|i inputs IH]; intros s Hs Hf Hn.
  - unfold successes, failures. simpl. lia.
  - rewrite record_all_cons, successes_cons, failures_cons. simpl in Hn.
    assert (successful (record_input s i) = successful s + (if succeeded i then 1 else 0)) as Es.
    { unfold record_input, recordResult. simpl.
      destruct (succeeded i); [rewrite wrap32_small|]; lia. }
    assert (failed (record_input s i) = failed s + (if succeeded i then 0 else 1)) as Ef.
    { unfold record_input, recordResult. simpl.
      destruct (succeeded i); [|rewrite wrap32_small]; lia. }
    destruct (IH (record_input s i)) as (-> & ->).
    + rewrite Es. destruct (succeeded i); lia.
    + rewrite Ef. destruct (succeeded i); lia.
    + rewrite Es, Ef. destruct (succeeded i); lia.
    + rewrite Es, Ef. lia.
Qed.

Lemma results_bounded (projects : list string) (n : nat) (st : Stats) (c : Pool) :
  invariant projects n st c → (List.length (results c) ≤ List.length projects)%nat.
Proof.
  intros [_ (sent & Hp & Hd) _ _ _ _ _].
  apply Permutation_length in Hd. unfold dispatched in Hd.
  rewrite !length_app, length_fmap in Hd. rewrite Hp, length_app. lia.
Qed.

(** At the return of a run that was not cancelled, the collected results
    are the projects of the run, each once. *)
Lemma results_complete (projects : list string) (n : nat) (st : Stats) (c : Pool) :
  (1 ≤ n)%nat → invariant projects n st c →
  returned c = true → cancelled c = false →
  Project <$> results c ≡ₚ projects.
Proof.
  intros Hn [_ (sent & Hp & Hd) Hw Hret Hcl Hex Hfd] Hr Hc.
  destruct (Hret Hr) as [Hclosed Hrc].
  pose proof (Hcl Hclosed) as Hall.
  destruct (Hex Hc) as [Hfdone Hpc]; [apply all_exited_elem; [done | lia]|].
  pose proof (Hfd Hc Hfdone) as Hts.
  unfold dispatched in Hd.
  rewrite Hrc, Hpc, (all_exited_held _ Hall) in Hd. simpl in Hd.
  rewrite !app_nil_r in Hd. rewrite Hp, Hts, app_nil_r. done.
Qed.

(** C7. In every configuration of a run of the pool over [projects] with
    at least one worker, started with fresh statistics: the statistics
    are those of the results collected so far, each recorded once;
    [successful + failed] is the number of results collected so far and
    never exceeds [totalProjects].  When the function has returned and the
    deadline has not passed, the collected results are the projects of
    the run, each once: as many results as projects, no project twice if
    the projects are distinct, and [successful + failed] is the number of
    projects.  The function does return: while it has not, some goroutine
    can move, every step uses up weight, and a run to the return without
    cancellation exists. *)
Theorem C7_collected_results_counted (projects : list string) (n : nat) (c : Pool) :
  (1 ≤ n)%nat →
  Z.of_nat (List.length projects) < 2 ^ 31 →
  reachable projects n (fresh_stats projects) c →
  stats c = record_all (input_of <$> results c) (fresh_stats projects)
  ∧ successful (stats c) + failed (stats c) = Z.of_nat (List.length (results c))
  ∧ successful (stats c) + failed (stats c) ≤ totalProjects (stats c)
  ∧ (returned c = true → cancelled c = false →
     List.length (results c) = List.length projects
     ∧ Project <$> results c ≡ₚ projects
     ∧ (NoDup projects → NoDup (Project <$> results c))
     ∧ successful (stats c) + failed (stats c) = Z.of_nat (List.length projects))
  ∧ (returned c = false → ∃ c', step n c c')
  ∧ (∀ c', step n c c' → (weight c' < weight c)%nat)
  ∧ (cancelled c = false →
     ∃ c', reachable projects n (fresh_stats projects) c'
           ∧ returned c' = true ∧ cancelled c' = false).
Proof.
  intros Hn HM Hreach. pose proof (reachable_invariant _ _ _ _ Hreach) as Hinv.
  pose proof (results_bounded _ _ _ _ Hinv) as Hle.
  pose proof (inv_stats _ _ _ _ Hinv) as Hst.
  destruct (record_all_counts (input_of <$> results c) (fresh_stats projects))
    as (Hs & Hf); [done | done | simpl; rewrite length_fmap; lia |].
  destruct (counts_nonneg (input_of <$> results c)) as (_ & _ & Hsum).
  rewrite length_fmap in Hsum.
  destruct (record_all_extrema (input_of <$> results c) (fresh_stats projects))
    as (_ & _ & Htot).
  assert (successful (stats c) + failed (stats c) = Z.of_nat (List.length (results c))) as Hcount.
  { rewrite Hst, Hs, Hf. simpl. lia. }
  split; [done|]. split; [done|]. split; [|split; [|split; [|split]]].
  - rewrite Hcount, Hst, Htot. simpl. rewrite wrap32_small; lia.
  - intros Hr Hc. pose proof (results_complete _ _ _ _ Hn Hinv Hr Hc) as Hperm.
    assert (List.length (results c) = List.length projects) as Hlen.
    { apply Permutation_length in Hperm. by rewrite length_fmap in Hperm. }
    split; [done|]. split; [done|]. split; [by rewrite Hperm|]. by rewrite Hcount, Hlen.
  - intros Hr. destruct (step_progress n c Hn Hr) as (c' & Hs' & _). by exists c'.
  - intros c'. apply step_weight.
  - intros Hc. destruct (pool_returns n c Hn) as (c' & Hrun & Hr & Hc').
    exists c'. split; [|split; [done | congruence]].
    unfold reachable in *. by etrans.
Qed.

(** ** Duplicates in an explicit list *)

Lemma valid_projects_filter os (projectsList : string) (w : World) :
  ∃ universe : list string, valid_projects os projectsList w
              = filter (λ p, p ∈ universe) (requested_names projectsList)
              ∨ valid_projects os projectsList w = [].
Proof.
  unfold valid_projects, GetProjectsFromList. monad_unfold.
  destruct (GetProjects os "" "" true w) as [[u [e|]] w']; simpl.
  - exists (@nil string). by right.
  - exists (slice u). left. by rewrite projects_from_list_filter.
Qed.

(** C2, as the code has it.  [GetProjectsFromList] removes no duplicate:
    its valid names are the requested names that the universe contains,
    as often as they are requested, so they are free of duplicates when
    the requested names are.  The pool hands out the entries of its
    project list one by one: what has left the feeder is, up to order,
    the part of the list already sent, so no project is dispatched twice
    when the list has no duplicate. *)
Theorem C2_no_duplicate_unless_requested_twice :
  (∀ os (projectsList : string) (w : World),
     NoDup (requested_names projectsList) → NoDup (valid_projects os projectsList w))
  ∧ (∀ (projects : list string) (n : nat) (st : Stats) (c : Pool),
       reachable projects n st c →
       ∃ sent, projects = sent ++ to_send c ∧ dispatched c ≡ₚ sent)
  ∧ (∀ (projects : list string) (n : nat) (st : Stats) (c : Pool),
       reachable projects n st c → NoDup projects → NoDup (dispatched c)).
Proof.
  split; [|split].
  - intros os projectsList w Hnd.
    destruct (valid_projects_filter os projectsList w) as (u & [-> | ->]).
    + by apply NoDup_filter.
    + constructor.
  - intros projects n st c Hreach. apply (inv_feeder _ _ _ _ (reachable_invariant _ _ _ _ Hreach)).
  - intros projects n st c Hreach Hnd.
    destruct (inv_feeder _ _ _ _ (reachable_invariant _ _ _ _ Hreach)) as (sent & Hp & Hd).
    rewrite Hd. rewrite Hp in Hnd. by apply NoDup_app in Hnd as (? & _).
Qed.

(** C2 as the specification words it fails when a name is requested
    twice: the list app1,app1 is returned with app1 twice among the valid
    names, and a pool over that list has two jobs for app1 in its queue. *)
Lemma C2_duplicate_request_dispatched_twice :
  ¬ NoDup (valid_projects os_fine "app1,app1" initial)
  ∧ ∃ c, reachable (valid_projects os_fine "app1,app1" initial) 1
           (fresh_stats (valid_projects os_fine "app1,app1" initial)) c
         ∧ projectCh c = ["app1"; "app1"].
Proof.
  assert (valid_projects os_fine "app1,app1" initial = ["app1"; "app1"]) as -> by reflexivity.
  split.
  - intros H. apply NoDup_cons in H as [H _]. apply H. left.
  - eexists. split.
    + unfold reachable, start.
      eapply rtc_l; [apply FeederSend; unfold capacity; simpl; lia|].
      eapply rtc_l; [apply FeederSend; unfold capacity; simpl; lia|].
      apply rtc_refl.
    + reflexivity.
Qed.

(** ** The exit status *)

Lemma exit_code_cases os co (f : Flags) (final : Pool) (w : World) :
  exit_code os co f final w =
  match (PersistentPreRun co f).2 with
  | Exit code => code
  | Return =>
      match selection os co f w with
      | Fatal _ => 1
      | NothingToDo => post_run_code co f
      | Selected _ => if 0 <? failed (stats final) then 1 else post_run_code co f
      end
  end.
Proof.
  unfold exit_code, main, selection, post_run_code, Run. monad_unfold.
  destruct (PersistentPreRun co f) as [log [code|]]; simpl; [done|].
  destruct (select_projects os co f w) as [[msg| |projects] w']; simpl; try done.
  - by destruct (PersistentPostRun co f) as [log' [code|]].
  - unfold after_pool. simpl. destruct (0 <? failed (stats final)); simpl; [done|].
    by destruct (PersistentPostRun co f) as [log' [code|]].
Qed.

Lemma failures_of_results (rs : list Result) :
  (Forall (λ r, Error r = None) rs → failures (input_of <$> rs) = 0)
  ∧ ((∃ r, r ∈ rs ∧ is_Some (Error r)) → 0 < failures (input_of <$> rs)).
Proof.
  induction rs as [|r rs [IH1 IH2]]; split.
  - done.
  - intros (r & Hr & _). inversion Hr.
  - intros [Hr Hrs]%Forall_cons. rewrite fmap_cons, failures_cons. unfold succeeded. simpl.
    rewrite bool_decide_eq_true_2 by done. rewrite IH1 by done. done.
  - intros (r' & Hin & Herr). rewrite fmap_cons, failures_cons. unfold succeeded. simpl.
    destruct (counts_nonneg (input_of <$> rs)) as (_ & Hf & _).
    apply elem_of_cons in Hin as [->|Hin].
    + rewrite bool_decide_eq_false_2; [lia|]. destruct Herr as [e He]. congruence.
    + assert (0 < failures (input_of <$> rs)) by (apply IH2; eauto).
      destruct (bool_decide (Error r = None)); lia.
Qed.

Lemma failed_of_results (projects : list string) (n : nat) (c : Pool) :
  Z.of_nat (List.length projects) < 2 ^ 31 →
  reachable projects n (fresh_stats projects) c →
  failed (stats c) = failures (input_of <$> results c).
Proof.
  intros HM Hreach. pose proof (reachable_invariant _ _ _ _ Hreach) as Hinv.
  pose proof (results_bounded _ _ _ _ Hinv) as Hle.
  rewrite (inv_stats _ _ _ _ Hinv).
  destruct (record_all_counts (input_of <$> results c) (fresh_stats projects))
    as (_ & ->); [done | done | simpl; rewrite length_fmap; lia |].
  simpl. lia.
Qed.

Lemma run_log_after_pool os co (f : Flags) (final : Pool) (w : World)
    (projects : list string) (entry : LogEntry) :
  (PersistentPreRun co f).2 = Return →
  selection os co f w = Selected projects →
  entry ∈ (after_pool co f (results final) (stats final)).1 →
  entry ∈ run_log os co f final w.
Proof.
  unfold run_log, main, Run, selection. monad_unfold. intros Hpre Hsel.
  destruct (PersistentPreRun co f) as [log [code|]]; simpl in Hpre; [done|].
  destruct (select_projects os co f w) as [sel w']; simpl in Hsel. subst sel.
  cbn [fst snd]. generalize (after_pool co f (results final) (stats final)).
  intros [lg [code|]] Hin; cbn [fst snd] in *.
  - apply elem_of_app. by right.
  - destruct (PersistentPostRun co f) as [log' [code|]]; cbn [fst snd];
      apply elem_of_app; right; apply elem_of_app; by left.
Qed.

Lemma after_pool_log co (f : Flags) (rs : list Result) (st : Stats) :
  (emailEnabled f = true → ParseEmailList (toEmails f) ≠ [] →
   ∀ e, SendHTMLReport co rs = Some e →
        Printf ("Error sending email report: " +:+ e) ∈ (after_pool co f rs st).1)
  ∧ (githubEnabled f = true → githubToken f ≠ "" →
     (∀ e, CreateIssues co rs = Some e →
           Printf ("Error creating GitHub issues: " +:+ e) ∈ (after_pool co f rs st).1)
     ∧ (∀ e, CreateCommitStatus co rs = Some e →
             Printf ("Error creating GitHub commit status: " +:+ e)
             ∈ (after_pool co f rs st).1)).
Proof.
  unfold after_pool. cbn [fst]. split.
  - intros Hen Hto e He. rewrite Hen, He.
    assert (toEmails f ≠ "") as Hne.
    { intros E. apply Hto. by rewrite E. }
    apply is_empty_false in Hne. rewrite Hne. cbn [negb andb].
    destruct (ParseEmailList (toEmails f)) as [|a l] eqn:El; [done|]. cbn.
    right. left.
  - intros Hen Htok%is_empty_false. rewrite Hen, Htok. cbn [negb andb].
    split; intros e He; rewrite He; right; apply elem_of_app; right.
    + cbn. left.
    + apply elem_of_app. right. cbn. left.
Qed.

(** C10, as the code has it.  If the CPU profile asked for cannot be
    started, or the selection of the projects ends in a fatal error, the
    process exits with status 1.  Once the pool has returned, the process
    exits with status 1 if some job failed; if every job succeeded it
    exits with the status of the post-run hook: 0, unless a memory profile
    was asked for and could not be written.  The notifiers have no part
    in the status: with any other notifiers it is the same; and the error
    a notifier that is switched on returns is logged. *)
Theorem C10_exit_status os co (f : Flags) (final : Pool) (w : World) :
  (∀ code, (PersistentPreRun co f).2 = Exit code →
     code = 1 ∧ exit_code os co f final w = 1)
  ∧ ((PersistentPreRun co f).2 = Return →
     (∀ msg, selection os co f w = Fatal msg → exit_code os co f final w = 1)
     ∧ (∀ projects,
          selection os co f w = Selected projects →
          Z.of_nat (List.length projects) < 2 ^ 31 →
          pool_returned co f projects final →
          (some_failed final → exit_code os co f final w = 1)
          ∧ (all_succeeded final →
             (¬ memory_profile_fails co f → exit_code os co f final w = 0)
             ∧ (memory_profile_fails co f → exit_code os co f final w = 1))
          ∧ (emailEnabled f = true → ParseEmailList (toEmails f) ≠ [] →
             ∀ e, SendHTMLReport co (results final) = Some e →
                  Printf ("Error sending email report: " +:+ e) ∈ run_log os co f final w)
          ∧ (githubEnabled f = true → githubToken f ≠ "" →
             (∀ e, CreateIssues co (results final) = Some e →
                   Printf ("Error creating GitHub issues: " +:+ e) ∈ run_log os co f final w)
             ∧ (∀ e, CreateCommitStatus co (results final) = Some e →
                     Printf ("Error creating GitHub commit status: " +:+ e)
                     ∈ run_log os co f final w))))
  ∧ (∀ send issues status,
       exit_code os (with_notifiers co send issues status) f final w
       = exit_code os co f final w).
Proof.
  split; [|split].
  - intros code Hpre. rewrite exit_code_cases, Hpre.
    assert (code = 1) as ->; [|done].
    unfold PersistentPreRun in Hpre.
    destruct (negb (is_empty (cpuProfile f))); [|discriminate].
    destruct (cpu_create_error co); [simpl in Hpre; congruence|].
    destruct (cpu_start_error co); simpl in Hpre; congruence.
  - intros Hpre. split.
    + intros msg Hsel. by rewrite exit_code_cases, Hpre, Hsel.
    + intros projects Hsel HM [Hreach Hret].
      pose proof (failed_of_results _ _ _ HM Hreach) as Hfailed.
      destruct (failures_of_results (results final)) as [Hok Hbad].
      split; [|split; [|split]].
      * intros Hsome. rewrite exit_code_cases, Hpre, Hsel, Hfailed.
        apply Hbad in Hsome. by destruct (Z.ltb_spec 0 (failures (input_of <$> results final))); [|lia].
      * intros Hall. rewrite exit_code_cases, Hpre, Hsel, Hfailed, (Hok Hall). simpl.
        unfold post_run_code, PersistentPostRun, memory_profile_fails. split.
        -- intros Hno. destruct (is_empty (memProfile f)) eqn:Em; [done|].
           apply is_empty_false in Em. simpl.
           destruct (mem_create_error co) as [e|] eqn:E1.
           { exfalso. apply Hno. split; [done|]. left. eauto. }
           destruct (mem_write_error co) as [e|] eqn:E2; [|done].
           exfalso. apply Hno. split; [done|]. right. eauto.
        -- intros [Hm%is_empty_false [[e He]|[e He]]]; rewrite Hm; simpl.
           ++ by rewrite He.
           ++ rewrite He. by destruct (mem_create_error co).
      * intros Hen Hto e He. apply (run_log_after_pool _ _ _ _ _ projects); [done..|].
        by apply after_pool_log.
      * intros Hen Htok.
        destruct (after_pool_log co f (results final) (stats final)) as [_ Hgh].
        destruct (Hgh Hen Htok) as [H1 H2].
        split; intros e He; apply (run_log_after_pool _ _ _ _ _ projects); auto.
  - intros send issues status. rewrite !exit_code_cases. done.
Qed.

(* ===================================================================== *)
(** * The statements at sample inputs                                    *)
(* ===================================================================== *)

Lemma pool_app1_done_reachable :
  reachable ["app1"] 1 (fresh_stats ["app1"]) pool_app1_done.
Proof.
  unfold reachable, start, pool_app1_done. simpl replicate.
  eapply rtc_l; [apply FeederSend; unfold capacity; simpl; lia|].
  eapply rtc_l; [apply FeederFinish|].
  eapply rtc_l; [by apply (WorkerTake 1 0)|].
  eapply rtc_l; [apply (WorkerScanned 1 0 "app1" (plain_result "app1"));
                 [done | apply plain_result_outcome]|].
  eapply rtc_l; [apply (WorkerSend 1 0 (plain_result "app1"));
                 [done | unfold capacity; simpl; lia]|].
  eapply rtc_l; [apply Collect|].
  eapply rtc_l; [by apply (WorkerClosed 1 0)|].
  eapply rtc_l; [by apply CloseResults|].
  eapply rtc_l; [apply CollectorReturn|].
  apply rtc_refl.
Qed.

Lemma C1_witness :
  ∃ changed w',
    GetChangedProjectsUsingGraph os_fine json_app1 "main" "HEAD" initial
    = ((Some changed, None), w')
    ∧ ("app1" ∈ changed ↔ touches ["apps/app1/src/x.ts"] app1).
Proof.
  destruct (proj1 C1_affected_iff_changed_file_under_root
              os_fine json_app1 "main" "HEAD" initial _ _
              ["apps/app1/src/x.ts"] (Some {["app1" := app1]}) eq_refl (λ _, eq_refl))
    as (changed & w' & Hrun & _ & Hnode).
  exists changed, w'. split; [exact Hrun|].
  apply (Hnode "app1" app1); [reflexivity|].
  intros key' node' Hl _. simpl in Hl.
  apply lookup_singleton_Some in Hl as [_ <-]. reflexivity.
Defined.

Lemma C3_witness :
  ∃ w', ShouldSkipProject os_fine json_app1 "app2" "main" "HEAD" false initial
        = ((true, None), w').
Proof.
  destruct (C3_should_skip_policy os_fine json_app1 "app2" "main" "HEAD" false initial)
    as (_ & _ & H).
  assert (¬ ("main" = "" ∧ "HEAD" = "")) as Hne by (intros [E _]; discriminate E).
  destruct (H eq_refl Hne (Some ["app1"]) None _ eq_refl) as (skip & Hrun & _ & Hskip).
  eexists. rewrite Hrun. f_equal. f_equal. apply Hskip; [reflexivity|].
  simpl. intros Hin. apply list_elem_of_singleton in Hin. discriminate.
Defined.

Lemma C4_witness :
  let w1 := (GetChangedFiles os_broken "main" "HEAD" initial).2 in
  is_Some (GetChangedFiles os_broken "main" "HEAD" initial).1.2
  ∧ GetChangedFiles os_broken "main" "HEAD" w1 = ((Some [], None), w1)
  ∧ GetChangedProjectsUsingGraph os_broken json_app1 "main" "HEAD" w1 = ((Some [], None), w1).
Proof.
  intros w1. split; [by eexists|].
  destruct (C4_failure_reported_once os_broken json_app1 [] []) as [H _].
  exact (H "main" "HEAD" _ _ _ eq_refl "main" "HEAD").
Defined.

Lemma C5_witness :
  let first := GetProjectGraph os_old_nx json_app1 initial in
  let second := GetProjectGraph os_old_nx json_app1 first.2 in
  projectGraphOnce initial = false
  ∧ second = ((projectGraphCache first.2, None), first.2)
  ∧ queries "graph" (new_calls initial second.2) = 1%nat
  ∧ queries "dep-graph" (new_calls initial second.2) = 1%nat.
Proof.
  intros first second. split; [reflexivity|].
  destruct (C5_graph_queried_at_most_once os_old_nx json_app1 initial eq_refl)
    as (H1 & H2 & H3 & _).
  split; [exact H1|]. split; [exact H2 | exact H3].
Defined.

(** C5 as the specification words it fails when the temporary file
    cannot be created: two calls in a row run the graph query not once
    but never. *)
Lemma C5_no_temporary_file_no_query :
  let first := GetProjectGraph os_no_temp json_app1 initial in
  let second := GetProjectGraph os_no_temp json_app1 first.2 in
  queries "graph" (new_calls initial second.2) ≠ 1%nat.
Proof. intros first second. vm_compute. discriminate. Qed.

Lemma C6_witness :
  ∃ w', GetProjectsFromList os_fine "app1, app2,,ghost" initial
        = ((Some ["app1"; "app2"], Some ["ghost"], None), w').
Proof.
  eexists.
  rewrite (proj1 C6_explicit_list_partition os_fine "app1, app2,,ghost" initial _
             (Some ["app1"; "app2"]) eq_refl).
  reflexivity.
Defined.

Lemma C7_witness :
  (1 ≤ 1)%nat
  ∧ Z.of_nat (List.length ["app1"]) < 2 ^ 31
  ∧ reachable ["app1"] 1 (fresh_stats ["app1"]) pool_app1_done
  ∧ successful (stats pool_app1_done) + failed (stats pool_app1_done) = 1
  ∧ Project <$> results pool_app1_done ≡ₚ ["app1"].
Proof.
  assert (Z.of_nat (List.length ["app1"]) < 2 ^ 31) as HM by reflexivity.
  split; [lia|]. split; [exact HM|]. split; [exact pool_app1_done_reachable|].
  destruct (C7_collected_results_counted ["app1"] 1 pool_app1_done
              (le_n 1) HM pool_app1_done_reachable) as (_ & _ & _ & H & _).
  destruct (H eq_refl eq_refl) as (_ & Hperm & _ & Hcount).
  split; [exact Hcount | exact Hperm].
Defined.

Lemma five_scans_in_range : in_range five_scans.
Proof.
  split; [|split; [|split]]; try reflexivity.
  unfold five_scans. repeat constructor; simpl; discriminate.
Qed.

Lemma C8_witness :
  five_scans ≠ [] ∧ in_range five_scans
  ∧ minDuration (record_all five_scans (initialize 5 zero_Stats))
    ≤ avgDuration (record_all five_scans (initialize 5 zero_Stats))
    ≤ maxDuration (record_all five_scans (initialize 5 zero_Stats)).
Proof.
  assert (five_scans ≠ []) as Hne by discriminate.
  split; [exact Hne|]. split; [exact five_scans_in_range|].
  exact (proj1 (proj2 (proj1 C8_min_avg_max 5 five_scans Hne five_scans_in_range))).
Defined.

Lemma C9_witness :
  in_range five_scans
  ∧ totalDuration (record_all five_scans (initialize 5 zero_Stats)) = 15 * Second.
Proof.
  split; [exact five_scans_in_range|].
  destruct (proj1 (proj2 C9_stats_against_reference) 5 five_scans five_scans_in_range)
    as (_ & _ & H & _).
  exact H.
Defined.

Lemma C2_witness :
  NoDup (requested_names "app1, app2")
  ∧ NoDup (valid_projects os_fine "app1, app2" initial).
Proof.
  assert (NoDup (requested_names "app1, app2")) as Hnd.
  { change (requested_names "app1, app2") with ["app1"; "app2"].
    apply NoDup_cons. split.
    - intros Hin. apply list_elem_of_singleton in Hin. discriminate.
    - apply NoDup_singleton. }
  split; [exact Hnd|].
  exact (proj1 C2_no_duplicate_unless_requested_twice os_fine "app1, app2" initial Hnd).
Defined.

Lemma pool_app1_done_returned : pool_returned co_fine flags_app1 ["app1"] pool_app1_done.
Proof. split; [exact pool_app1_done_reachable | reflexivity]. Qed.

Lemma C10_witness :
  (PersistentPreRun co_fine flags_app1).2 = Return
  ∧ selection os_fine co_fine flags_app1 initial = Selected ["app1"]
  ∧ all_succeeded pool_app1_done
  ∧ exit_code os_fine co_fine flags_app1 pool_app1_done initial = 0.
Proof.
  assert (all_succeeded pool_app1_done) as Hall by (repeat constructor).
  split; [reflexivity|]. split; [reflexivity|]. split; [exact Hall|].
  destruct (C10_exit_status os_fine co_fine flags_app1 pool_app1_done initial)
    as (_ & H & _).
  destruct (H eq_refl) as (_ & Hsel).
  destruct (Hsel ["app1"] eq_refl eq_refl pool_app1_done_returned) as (_ & Hok & _).
  destruct (Hok Hall) as [H0 _]. apply H0. intros [Hm _]. apply Hm. reflexivity.
Defined.

(** C10 as the specification words it fails when the memory profile
    asked for cannot be written: the one job of the run succeeded, and the
    process exits with status 1. *)
Lemma C10_memory_profile_failure_exits_1 :
  selection os_fine co_no_memprofile flags_app1_memprofile initial = Selected ["app1"]
  ∧ pool_returned co_no_memprofile flags_app1_memprofile ["app1"] pool_app1_done
  ∧ all_succeeded pool_app1_done
  ∧ exit_code os_fine co_no_memprofile flags_app1_memprofile pool_app1_done initial = 1
  ∧ exit_code os_fine co_no_memprofile flags_app1_memprofile pool_app1_done initial ≠ 0.
Proof.
  split; [reflexivity|].
  split; [split; [exact pool_app1_done_reachable | reflexivity]|].
  split; [repeat constructor|]. split; [reflexivity|]. vm_compute. discriminate.
Qed.

(* ===================================================================== *)
(** * Further properties of the code                                     *)
(* ===================================================================== *)

(** ** Package nx: the memoised diff *)

Lemma GetChangedFiles_result os (base head : string) (w : World) :
  let r := GetChangedFiles os base head w in
  changedFilesOnce r.2 = true
  ∧ (r.1.2 = None → r.1.1 = Some (slice (changedFilesCache r.2))).
Proof.
  unfold GetChangedFiles, changedFiles_body, call. monad_unfold.
  destruct (changedFilesOnce w) eqn:E; branches.
Qed.

Lemma changedFiles_part_forever os json (ops : list Op) (w : World) :
  changedFilesOnce w = true →
  changedFiles_part (perform_all os json ops w) = changedFiles_part w.
Proof.
  intros Hw.
  pose (P := λ w', changedFilesOnce w' = true ∧ changedFiles_part w' = changedFiles_part w).
  assert (P (perform_all os json ops w)) as [_ H]; [|done].
  apply (perform_all_keeps os json P); [|done].
  apply (perform_keeps os json P); unfold P.
  - intros base head w0 [H1 H2]. by rewrite GetChangedFiles_cached.
  - intros w0 [H1 H2]. pose proof (GetProjectGraph_frame os json w0) as Hf.
    destruct (part_eq_changedFiles _ _ Hf) as [-> _]. split; [done | congruence].
  - intros base head all w0 [H1 H2].
    pose proof (proj1 (GetProjects_frame os base head all w0)) as Hf.
    destruct (part_eq_changedFiles _ _ Hf) as [-> _]. split; [done | congruence].
Qed.

(** X1. The diff is computed once per process, whatever is asked later:
    after a call of [GetChangedFiles] that succeeded, every later call,
    with any base and head and after any other calls to the package,
    returns the same list and leaves the world (the history of external
    calls included) as it is. *)
Theorem X1_changed_files_answer_is_kept os json (base head base' head' : string)
    (w w1 : World) (files : list string) (ops : list Op) :
  GetChangedFiles os base head w = ((Some files, None), w1) →
  let w2 := perform_all os json ops w1 in
  GetChangedFiles os base' head' w2 = ((Some files, None), w2).
Proof.
  intros Hrun w2.
  destruct (GetChangedFiles_result os base head w) as [Honce Hres].
  rewrite Hrun in Honce, Hres. simpl in Honce, Hres.
  specialize (Hres eq_refl). injection Hres as Hfiles.
  pose proof (changedFiles_part_forever os json ops w1 Honce) as Hpart. fold w2 in Hpart.
  destruct (part_eq_changedFiles _ _ Hpart) as [Ho Hc].
  rewrite GetChangedFiles_cached by congruence. by rewrite Hc, <- Hfiles.
Qed.

Lemma X1_witness :
  ∃ w2, GetChangedFiles os_fine "other" "refs" (perform_all os_fine json_app1
          [CallGetProjectGraph; CallGetProjects "" "" true]
          (GetChangedFiles os_fine "main" "HEAD" initial).2)
        = ((Some ["apps/app1/src/x.ts"], None), w2).
Proof.
  eexists.
  exact (X1_changed_files_answer_is_kept os_fine json_app1 "main" "HEAD" "other" "refs"
           initial _ ["apps/app1/src/x.ts"]
           [CallGetProjectGraph; CallGetProjects "" "" true] eq_refl).
Defined.

(** ** Package nx: the shape of the diff *)

Lemma ReplaceAll_no_old (s : string) (old new : ascii) :
  old ≠ new → Contains (ReplaceAll s old new) old = false.
Proof.
  intros Hne. induction s as [|c s IH]; [done|]. simpl.
  destruct (Ascii.eqb_spec c old) as [->|Hc].
  - rewrite IH, orb_false_r. apply Ascii.eqb_neq. congruence.
  - rewrite IH, orb_false_r. by apply Ascii.eqb_neq.
Qed.

Lemma ReplaceAll_empty (s : string) (old new : ascii) :
  ReplaceAll s old new = "" → s = "".
Proof. by destruct s. Qed.

Lemma collect_lines_normal (lines acc : list string) :
  Forall normal_path acc → Forall normal_path (collect_lines lines acc).
Proof.
  revert acc. induction lines as [|line lines IH]; intros acc Hacc; [done|].
  simpl. destruct (is_empty (TrimSpace line)) eqn:E; simpl; [by apply IH|].
  apply IH. apply Forall_app. split; [done|]. apply Forall_singleton. split.
  - intros H%ReplaceAll_empty. apply is_empty_false in E. done.
  - apply ReplaceAll_no_old. discriminate.
Qed.

Lemma changedFilesCache_normal os json (ops : list Op) :
  Forall normal_path (slice (changedFilesCache (perform_all os json ops initial))).
Proof.
  pose (P := λ w, Forall normal_path (slice (changedFilesCache w))).
  apply (perform_all_keeps os json P); [|by constructor].
  apply (perform_keeps os json P); unfold P.
  - intros base head w Hw. unfold GetChangedFiles, changedFiles_body, call. monad_unfold.
    branches; try by constructor. by apply collect_lines_normal.
  - intros w Hw. pose proof (GetProjectGraph_frame os json w) as Hf.
    destruct (part_eq_changedFiles _ _ Hf) as [_ ->]. done.
  - intros base head all w Hw.
    pose proof (proj1 (GetProjects_frame os base head all w)) as Hf.
    destruct (part_eq_changedFiles _ _ Hf) as [_ ->]. done.
Qed.

(** X2. Whatever the process has done before, the paths
    [GetChangedFiles] returns are normalised: none is empty and none
    contains a backslash. *)
Theorem X2_changed_files_are_normalised os json (ops : list Op) (base head : string)
    (files : list string) :
  (GetChangedFiles os base head (perform_all os json ops initial)).1.1 = Some files →
  Forall normal_path files.
Proof.
  intros Hres.
  destruct (GetChangedFiles_result os base head (perform_all os json ops initial))
    as [_ Hshape].
  destruct ((GetChangedFiles os base head (perform_all os json ops initial)).1.2)
    as [e|] eqn:Ee.
  - exfalso. revert Hres Ee. unfold GetChangedFiles. monad_unfold.
    branches; intros; simplify_eq.
  - rewrite Hshape in Hres by done. injection Hres as <-.
    change (GetChangedFiles os base head (perform_all os json ops initial)).2
      with (perform os json (CallGetChangedFiles base head) (perform_all os json ops initial)).
    replace (perform os json (CallGetChangedFiles base head) (perform_all os json ops initial))
      with (perform_all os json (ops ++ [CallGetChangedFiles base head]) initial)
      by (unfold perform_all; by rewrite foldl_app).
    apply changedFilesCache_normal.
Qed.

Lemma X2_witness :
  (GetChangedFiles os_windows "main" "HEAD" initial).1.1 = Some ["apps/app1/x.ts"]
  ∧ Forall normal_path ["apps/app1/x.ts"].
Proof.
  split; [reflexivity|].
  exact (X2_changed_files_are_normalised os_windows json_app1 [] "main" "HEAD"
           ["apps/app1/x.ts"] eq_refl).
Defined.

(** ** Package nx: the list of affected projects *)

Lemma touches_mono (files files' : list string) (node : ProjectNode) :
  files ⊆ files' → touches files node → touches files' node.
Proof. intros Hsub (f & Hf & H). exists f. split; [by apply Hsub | done]. Qed.

(** X3. The list of affected projects names every project once, however
    many of its files changed and however many nodes carry its name; and
    more changed files never make a project unaffected. *)
Theorem X3_affected_projects_listed_once :
  (∀ (changedFiles : list string) (projectGraph : gmap string ProjectNode),
     NoDup (changed_projects changedFiles projectGraph))
  ∧ (∀ os json (base head : string) (w : World),
       NoDup (slice (GetChangedProjectsUsingGraph os json base head w).1.1))
  ∧ (∀ (changedFiles changedFiles' : list string) (projectGraph : gmap string ProjectNode),
       changedFiles ⊆ changedFiles' →
       changed_projects changedFiles projectGraph
       ⊆ changed_projects changedFiles' projectGraph).
Proof.
  assert (∀ changedFiles projectGraph, NoDup (changed_projects changedFiles projectGraph)) as Hnd.
  { intros changedFiles projectGraph. unfold changed_projects. apply NoDup_fst_map_to_list. }
  split; [done|]. split.
  - intros os json base head w. unfold GetChangedProjectsUsingGraph. monad_unfold.
    destruct (GetChangedFiles os base head w) as [[cf [e|]] w1]; simpl; [constructor|].
    destruct (List.length (slice cf) =? 0)%nat; simpl; [constructor|].
    destruct (GetProjectGraph os json w1) as [[pg [e|]] w2]; simpl; [constructor|].
    apply Hnd.
  - intros changedFiles changedFiles' projectGraph Hsub n.
    rewrite !changed_projects_elem. intros (key & node & Hl & Hn & Ht).
    exists key, node. split; [done|]. split; [done|]. by eapply touches_mono.
Qed.

Lemma X3_witness :
  ["apps/app1/a.ts"] ⊆ ["apps/app1/a.ts"; "apps/app1/b.ts"]
  ∧ changed_projects ["apps/app1/a.ts"; "apps/app1/b.ts"] graph_twice = ["app1"].
Proof.
  assert (["apps/app1/a.ts"] ⊆ ["apps/app1/a.ts"; "apps/app1/b.ts"]) as Hsub.
  { intros x Hx. apply list_elem_of_singleton in Hx as ->. left. }
  split; [exact Hsub|].
  pose proof (proj2 (proj2 X3_affected_projects_listed_once) _ _ graph_twice Hsub) as H.
  assert ("app1" ∈ changed_projects ["apps/app1/a.ts"; "apps/app1/b.ts"] graph_twice) as Hin.
  { apply H. vm_compute. left. }
  vm_compute. reflexivity.
Defined.

(** ** Package nx: skipping after a failed diff *)

Lemma failed_diff_spent os json (before : list Op) (base head : string)
    (r : option (list string)) (e : error) (w1 : World) :
  GetChangedFiles os base head (perform_all os json before initial) = ((r, Some e), w1) →
  changedFiles_spent w1.
Proof.
  intros Hrun. pose proof (consistent_forever os json before) as [Hc _].
  destruct (changedFilesOnce (perform_all os json before initial)) eqn:E.
  { rewrite GetChangedFiles_cached in Hrun by done. discriminate. }
  pose proof (GetChangedFiles_first os base head _ E) as (H1 & H2 & _).
  rewrite Hrun in H1, H2. simpl in *. split; [done|]. rewrite H2 by eauto. auto.
Qed.

(** X4. Failing open does not outlast the first failure.  Once a call of
    [GetChangedFiles] has failed, [ShouldSkipProject] answers true (skip
    the scan) with a nil error for every project and every base and head
    that are not both empty, unless [forceAll] is set: the spent guard
    makes the diff look empty. *)
Theorem X4_skip_everything_after_failed_diff os json (before after : list Op)
    (base head : string) (r : option (list string)) (e : error) (w1 : World)
    (projectName base' head' : string) :
  GetChangedFiles os base head (perform_all os json before initial) = ((r, Some e), w1) →
  ¬ (base' = "" ∧ head' = "") →
  let w2 := perform_all os json after w1 in
  ShouldSkipProject os json projectName base' head' false w2 = ((true, None), w2).
Proof.
  intros Hrun Hne w2.
  pose proof (failed_diff_spent os json before base head r e w1 Hrun) as Hs.
  apply (changedFiles_spent_forever os json after) in Hs. fold w2 in Hs.
  destruct Hs as [Ho Hn].
  unfold ShouldSkipProject.
  destruct (is_empty base' && is_empty head') eqn:E.
  { apply andb_true_iff in E as [E1%is_empty_true E2%is_empty_true]. tauto. }
  unfold GetChangedProjectsUsingGraph. monad_unfold.
  rewrite GetChangedFiles_cached by done. by rewrite Hn.
Qed.

Lemma X4_witness :
  let w1 := (GetChangedFiles os_broken "main" "HEAD" initial).2 in
  ShouldSkipProject os_broken json_app1 "app1" "main" "HEAD" false w1 = ((true, None), w1).
Proof.
  intros w1.
  assert (¬ ("main" = "" ∧ "HEAD" = "")) as Hne by (intros [E _]; discriminate E).
  exact (X4_skip_everything_after_failed_diff os_broken json_app1 [] [] "main" "HEAD"
           _ _ _ "app1" "main" "HEAD" eq_refl Hne).
Defined.

(** ** Package nx: the project inventory *)

Lemma GetChangedFiles_keeps_inventory os (base head : string) (w : World) :
  allProjects_part (GetChangedFiles os base head w).2 = allProjects_part w.
Proof. unfold GetChangedFiles, changedFiles_body, call. monad_unfold. branches. Qed.

Lemma GetProjectGraph_keeps_inventory os json (w : World) :
  allProjects_part (GetProjectGraph os json w).2 = allProjects_part w.
Proof.
  unfold GetProjectGraph, projectGraph_body, projectGraph_query, call.
  monad_unfold. branches.
Qed.

Lemma GetProjects_loaded os (base head : string) (w : World) :
  allProjectsLoaded w = true →
  GetProjects os base head true w = ((allProjectsCache w, None), w).
Proof. intros H. unfold GetProjects. monad_unfold. by rewrite H. Qed.

Lemma GetProjects_affected_keeps_inventory os (base head : string) (w : World) :
  allProjects_part (GetProjects os base head false w).2 = allProjects_part w.
Proof. unfold GetProjects, call. monad_unfold. branches. Qed.

Lemma inventory_forever os json (ops : list Op) (w : World) :
  allProjectsLoaded w = true →
  allProjects_part (perform_all os json ops w) = allProjects_part w.
Proof.
  intros Hw.
  pose (P := λ w', allProjects_part w' = allProjects_part w).
  apply (perform_all_keeps os json P); [|done].
  apply (perform_keeps os json P); unfold P.
  - intros base head w0 H. by rewrite GetChangedFiles_keeps_inventory.
  - intros w0 H. by rewrite GetProjectGraph_keeps_inventory.
  - intros base head [] w0 H.
    + rewrite GetProjects_loaded; [done|].
      unfold allProjects_part in H. injection H as H1 H2. congruence.
    + by rewrite GetProjects_affected_keeps_inventory.
Qed.

Lemma GetProjects_asks os (base head : string) (w : World) :
  allProjectsLoaded w = false →
  let r := GetProjects os base head true w in
  new_calls w r.2 = [inventory_call]
  ∧ (is_Some r.1.2 → r.1.1 = None ∧ allProjectsLoaded r.2 = false).
Proof.
  intros Hl. unfold GetProjects, call, inventory_call, new_calls. monad_unfold.
  rewrite Hl. simpl.
  destruct ((os (trace w) (Exec "yarn" ["nx"; "show"; "projects"])).2) as [e0|] eqn:E;
    simpl; rewrite drop_app_length; (split; [done|]).
  - done.
  - intros [? ?]. done.
Qed.

(** X5. The inventory of all projects is cached on success only.  After
    a call of [GetProjects] for all projects that succeeded, every later
    such call, after any other calls to the package, returns the same list
    without consulting the outside world.  A call that fails caches
    nothing: it has run the inventory command once, and the next call runs
    it again.  A call for the affected projects always runs its command,
    and neither reads nor writes the cache. *)
Theorem X5_inventory_cached_on_success_only os json :
  (∀ (base head base' head' : string) (w w1 : World) (projects : list string) (ops : list Op),
     GetProjects os base head true w = ((Some projects, None), w1) →
     let w2 := perform_all os json ops w1 in
     GetProjects os base' head' true w2 = ((Some projects, None), w2))
  ∧ (∀ (base head base' head' : string) (w w1 : World) (r : option (list string)) (e : error),
       GetProjects os base head true w = ((r, Some e), w1) →
       r = None
       ∧ new_calls w w1 = [inventory_call]
       ∧ new_calls w1 (GetProjects os base' head' true w1).2 = [inventory_call])
  ∧ (∀ (base head : string) (w : World),
       new_calls w (GetProjects os base head false w).2 = [Exec "yarn" (affected_args base head)]
       ∧ allProjects_part (GetProjects os base head false w).2 = allProjects_part w).
Proof.
  split; [|split].
  - intros base head base' head' w w1 projects ops Hrun w2.
    assert (allProjectsLoaded w1 = true ∧ allProjectsCache w1 = Some projects) as [Hl Hc].
    { revert Hrun. unfold GetProjects, call. monad_unfold.
      destruct (allProjectsLoaded w) eqn:E; branches; intros; simplify_eq; done. }
    pose proof (inventory_forever os json ops w1 Hl) as Hpart. fold w2 in Hpart.
    unfold allProjects_part in Hpart. injection Hpart as H1 H2.
    rewrite GetProjects_loaded by congruence. by rewrite H2, Hc.
  - intros base head base' head' w w1 r e Hrun.
    assert (allProjectsLoaded w = false) as Hl.
    { destruct (allProjectsLoaded w) eqn:E; [|done].
      rewrite GetProjects_loaded in Hrun by done. discriminate. }
    destruct (GetProjects_asks os base head w Hl) as [Hcalls Herr].
    rewrite Hrun in Hcalls, Herr. simpl in Hcalls, Herr.
    destruct Herr as [-> Hl1]; [by eexists|].
    split; [done|]. split; [done|].
    by destruct (GetProjects_asks os base' head' w1 Hl1) as [H _].
  - intros base head w. split; [|apply GetProjects_affected_keeps_inventory].
    unfold GetProjects, call. monad_unfold. simpl.
    destruct ((os (trace w) (Exec "yarn" (affected_args base head))).2);
      unfold new_calls; simpl; by rewrite drop_app_length.
Qed.

Lemma X5_witness :
  let first := GetProjects os_flaky "" "" true initial in
  let second := GetProjects os_flaky "" "" true first.2 in
  let third := GetProjects os_flaky "" "" true second.2 in
  is_Some first.1.2
  ∧ second.1 = (Some ["app1"; "app2"], None)
  ∧ third = ((Some ["app1"; "app2"], None), second.2).
Proof.
  intros first second third.
  split; [by eexists|]. split; [reflexivity|].
  exact (proj1 (X5_inventory_cached_on_success_only os_flaky json_app1)
           "" "" "" "" first.2 second.2 ["app1"; "app2"] [] eq_refl).
Defined.

Lemma nonempty_lines_spec (rawProjects acc : list string) :
  nonempty_lines rawProjects acc = acc ++ filter (λ p, p ≠ "") rawProjects.
Proof.
  revert acc. induction rawProjects as [|p rest IH]; intros acc; simpl.
  - by rewrite app_nil_r.
  - destruct (is_empty p) eqn:E; simpl.
    + apply is_empty_true in E. rewrite IH, filter_cons_False; [done | by intros H].
    + apply is_empty_false in E. rewrite IH, filter_cons_True by done.
      by rewrite <- app_assoc.
Qed.

Lemma nonempty_lines_nonempty (rawProjects : list string) :
  Forall (λ p, p ≠ "") (nonempty_lines rawProjects []).
Proof.
  rewrite nonempty_lines_spec. simpl. apply Forall_forall.
  intros p Hp. by apply list_elem_of_filter in Hp as [Hp _].
Qed.

Lemma allProjectsCache_nonempty os json (ops : list Op) :
  Forall (λ p, p ≠ "") (slice (allProjectsCache (perform_all os json ops initial))).
Proof.
  pose (P := λ w, Forall (λ p : string, p ≠ "") (slice (allProjectsCache w))).
  apply (perform_all_keeps os json P); [|by constructor].
  apply (perform_keeps os json P); unfold P.
  - intros base head w Hw.
    pose proof (GetChangedFiles_keeps_inventory os base head w) as Hf.
    unfold allProjects_part in Hf. injection Hf as _ ->. done.
  - intros w Hw. pose proof (GetProjectGraph_keeps_inventory os json w) as Hf.
    unfold allProjects_part in Hf. injection Hf as _ ->. done.
  - intros base head all w Hw. unfold GetProjects, call. monad_unfold.
    branches. apply nonempty_lines_nonempty.
Qed.

(** X6. Whatever the process has done before, [GetProjects] returns no
    empty project name, in either mode; and when the tool prints nothing
    but white space the answer is the empty list with a nil error, not a
    list holding one empty name. *)
Theorem X6_no_empty_project_name os json (ops : list Op) (base head : string)
    (getAllProjects : bool) :
  let w := perform_all os json ops initial in
  let r := GetProjects os base head getAllProjects w in
  (∀ projects, r.1.1 = Some projects → Forall (λ p, p ≠ "") projects)
  ∧ (allProjectsLoaded w = false ∨ getAllProjects = false →
     let answer :=
       os (trace w) (if getAllProjects then inventory_call
                     else Exec "yarn" (affected_args base head)) in
     answer.2 = None → TrimSpace answer.1 = "" → r.1 = (Some [], None)).
Proof.
  intros w r. split.
  - intros projects Hres.
    pose proof (allProjectsCache_nonempty os json ops) as Hinv. fold w in Hinv.
    revert Hres. subst r. unfold GetProjects, call. monad_unfold.
    destruct getAllProjects.
    + destruct (allProjectsLoaded w) eqn:El; simpl.
      * intros Hc. by rewrite Hc in Hinv.
      * destruct ((os (trace w) (Exec "yarn" ["nx"; "show"; "projects"])).2);
          simpl; intros; simplify_eq. apply nonempty_lines_nonempty.
    + simpl. destruct ((os (trace w) (Exec "yarn" (affected_args base head))).2);
        simpl; intros; simplify_eq. apply nonempty_lines_nonempty.
  - intros Hfresh answer Hok Hblank. subst r. unfold GetProjects, call. monad_unfold.
    destruct getAllProjects.
    + destruct Hfresh as [Hl|?]; [|done]. rewrite Hl. simpl.
      fold inventory_call. fold answer. by rewrite Hok, Hblank.
    + simpl. fold answer. by rewrite Hok, Hblank.
Qed.

Lemma X6_witness :
  (GetProjects os_fine "" "" true initial).1.1 = Some ["app1"; "app2"]
  ∧ Forall (λ p : string, p ≠ "") ["app1"; "app2"].
Proof.
  split; [reflexivity|].
  exact (proj1 (X6_no_empty_project_name os_fine json_app1 [] "" "" true)
           ["app1"; "app2"] eq_refl).
Defined.

(** ** The worker pool: bounds *)

Lemma filter_running_le (ws : list Worker) :
  (List.length (List.filter is_running ws) ≤ List.length ws)%nat.
Proof. induction ws as [|w ws IH]; simpl; [lia|]. destruct (is_running w); simpl; lia. Qed.

(** X7. The pool keeps within its bounds at every moment of a run: the
    job queue and the result queue never hold more than twice the number
    of workers, the number of workers never changes, and so at most that
    many scans are in progress at once. *)
Theorem X7_pool_stays_within_bounds (projects : list string) (n : nat) (st : Stats)
    (c : Pool) :
  reachable projects n st c →
  (List.length (projectCh c) ≤ 2 * n)%nat
  ∧ (List.length (resultCh c) ≤ 2 * n)%nat
  ∧ List.length (workers c) = n
  ∧ (List.length (running c) ≤ n)%nat.
Proof.
  intros Hreach.
  assert ((List.length (projectCh c) ≤ 2 * n)%nat
          ∧ (List.length (resultCh c) ≤ 2 * n)%nat
          ∧ List.length (workers c) = n) as (H1 & H2 & H3).
  { revert c Hreach. unfold reachable. apply rtc_ind_r.
    - simpl. rewrite length_replicate. lia.
    - intros c1 c2 _ Hstep (H1 & H2 & H3).
      inversion Hstep; subst; simpl in *; unfold capacity in *;
        rewrite ?length_app, ?length_insert; simpl; lia. }
  repeat (split; [done|]). unfold running. rewrite <- H3. apply filter_running_le.
Qed.

Lemma pool_midway_reachable :
  reachable ["app1"; "app2"; "app3"] 1 (fresh_stats ["app1"; "app2"; "app3"]) pool_midway.
Proof.
  unfold reachable, start, pool_midway. simpl replicate.
  eapply rtc_l; [apply FeederSend; unfold capacity; simpl; lia|].
  eapply rtc_l; [by apply (WorkerTake 1 0)|].
  eapply rtc_l; [apply FeederSend; unfold capacity; simpl; lia|].
  eapply rtc_l; [apply FeederSend; unfold capacity; simpl; lia|].
  eapply rtc_l; [apply FeederFinish|].
  eapply rtc_l; [apply (WorkerScanned 1 0 "app1" (plain_result "app1"));
                 [done | apply plain_result_outcome]|].
  eapply rtc_l; [apply (WorkerSend 1 0 (plain_result "app1"));
                 [done | unfold capacity; simpl; lia]|].
  eapply rtc_l; [apply Collect|].
  eapply rtc_l; [by apply (WorkerTake 1 0)|].
  eapply rtc_l; [apply Deadline|].
  apply rtc_refl.
Qed.

Lemma pool_cut_short_reachable :
  reachable ["app1"; "app2"; "app3"] 1 (fresh_stats ["app1"; "app2"; "app3"]) pool_cut_short.
Proof.
  unfold reachable. etrans; [apply pool_midway_reachable|].
  unfold pool_midway, pool_cut_short.
  eapply rtc_l; [apply (WorkerScanned 1 0 "app2" (plain_result "app2"));
                 [done | apply plain_result_outcome]|].
  eapply rtc_l; [apply (WorkerSend 1 0 (plain_result "app2"));
                 [done | unfold capacity; simpl; lia]|].
  eapply rtc_l; [apply Collect|].
  eapply rtc_l; [by apply (WorkerCancelled 1 0)|].
  eapply rtc_l; [by apply CloseResults|].
  eapply rtc_l; [apply CollectorReturn|].
  apply rtc_refl.
Qed.

Lemma X7_witness :
  reachable ["app1"; "app2"; "app3"] 1 (fresh_stats ["app1"; "app2"; "app3"]) pool_midway
  ∧ (List.length (running pool_midway) ≤ 1)%nat.
Proof.
  split; [exact pool_midway_reachable|].
  exact (proj2 (proj2 (proj2 (X7_pool_stays_within_bounds _ _ _ _ pool_midway_reachable)))).
Defined.

(** ** The worker pool: nothing that was started is lost *)

(** X8. When the function has returned, with or without the deadline
    having passed, every project of the run is in exactly one of three
    places: among the collected results, still in the job queue, or never
    sent.  So a scan that a worker started is always collected, once, and
    what a deadline drops are only projects that no worker had taken. *)
Theorem X8_started_scans_are_collected (projects : list string) (n : nat) (st : Stats)
    (c : Pool) :
  reachable projects n st c →
  returned c = true →
  (Project <$> results c) ++ projectCh c ++ to_send c ≡ₚ projects
  ∧ (List.length (results c) ≤ List.length projects)%nat.
Proof.
  intros Hreach Hr. pose proof (reachable_invariant _ _ _ _ Hreach) as Hinv.
  pose proof (results_bounded _ _ _ _ Hinv) as Hle. split; [|done].
  destruct Hinv as [_ (sent & Hp & Hd) _ Hret Hcl _ _].
  destruct (Hret Hr) as [Hclosed Hrc]. pose proof (Hcl Hclosed) as Hall.
  unfold dispatched in Hd. rewrite Hrc, (all_exited_held _ Hall) in Hd. simpl in Hd.
  rewrite Hp, <- Hd. by rewrite <- !app_assoc.
Qed.

Lemma X8_witness :
  reachable ["app1"; "app2"; "app3"] 1 (fresh_stats ["app1"; "app2"; "app3"]) pool_cut_short
  ∧ returned pool_cut_short = true
  ∧ (Project <$> results pool_cut_short) ++ projectCh pool_cut_short
      ++ to_send pool_cut_short ≡ₚ ["app1"; "app2"; "app3"].
Proof.
  split; [exact pool_cut_short_reachable|]. split; [reflexivity|].
  exact (proj1 (X8_started_scans_are_collected _ _ _ _ pool_cut_short_reachable eq_refl)).
Defined.

(** ** The worker pool: one worker keeps the order *)

Lemma one_worker (ws : list Worker) (i : nat) (w : Worker) :
  List.length ws = 1%nat → ws !! i = Some w → ws = [w] ∧ i = 0%nat.
Proof.
  destruct ws as [|w0 [|w1 ws]]; simpl; try lia. intros _.
  destruct i as [|i]; simpl; [by intros [= ->] | done].
Qed.

Lemma one_worker_in_order (projects : list string) (st : Stats) (c : Pool) :
  reachable projects 1 st c →
  List.length (workers c) = 1%nat ∧ projects = dispatched c ++ to_send c.
Proof.
  revert c. unfold reachable. apply rtc_ind_r.
  - done.
  - intros c1 c2 _ Hstep (Hw & Hp). unfold dispatched in *.
    inversion Hstep; subst c1 c2; simpl in *;
      try (split; [done|]; exact Hp);
      try (destruct (one_worker _ _ _ Hw H) as [-> ->]; simpl in *);
      (split; [done|]); rewrite Hp;
      try match goal with Ho : scan_outcome _ _ |- _ => destruct Ho as [-> _] end;
      rewrite ?fmap_app; repeat (progress (simpl; rewrite <- ?app_assoc)); reflexivity.
Qed.

(** X9. With a single worker the results are collected in the order in
    which the projects were submitted: at every moment of the run the
    projects of the collected results are a prefix of the project list. *)
Theorem X9_one_worker_keeps_submission_order (projects : list string) (st : Stats)
    (c : Pool) :
  reachable projects 1 st c →
  ∃ rest, projects = (Project <$> results c) ++ rest.
Proof.
  intros Hreach.
  destruct (one_worker_in_order projects st c Hreach) as (_ & Hp).
  unfold dispatched in Hp. eexists. rewrite Hp at 1. by rewrite <- !app_assoc.
Qed.

Lemma X9_witness :
  reachable ["app1"; "app2"; "app3"] 1 (fresh_stats ["app1"; "app2"; "app3"]) pool_cut_short
  ∧ ∃ rest, ["app1"; "app2"; "app3"] = (Project <$> results pool_cut_short) ++ rest.
Proof.
  split; [exact pool_cut_short_reachable|].
  exact (X9_one_worker_keeps_submission_order _ _ _ pool_cut_short_reachable).
Defined.

(** ** The worker pool: the length of a run *)

Lemma nsteps_weight (n k : nat) (c c' : Pool) :
  nsteps (step n) k c c' → (weight c' + k ≤ weight c)%nat.
Proof.
  induction 1 as [|k c1 c2 c3 Hstep _ IH]; [lia|].
  pose proof (step_weight n c1 c2 Hstep). lia.
Qed.

(** X10. A run of the pool over M projects with N workers takes at most
    5M + N + 4 steps of its goroutines, the passing of the deadline
    included; in particular no goroutine of the pool can spin. *)
Theorem X10_run_length_is_bounded (projects : list string) (n k : nat) (st : Stats)
    (c : Pool) :
  nsteps (step n) k (start projects n st) c →
  (k ≤ 5 * List.length projects + n + 4)%nat.
Proof.
  intros Hrun. pose proof (nsteps_weight n k _ _ Hrun) as H.
  assert (weight (start projects n st) = (5 * List.length projects + n + 4)%nat) as E.
  { unfold weight, start. simpl.
    assert (sum_list_with worker_weight (replicate n Idle) = n) as ->; [|lia].
    clear. induction n as [|m IH]; simpl; [done | by f_equal]. }
  lia.
Qed.

Lemma X10_witness :
  nsteps (step 1) 2 (start ["app1"] 1 (fresh_stats ["app1"]))
    (mkPool [] true ["app1"] [Idle] [] false [] (fresh_stats ["app1"]) false false)
  ∧ (2 ≤ 5 * List.length ["app1"] + 1 + 4)%nat.
Proof.
  assert (nsteps (step 1) 2 (start ["app1"] 1 (fresh_stats ["app1"]))
            (mkPool [] true ["app1"] [Idle] [] false [] (fresh_stats ["app1"]) false false))
    as Hrun.
  { unfold start. simpl replicate.
    eapply nsteps_l; [apply FeederSend; unfold capacity; simpl; lia|].
    eapply nsteps_l; [apply FeederFinish|]. apply nsteps_O. }
  split; [exact Hrun|].
  exact (X10_run_length_is_bounded _ _ _ _ _ Hrun).
Defined.

(** ** The root command: what gets selected *)

Lemma keep_mapped_filter (mapped : string → bool) (ps acc : list string) :
  keep_mapped mapped ps acc = acc ++ filter (λ p, mapped p = true) ps.
Proof.
  revert acc. induction ps as [|p ps IH]; intros acc; simpl.
  - by rewrite app_nil_r.
  - destruct (mapped p) eqn:E.
    + rewrite IH, filter_cons_True by done. by rewrite <- app_assoc.
    + rewrite IH, filter_cons_False by congruence. done.
Qed.

Lemma project_exists_elem (projectName : string) (ps : list string) :
  project_exists projectName ps = true ↔ projectName ∈ ps.
Proof.
  induction ps as [|p ps IH]; simpl.
  - split; [done | intros H; inversion H].
  - case_bool_decide as Hp.
    + subst. split; [intros _; left | done].
    + rewrite IH. split; [by right|]. intros [->|H]%elem_of_cons; done.
Qed.

Lemma length_zero_false {A} (l : list A) : (List.length l =? 0)%nat = false → l ≠ [].
Proof. by destruct l. Qed.

(** X11. What the root command selects for scanning is never empty;
    unless unmapped projects are asked for, every selected project is
    mapped in the configuration; a selection with the project flag means
    that none of the all, base and head flags was given, and then every
    selected project is one the inventory knows. *)
Theorem X11_selection_is_sound os co (f : Flags) (w : World) (projects : list string) :
  selection os co f w = Selected projects →
  projects ≠ []
  ∧ (includeUnmapped f = false → Forall (λ p, IsProjectMapped co p = true) projects)
  ∧ (projectName f ≠ "" →
     allProjects f = false ∧ base f = "" ∧ head f = ""
     ∧ projects ⊆ slice (GetProjects os "" "" true w).1.1).
Proof.
  remember (GetProjects os "" "" true w) as g eqn:Hg.
  unfold selection, select_projects.
  destruct (is_empty (projectName f)) eqn:Ep; cbn [negb andb].
  - (* all or affected projects *)
    apply is_empty_true in Ep. monad_unfold.
    destruct (GetProjects os (base f) (head f) (allProjects f) w) as [[cand [e|]] w1];
      cbn [fst snd]; [done|].
    destruct (includeUnmapped f) eqn:Ei; cbn [negb].
    + destruct (List.length (slice cand) =? 0)%nat eqn:El; cbn [fst]; [done|].
      intros [= <-]. split; [by apply length_zero_false|]. split; [done|]. by intros.
    + destruct (List.length (keep_mapped (IsProjectMapped co) (slice cand) []) =? 0)%nat
        eqn:El; cbn [fst]; [done|].
      intros [= <-]. split; [by apply length_zero_false|]. split; [|by intros].
      intros _. rewrite keep_mapped_filter. simpl. apply Forall_forall.
      intros p Hp. by apply list_elem_of_filter in Hp as [Hp _].
  - destruct (allProjects f || (negb (is_empty (base f)) || negb (is_empty (head f))))
      eqn:Ex; [done|].
    apply orb_false_iff in Ex as [Ha Ex]. apply orb_false_iff in Ex as [Eb Eh].
    apply negb_false_iff, is_empty_true in Eb. apply negb_false_iff, is_empty_true in Eh.
    destruct (Contains (projectName f) ",") eqn:Ec.
    + (* a comma-separated list *)
      unfold GetProjectsFromList. monad_unfold. rewrite <- Hg.
      destruct g as [[u [e|]] w1]; cbn [fst snd]; [done|].
      rewrite projects_from_list_filter. cbn [fst snd].
      change (slice (Some ?x)) with x.
      set (valid := filter (λ p, p ∈ slice u) (requested_names (projectName f))).
      destruct (List.length valid =? 0)%nat eqn:El; cbn [fst]; [done|].
      assert (valid ⊆ slice u) as Hsub.
      { intros p Hp. by apply list_elem_of_filter in Hp as [Hp _]. }
      destruct (includeUnmapped f) eqn:Ei; cbn [negb].
      * intros [= <-]. split; [by apply length_zero_false|]. split; [done|].
        intros _. by repeat (split; [done|]).
      * destruct (List.length (keep_mapped (IsProjectMapped co) valid []) =? 0)%nat
          eqn:El'; cbn [fst]; [done|].
        intros [= <-]. split; [by apply length_zero_false|].
        rewrite keep_mapped_filter. simpl. split.
        -- intros _. apply Forall_forall.
           intros p Hp. by apply list_elem_of_filter in Hp as [Hp _].
        -- intros _. repeat (split; [done|]).
           intros p Hp. apply Hsub. by apply list_elem_of_filter in Hp as [_ Hp].
    + (* a single project *)
      monad_unfold. rewrite <- Hg.
      destruct g as [[u [e|]] w1]; cbn [fst snd]; [done|].
      destruct (project_exists (projectName f) (slice u)) eqn:Ee; cbn [negb]; [|done].
      apply project_exists_elem in Ee.
      destruct (includeUnmapped f) eqn:Ei; cbn [negb andb].
      * intros [= <-]. split; [done|]. split; [done|]. intros _. repeat (split; [done|]).
        intros p Hp. by apply list_elem_of_singleton in Hp as ->.
      * destruct (IsProjectMapped co (projectName f)) eqn:Em; cbn [negb]; [|done].
        intros [= <-]. split; [done|]. split.
        -- intros _. by apply Forall_singleton.
        -- intros _. repeat (split; [done|]).
           intros p Hp. by apply list_elem_of_singleton in Hp as ->.
Qed.

Lemma X11_witness :
  selection os_fine co_app1_only flags_list initial = Selected ["app1"]
  ∧ Forall (λ p, IsProjectMapped co_app1_only p = true) ["app1"].
Proof.
  split; [reflexivity|].
  exact (proj1 (proj2 (X11_selection_is_sound os_fine co_app1_only flags_list initial
                         ["app1"] eq_refl)) eq_refl).
Defined.

(** ** The recipients of the report *)

Lemma parse_emails_filter (rawList result : list string) :
  parse_emails rawList result = result ++ filter (λ a, a ≠ "") (TrimSpace <$> rawList).
Proof.
  revert result. induction rawList as [|addr rest IH]; intros result; simpl.
  - by rewrite app_nil_r.
  - destruct (is_empty (TrimSpace addr)) eqn:E; simpl.
    + apply is_empty_true in E. rewrite IH, filter_cons_False; [done|]. by intros [].
    + apply is_empty_false in E. rewrite IH, filter_cons_True by done.
      by rewrite <- app_assoc.
Qed.

(** X12. The recipients of the report are the entries of the
    comma-separated list with surrounding white space removed, blank
    entries dropped, in the order given; and when nothing is left, a run
    with the email flag ends exactly as a run without it: no report is
    sent and nothing about it is logged. *)
Theorem X12_blank_recipients_disable_email co (f : Flags) (rs : list Result) (st : Stats) :
  ParseEmailList (toEmails f) = requested_names (toEmails f)
  ∧ (∀ a, a ∈ ParseEmailList (toEmails f) → a ≠ "")
  ∧ (ParseEmailList (toEmails f) = [] →
     after_pool co f rs st = after_pool co (without_email f) rs st).
Proof.
  assert (ParseEmailList (toEmails f) = requested_names (toEmails f)) as Heq.
  { unfold ParseEmailList. by rewrite parse_emails_filter. }
  split; [done|]. split.
  - intros a. rewrite Heq. unfold requested_names.
    intros Ha. by apply list_elem_of_filter in Ha as [Ha _].
  - intros Hnone. unfold after_pool, without_email. simpl. rewrite Hnone.
    destruct (is_empty (toEmails f)); simpl; by rewrite andb_false_r.
Qed.

Lemma X12_witness :
  ParseEmailList (toEmails flags_list) = []
  ∧ after_pool co_app1_only flags_list [] zero_Stats
    = after_pool co_app1_only (without_email flags_list) [] zero_Stats.
Proof.
  split; [reflexivity|].
  exact (proj2 (proj2 (X12_blank_recipients_disable_email co_app1_only flags_list []
                         zero_Stats)) eq_refl).
Defined.

(** ** Package mapping *)

Lemma LoadConfig_settled env (s : Mapping.State) :
  Mapping.configOnce s = true →
  Mapping.LoadConfig env s = ((Mapping.globalConfig s, Mapping.configError s), s).
Proof. intros H. unfold Mapping.LoadConfig. by rewrite H. Qed.

Lemma loadConfigFromFile_cases env path (s : Mapping.State) :
  let r := Mapping.loadConfigFromFile env path s in
  Mapping.configOnce r.2 = Mapping.configOnce s
  ∧ Mapping.configError r.2 = Mapping.configError s
  ∧ Mapping.reads r.2 = Mapping.reads s ++ [path]
  ∧ match r.1 with
    | Some _ => Mapping.globalConfig r.2 = Mapping.globalConfig s
    | None => ∃ c, Mapping.globalConfig r.2 = Some c ∧ valid_config c
    end.
Proof.
  unfold Mapping.loadConfigFromFile. cbv zeta.
  destruct (Mapping.ReadFile env path) as [data|e]; simpl; [|done].
  destruct (Mapping.yaml_Unmarshal env data) as [c|e]; simpl; [|done].
  destruct (size (Mapping.Projects (Mapping.Fossa c)) =? 0)%nat eqn:Ep; simpl; [done|].
  destruct (List.length (Mapping.Teams (Mapping.Fossa c)) =? 0)%nat eqn:Et; simpl; [done|].
  destruct (is_empty (Mapping.Endpoint (Mapping.Fossa c))) eqn:Ee; simpl; [done|].
  repeat (split; [done|]). exists c. split; [done|]. repeat split.
  - intros H. rewrite H, map_size_empty in Ep. done.
  - by apply length_zero_false.
  - by apply is_empty_false.
Qed.

Lemma first_existing_head env (place : string → string) (names : list string) :
  Mapping.first_existing env place names
  = hd_error (filter (λ p, Mapping.Stat env p = None) (place <$> names)).
Proof.
  induction names as [|n names IH]; simpl; [done|].
  destruct (Mapping.Stat env (place n)) eqn:E.
  - rewrite IH. rewrite filter_cons_False; [done|]. by rewrite E.
  - rewrite filter_cons_True; done.
Qed.

Lemma hd_error_filter_app {A} (P : A → Prop) `{!∀ x, Decision (P x)} (l k : list A) :
  hd_error (filter P (l ++ k))
  = match hd_error (filter P l) with Some x => Some x | None => hd_error (filter P k) end.
Proof. rewrite filter_app. by destruct (filter P l). Qed.

Lemma loadConfigImpl_cases env (s : Mapping.State) :
  let r := Mapping.loadConfigImpl env s in
  Mapping.configOnce r.2 = Mapping.configOnce s
  ∧ Mapping.configError r.2 = Mapping.configError s
  ∧ Mapping.reads r.2 = Mapping.reads s ++ option_list (config_path env)
  ∧ match r.1 with
    | Some _ => Mapping.globalConfig r.2 = Mapping.globalConfig s
    | None => ∃ c, Mapping.globalConfig r.2 = Some c ∧ valid_config c
    end.
Proof.
  unfold Mapping.loadConfigImpl, config_path.
  rewrite first_existing_head, list_fmap_id.
  destruct (is_empty (Mapping.Getenv env "FOSSA_CONFIG_PATH")) eqn:Eg; cbn [negb].
  - apply is_empty_true in Eg. rewrite bool_decide_eq_true_2 by done.
    unfold candidates. rewrite hd_error_filter_app.
    destruct (hd_error (filter _ Mapping.configFiles)) as [p|].
    { apply loadConfigFromFile_cases. }
    destruct (Mapping.UserHomeDir env) as [home|e].
    + rewrite first_existing_head.
      destruct (hd_error (filter _ (Mapping.Join env home <$> Mapping.configFiles)))
        as [p|].
      * apply loadConfigFromFile_cases.
      * simpl. by rewrite app_nil_r.
    + simpl. by rewrite app_nil_r.
  - apply is_empty_false in Eg. rewrite bool_decide_eq_false_2 by done.
    destruct (Mapping.Stat env (Mapping.Getenv env "FOSSA_CONFIG_PATH")) eqn:Es; simpl.
    + by rewrite app_nil_r.
    + apply loadConfigFromFile_cases.
Qed.

Lemma LoadConfig_cases env (s : Mapping.State) :
  let r := Mapping.LoadConfig env s in
  Mapping.configOnce r.2 = true
  ∧ r.1 = (Mapping.globalConfig r.2, Mapping.configError r.2)
  ∧ Mapping.reads r.2
    = Mapping.reads s ++ (if Mapping.configOnce s then [] else option_list (config_path env))
  ∧ (config_sound s → config_sound r.2).
Proof.
  unfold Mapping.LoadConfig.
  destruct (Mapping.configOnce s) eqn:Eo; simpl.
  - by rewrite app_nil_r.
  - pose proof (loadConfigImpl_cases env s) as H.
    destruct (Mapping.loadConfigImpl env s) as [e s1]; cbv zeta in *;
      cbn [fst snd] in *.
    destruct H as (Ho & He & Hr & Hc).
    repeat (split; [done|]).
    unfold config_sound. simpl. intros Hs.
    destruct e as [e|].
    + rewrite Hc. destruct (Mapping.globalConfig s) as [c|]; [|by eauto].
      destruct Hs as (_ & Hs & _). congruence.
    + destruct Hc as (c & -> & Hv). done.
Qed.

Lemma config_or_exit_state {A} env (k : Mapping.Config → A) (s : Mapping.State) :
  let r := Mapping.config_or_exit env k s in
  let l := Mapping.LoadConfig env s in
  Mapping.configOnce r.2 = Mapping.configOnce l.2
  ∧ Mapping.globalConfig r.2 = Mapping.globalConfig l.2
  ∧ Mapping.configError r.2 = Mapping.configError l.2
  ∧ Mapping.reads r.2 = Mapping.reads l.2.
Proof.
  unfold Mapping.config_or_exit. cbv zeta.
  destruct (Mapping.LoadConfig env s) as [[c [e|]] s1]; simpl; [done|].
  by destruct c.
Qed.

Lemma IsProjectMapped_state env p (s : Mapping.State) :
  (Mapping.IsProjectMapped env p s).2 = (Mapping.LoadConfig env s).2.
Proof.
  unfold Mapping.IsProjectMapped.
  destruct (Mapping.LoadConfig env s) as [[c [e|]] s1]; simpl; [done|].
  by destruct c.
Qed.

(** Every call starts with [LoadConfig] and leaves the package variables
    and the files read as [LoadConfig] leaves them. *)
Lemma mapping_perform_state (s : Mapping.State) call :
  let s' := mapping_perform s call in
  let l := (Mapping.LoadConfig call.1 s).2 in
  Mapping.configOnce s' = Mapping.configOnce l
  ∧ Mapping.globalConfig s' = Mapping.globalConfig l
  ∧ Mapping.configError s' = Mapping.configError l
  ∧ Mapping.reads s' = Mapping.reads l.
Proof.
  destruct call as [env []]; unfold mapping_perform; simpl;
    rewrite ?IsProjectMapped_state; try done;
    apply (config_or_exit_state env).
Qed.

Lemma mapping_perform_settled (s : Mapping.State) call :
  Mapping.configOnce s = true →
  let s' := mapping_perform s call in
  Mapping.configOnce s' = true
  ∧ Mapping.globalConfig s' = Mapping.globalConfig s
  ∧ Mapping.configError s' = Mapping.configError s
  ∧ Mapping.reads s' = Mapping.reads s.
Proof.
  intros Ho. pose proof (mapping_perform_state s call) as H. cbv zeta in *.
  rewrite (LoadConfig_settled _ _ Ho) in H. cbn [fst snd] in H.
  destruct H as (-> & -> & -> & ->). done.
Qed.

Lemma mapping_perform_all_settled calls (s : Mapping.State) :
  Mapping.configOnce s = true →
  let s' := mapping_perform_all calls s in
  Mapping.configOnce s' = true
  ∧ Mapping.globalConfig s' = Mapping.globalConfig s
  ∧ Mapping.configError s' = Mapping.configError s
  ∧ Mapping.reads s' = Mapping.reads s.
Proof.
  revert s. induction calls as [|call calls IH]; intros s Ho; simpl; [done|].
  destruct (mapping_perform_settled s call Ho) as (Ho' & <- & <- & <-).
  by apply IH.
Qed.

Lemma mapping_perform_sound (s : Mapping.State) call :
  config_sound s → config_sound (mapping_perform s call).
Proof.
  intros Hs. pose proof (mapping_perform_state s call) as H.
  pose proof (LoadConfig_cases call.1 s) as L. cbv zeta in *.
  destruct L as (_ & _ & _ & L). specialize (L Hs).
  destruct H as (Ho & Hc & He & _).
  unfold config_sound in *. by rewrite Ho, Hc, He.
Qed.

Lemma mapping_perform_all_sound calls (s : Mapping.State) :
  config_sound s → config_sound (mapping_perform_all calls s).
Proof.
  revert s. induction calls as [|call calls IH]; intros s Hs; simpl; [done|].
  by apply IH, mapping_perform_sound.
Qed.

Lemma initial_sound : config_sound Mapping.initial.
Proof. unfold config_sound. simpl. done. Qed.

(** X13. The configuration is loaded once: whatever the first call of
    [LoadConfig] answered, a configuration or an error, every later call
    answers the same and reads no file, whatever was called in between
    and whatever the environment or the files have become. *)
Theorem X13_configuration_is_loaded_once env env'
    (calls : list (Mapping.Env * MappingCall)) (s : Mapping.State) :
  let first := Mapping.LoadConfig env s in
  let later := Mapping.LoadConfig env' (mapping_perform_all calls first.2) in
  later.1 = first.1 ∧ Mapping.reads later.2 = Mapping.reads first.2.
Proof.
  cbv zeta. destruct (LoadConfig_cases env s) as (Ho & Hr & _). cbv zeta in *.
  destruct (mapping_perform_all_settled calls _ Ho) as (Ho' & Hc & He & Hreads).
  cbv zeta in *. rewrite (LoadConfig_settled _ _ Ho'). cbn [fst snd].
  rewrite Hr, Hc, He. done.
Qed.

(** X14. In a process that started with nothing loaded, a configuration
    that [LoadConfig] hands out without an error has projects, teams and
    an endpoint, and with an error there is no configuration; so no getter
    dereferences a nil configuration, and an endpoint that
    [GetFossaEndpoint] returns is never empty. *)
Theorem X14_loaded_configuration_is_valid env
    (calls : list (Mapping.Env * MappingCall)) :
  let s := mapping_perform_all calls Mapping.initial in
  match (Mapping.LoadConfig env s).1 with
  | (Some c, None) => valid_config c
  | (None, Some _) => True
  | _ => False
  end
  ∧ (∀ p, (Mapping.IsProjectMapped env p s).1 ≠ Mapping.Panics)
  ∧ (∀ p, (Mapping.GetFossaProjectID env p s).1 ≠ Mapping.Panics)
  ∧ (∀ p, (Mapping.GetTeamValue env p s).1 ≠ Mapping.Panics)
  ∧ (Mapping.GetFossaEndpoint env s).1 ≠ Mapping.Panics
  ∧ (∀ e, (Mapping.GetFossaEndpoint env s).1 = Mapping.Returns e → e ≠ "").
Proof.
  cbv zeta. set (s := mapping_perform_all calls Mapping.initial).
  assert (config_sound s) as Hs by apply mapping_perform_all_sound, initial_sound.
  destruct (LoadConfig_cases env s) as (Ho & Hr & _ & Hsound). cbv zeta in *.
  specialize (Hsound Hs). unfold config_sound in Hsound.
  assert (match (Mapping.LoadConfig env s).1 with
          | (Some c, None) => valid_config c
          | (None, Some _) => True
          | _ => False
          end) as Hcases.
  { rewrite Hr.
    destruct (Mapping.globalConfig (Mapping.LoadConfig env s).2) as [c|].
    - destruct Hsound as (Hv & _ & ->). done.
    - destruct (Hsound Ho) as [e ->]. done. }
  split; [done|].
  unfold Mapping.IsProjectMapped, Mapping.GetFossaProjectID, Mapping.GetTeamValue,
    Mapping.GetFossaEndpoint, Mapping.config_or_exit.
  destruct (Mapping.LoadConfig env s) as [[[c|] [e|]] s1]; simpl in *; try done.
  repeat (split; [done|]). intros e [= <-]. apply Hcases.
Qed.

Lemma matches_owns (projectName : string) (team : Mapping.TeamMapping) :
  Mapping.matches projectName (Mapping.Prefixes team) = true ↔ owns team projectName.
Proof.
  unfold owns. induction (Mapping.Prefixes team) as [|prefix rest IH]; simpl.
  - split; [done|]. intros (p & Hp & _). inversion Hp.
  - destruct (HasPrefix projectName prefix) eqn:E.
    + split; [|done]. intros _. exists prefix. split; [left|done].
    + rewrite IH. split.
      * intros (p & Hp & Hm). exists p. split; [by right|done].
      * intros (p & Hp & Hm). apply elem_of_cons in Hp as [->|Hp]; [congruence|].
        by exists p.
Qed.

Lemma find_team_first (projectName : string) (teams : list Mapping.TeamMapping) :
  match Mapping.find_team projectName teams with
  | Some v =>
      ∃ i team, teams !! i = Some team ∧ owns team projectName
        ∧ v = Mapping.TeamValue team
        ∧ ∀ j team', (j < i)%nat → teams !! j = Some team' → ¬ owns team' projectName
  | None => ∀ team, team ∈ teams → ¬ owns team projectName
  end.
Proof.
  induction teams as [|team rest IH]; simpl.
  - intros team H. inversion H.
  - destruct (Mapping.matches projectName (Mapping.Prefixes team)) eqn:E.
    + exists 0%nat, team. repeat split; [by apply matches_owns|]. intros j t' Hj. lia.
    + assert (¬ owns team projectName) as Hn.
      { intros H. apply matches_owns in H. congruence. }
      destruct (Mapping.find_team projectName rest) as [v|].
      * destruct IH as (i & t & Hi & Ho & -> & Hless).
        exists (S i), t. repeat split; [done..|].
        intros [|j] t' Hj Ht'; simpl in Ht'.
        -- by injection Ht' as <-.
        -- apply (Hless j); [lia|done].
      * intros t [->|Ht]%elem_of_cons; [done|by apply IH].
Qed.

(** X15. The team of a project is that of the first team, in the order of
    the configuration file, one of whose prefixes starts the project's
    name; the default team is used only when no team has such a prefix. *)
Theorem X15_first_matching_team_wins env (projectName : string) (s s' : Mapping.State)
    (v : string) :
  Mapping.GetTeamValue env projectName s = (Mapping.Returns v, s') →
  ∃ c, (Mapping.LoadConfig env s).1 = (Some c, None)
    ∧ let teams := Mapping.Teams (Mapping.Fossa c) in
      (∃ i team, teams !! i = Some team ∧ owns team projectName
         ∧ v = Mapping.TeamValue team
         ∧ ∀ j team', (j < i)%nat → teams !! j = Some team' → ¬ owns team' projectName)
      ∨ ((∀ team, team ∈ teams → ¬ owns team projectName)
         ∧ v = Mapping.DefaultTeam (Mapping.Fossa c)).
Proof.
  unfold Mapping.GetTeamValue, Mapping.config_or_exit.
  destruct (Mapping.LoadConfig env s) as [[[c|] [e|]] s1]; simpl; try done.
  intros [= <- <-]. exists c. split; [done|].
  pose proof (find_team_first projectName (Mapping.Teams (Mapping.Fossa c))) as H.
  destruct (Mapping.find_team projectName (Mapping.Teams (Mapping.Fossa c))) as [v|].
  - by left.
  - by right.
Qed.

(** X16. Once [IsProjectMapped] has said yes for a project,
    [GetFossaProjectID] returns the identifier the configuration maps the
    project to: it does not end the process and does not fall back to the
    default project, whatever was called in between. *)
Theorem X16_mapped_project_has_its_own_id env env' (projectName : string)
    (calls : list (Mapping.Env * MappingCall)) (s s1 : Mapping.State) :
  Mapping.IsProjectMapped env projectName s = (Mapping.Returns true, s1) →
  ∃ c id,
    (Mapping.LoadConfig env s).1 = (Some c, None)
    ∧ Mapping.Projects (Mapping.Fossa c) !! projectName = Some id
    ∧ (Mapping.GetFossaProjectID env' projectName (mapping_perform_all calls s1)).1
      = Mapping.Returns id.
Proof.
  intros H.
  pose proof (IsProjectMapped_state env projectName s) as Hs. rewrite H in Hs.
  cbn [snd] in Hs.
  destruct (LoadConfig_cases env s) as (Ho & Hr & _). cbv zeta in *.
  unfold Mapping.IsProjectMapped in H. rewrite <- Hs in *.
  destruct (Mapping.LoadConfig env s) as [[[c|] [e|]] s2]; cbn [fst snd] in *; try done.
  subst s2. injection H as H. apply bool_decide_eq_true in H as [id Hid].
  injection Hr as Hc He.
  exists c, id. repeat (split; [done|]).
  destruct (mapping_perform_all_settled calls s1 Ho) as (Ho' & Hc' & He' & _).
  cbv zeta in *. unfold Mapping.GetFossaProjectID, Mapping.config_or_exit.
  rewrite (LoadConfig_settled _ _ Ho'). rewrite Hc', He', <- Hc, <- He. cbn [fst snd].
  by rewrite Hid.
Qed.

Lemma mapping_perform_all_reads calls (s : Mapping.State) :
  Mapping.configOnce s = false →
  Mapping.reads (mapping_perform_all calls s) = Mapping.reads s ++ files_read calls.
Proof.
  destruct calls as [|call calls]; intros Ho; simpl; [by rewrite app_nil_r|].
  destruct (mapping_perform_state s call) as (Ho1 & _ & _ & Hr1). cbv zeta in *.
  destruct (LoadConfig_cases call.1 s) as (Ho2 & _ & Hr2 & _). cbv zeta in *.
  rewrite Ho2 in Ho1. rewrite Ho in Hr2.
  destruct (mapping_perform_all_settled calls _ Ho1) as (_ & _ & _ & ->).
  by rewrite Hr1, Hr2.
Qed.

(** X17. A process reads at most one configuration file, on the first
    call of any function of the package: the file named by
    FOSSA_CONFIG_PATH when that is set, and then no other one, even if
    it does not exist; otherwise the first existing one of the four
    names in the working directory, then in the home directory. *)
Theorem X17_one_configuration_file_is_read (calls : list (Mapping.Env * MappingCall)) :
  Mapping.reads (mapping_perform_all calls Mapping.initial) = files_read calls
  ∧ (List.length (files_read calls) ≤ 1)%nat.
Proof.
  split.
  - by rewrite mapping_perform_all_reads.
  - destruct calls as [|call calls]; simpl; [lia|].
    destruct (config_path call.1); simpl; lia.
Qed.

Lemma X15_witness :
  Mapping.GetTeamValue env_sample "app1" Mapping.initial
  = (Mapping.Returns "Apps", (Mapping.GetTeamValue env_sample "app1" Mapping.initial).2)
  ∧ ∃ c, (Mapping.LoadConfig env_sample Mapping.initial).1 = (Some c, None)
    ∧ let teams := Mapping.Teams (Mapping.Fossa c) in
      (∃ i team, teams !! i = Some team ∧ owns team "app1"
         ∧ "Apps" = Mapping.TeamValue team
         ∧ ∀ j team', (j < i)%nat → teams !! j = Some team' → ¬ owns team' "app1")
      ∨ ((∀ team, team ∈ teams → ¬ owns team "app1")
         ∧ "Apps" = Mapping.DefaultTeam (Mapping.Fossa c)).
Proof.
  assert (Mapping.GetTeamValue env_sample "app1" Mapping.initial
          = (Mapping.Returns "Apps",
             (Mapping.GetTeamValue env_sample "app1" Mapping.initial).2)) as H
    by (vm_compute; reflexivity).
  split; [exact H|].
  exact (X15_first_matching_team_wins env_sample "app1" Mapping.initial _ "Apps" H).
Defined.

Lemma X16_witness :
  Mapping.IsProjectMapped env_sample "app1" Mapping.initial
  = (Mapping.Returns true, (Mapping.IsProjectMapped env_sample "app1" Mapping.initial).2)
  ∧ ∃ c id,
      (Mapping.LoadConfig env_sample Mapping.initial).1 = (Some c, None)
      ∧ Mapping.Projects (Mapping.Fossa c) !! "app1" = Some id
      ∧ (Mapping.GetFossaProjectID env_missing "app1"
           (mapping_perform_all [(env_missing, AskGetTeamValue "lib-x")]
              (Mapping.IsProjectMapped env_sample "app1" Mapping.initial).2)).1
        = Mapping.Returns id.
Proof.
  assert (Mapping.IsProjectMapped env_sample "app1" Mapping.initial
          = (Mapping.Returns true,
             (Mapping.IsProjectMapped env_sample "app1" Mapping.initial).2)) as H
    by (vm_compute; reflexivity).
  split; [exact H|].
  exact (X16_mapped_project_has_its_own_id env_sample env_missing "app1"
           [(env_missing, AskGetTeamValue "lib-x")] Mapping.initial _ H).
Defined.

(** With a path given that does not exist nothing is read, although
    [.fossa.yaml] is there; without one, [.fossa.yaml] in the working
    directory is preferred to [fossa-config.yaml] in the home directory. *)
Lemma configuration_file_examples :
  files_read [(env_missing, AskLoadConfig)] = []
  ∧ (Mapping.LoadConfig env_missing Mapping.initial).1
    = (None, Some "specified config file not found: ci/fossa.yaml")
  ∧ files_read [(env_sample, AskLoadConfig)] = [".fossa.yaml"].
Proof. repeat split; vm_compute; reflexivity. Qed.

(** ** Package git *)

Lemma initGitInfoOnce_initial os :
  Git.initGitInfoOnce os Git.initial
  = {| Git.currentCommit := first_commit os; Git.currentBranch := first_branch os;
       Git.gitInfoInitialized := true;
       Git.trace := [Git.rev_parse_HEAD; Git.rev_parse_branch] |}.
Proof.
  unfold Git.initGitInfoOnce, first_commit, first_branch, answer_or_nothing. simpl.
  destruct (os [] Git.rev_parse_HEAD).2, (os [Git.rev_parse_HEAD] Git.rev_parse_branch).2;
    reflexivity.
Qed.

Lemma initGitInfoOnce_done os (s : Git.State) :
  Git.gitInfoInitialized s = true → Git.initGitInfoOnce os s = s.
Proof. intros H. unfold Git.initGitInfoOnce. by rewrite H. Qed.

Lemma git_ask_state os (s : Git.State) (commit : bool) :
  git_ask os s commit = Git.initGitInfoOnce os s.
Proof. by destruct commit. Qed.

(** X18. Whatever sequence of calls of [GetCommitHash] and
    [GetBranchName] a process makes, git is started exactly twice, by the
    first of them; every call answers without an error what git said
    then, and the empty string for what git failed to say. *)
Theorem X18_git_is_asked_once os (first : bool) (later : list bool) :
  let s := foldl (git_ask os) (git_ask os Git.initial first) later in
  Git.trace s = [Git.rev_parse_HEAD; Git.rev_parse_branch]
  ∧ Git.GetCommitHash os s = ((first_commit os, None), s)
  ∧ Git.GetBranchName os s = ((first_branch os, None), s).
Proof.
  cbv zeta. rewrite git_ask_state, initGitInfoOnce_initial.
  set (s0 := {| Git.currentCommit := first_commit os |}).
  assert (foldl (git_ask os) s0 later = s0) as ->.
  { induction later as [|a later IH]; simpl; [done|].
    by rewrite git_ask_state, initGitInfoOnce_done. }
  unfold Git.GetCommitHash, Git.GetBranchName.
  by rewrite initGitInfoOnce_done.
Qed.

(** ** Package fossa: the cached values *)

Lemma keep_env_filter (env acc : list string) :
  Fossa.keep_env env acc
  = acc ++ filter (λ v, HasPrefix v "SSL_CERT_DIR=" = false) env.
Proof.
  revert acc. induction env as [|v env IH]; intros acc; cbn [Fossa.keep_env].
  - by rewrite app_nil_r.
  - destruct (HasPrefix v "SSL_CERT_DIR=") eqn:E; cbn [negb].
    + rewrite IH. rewrite filter_cons_False; [done|]. by rewrite E.
    + rewrite IH. rewrite filter_cons_True by done. by rewrite <- app_assoc.
Qed.

Lemma fossa_perform_env (s : Fossa.State) (call : FossaCall) :
  Fossa.filteredEnvOnce s = true →
  Fossa.filteredEnvOnce (fossa_perform s call) = true
  ∧ Fossa.filteredEnvVars (fossa_perform s call) = Fossa.filteredEnvVars s.
Proof.
  intros H. destruct call; simpl.
  - by destruct (Fossa.monorepoRootOnce s).
  - by rewrite H.
Qed.

Lemma fossa_perform_root (s : Fossa.State) (call : FossaCall) :
  Fossa.monorepoRootOnce s = true →
  Fossa.monorepoRootOnce (fossa_perform s call) = true
  ∧ Fossa.monorepoRootDir (fossa_perform s call) = Fossa.monorepoRootDir s
  ∧ Fossa.monorepoRootErr (fossa_perform s call) = Fossa.monorepoRootErr s.
Proof.
  intros H. destruct call; simpl.
  - by rewrite H.
  - by destruct (Fossa.filteredEnvOnce s).
Qed.

Lemma fossa_perform_all_env (calls : list FossaCall) (s : Fossa.State) :
  Fossa.filteredEnvOnce s = true →
  Fossa.filteredEnvOnce (foldl fossa_perform s calls) = true
  ∧ Fossa.filteredEnvVars (foldl fossa_perform s calls) = Fossa.filteredEnvVars s.
Proof.
  revert s. induction calls as [|c calls IH]; intros s H; simpl; [done|].
  destruct (fossa_perform_env s c H) as [H1 <-]. by apply IH.
Qed.

Lemma fossa_perform_all_root (calls : list FossaCall) (s : Fossa.State) :
  Fossa.monorepoRootOnce s = true →
  Fossa.monorepoRootOnce (foldl fossa_perform s calls) = true
  ∧ Fossa.monorepoRootDir (foldl fossa_perform s calls) = Fossa.monorepoRootDir s
  ∧ Fossa.monorepoRootErr (foldl fossa_perform s calls) = Fossa.monorepoRootErr s.
Proof.
  revert s. induction calls as [|c calls IH]; intros s H; simpl; [done|].
  destruct (fossa_perform_root s c H) as (H1 & <- & <-). by apply IH.
Qed.

(** X19. The environment handed to the fossa commands is the one the
    process had at the first call of [getFilteredEnv], without the
    entries that set SSL_CERT_DIR and otherwise unchanged and in order;
    later changes of the environment are not seen.  The monorepo root is
    fixed in the same way by the first call of [getMonorepoRoot], its
    error included. *)
Theorem X19_scan_environment_is_fixed_at_first_use (s : Fossa.State)
    (later : list FossaCall) (first now : list string)
    (first_wd wd : string * option error) :
  (Fossa.filteredEnvOnce s = false →
   (Fossa.getFilteredEnv now
      (foldl fossa_perform (Fossa.getFilteredEnv first s).2 later)).1
   = filter (λ v, HasPrefix v "SSL_CERT_DIR=" = false) first)
  ∧ (Fossa.monorepoRootOnce s = false →
     (Fossa.getMonorepoRoot wd
        (foldl fossa_perform (Fossa.getMonorepoRoot first_wd s).2 later)).1
     = first_wd).
Proof.
  split; intros H0.
  - set (s1 := (Fossa.getFilteredEnv first s).2).
    assert (Fossa.filteredEnvOnce s1 = true
            ∧ Fossa.filteredEnvVars s1
              = filter (λ v, HasPrefix v "SSL_CERT_DIR=" = false) first) as [H1 H2].
    { subst s1. unfold Fossa.getFilteredEnv. rewrite H0. simpl.
      by rewrite keep_env_filter. }
    destruct (fossa_perform_all_env later s1 H1) as [H3 H4].
    unfold Fossa.getFilteredEnv. rewrite H3. simpl. by rewrite H4.
  - set (s1 := (Fossa.getMonorepoRoot first_wd s).2).
    assert (Fossa.monorepoRootOnce s1 = true
            ∧ Fossa.monorepoRootDir s1 = first_wd.1
            ∧ Fossa.monorepoRootErr s1 = first_wd.2) as (H1 & H2 & H2').
    { subst s1. unfold Fossa.getMonorepoRoot. by rewrite H0. }
    destruct (fossa_perform_all_root later s1 H1) as (H3 & H4 & H5).
    unfold Fossa.getMonorepoRoot. rewrite H3. simpl. rewrite H4, H5, H2, H2'.
    by destruct first_wd.
Qed.

Lemma X19_witness :
  Fossa.filteredEnvOnce Fossa.initial = false
  ∧ (Fossa.getFilteredEnv ["PATH=/bin"]
       (foldl fossa_perform
          (Fossa.getFilteredEnv
             ["PATH=/usr/bin"; "SSL_CERT_DIR=/etc/ssl"; "SSL_CERT_DIR_OLD=/x"]
             Fossa.initial).2
          [AskMonorepoRoot ("/repo", None); AskFilteredEnv []])).1
    = filter (λ v, HasPrefix v "SSL_CERT_DIR=" = false)
        ["PATH=/usr/bin"; "SSL_CERT_DIR=/etc/ssl"; "SSL_CERT_DIR_OLD=/x"]
  ∧ Fossa.monorepoRootOnce Fossa.initial = false
  ∧ (Fossa.getMonorepoRoot ("/elsewhere", None)
       (foldl fossa_perform
          (Fossa.getMonorepoRoot ("", Some "getwd: no such file or directory")
             Fossa.initial).2
          [AskMonorepoRoot ("/repo", None); AskFilteredEnv []])).1
    = ("", Some "getwd: no such file or directory").
Proof.
  split; [reflexivity|]. split.
  - exact (proj1 (X19_scan_environment_is_fixed_at_first_use Fossa.initial
                    [AskMonorepoRoot ("/repo", None); AskFilteredEnv []]
                    ["PATH=/usr/bin"; "SSL_CERT_DIR=/etc/ssl"; "SSL_CERT_DIR_OLD=/x"]
                    ["PATH=/bin"]
                    ("", Some "getwd: no such file or directory")
                    ("/elsewhere", None)) eq_refl).
  - split; [reflexivity|].
    exact (proj2 (X19_scan_environment_is_fixed_at_first_use Fossa.initial
                    [AskMonorepoRoot ("/repo", None); AskFilteredEnv []]
                    ["PATH=/usr/bin"; "SSL_CERT_DIR=/etc/ssl"; "SSL_CERT_DIR_OLD=/x"]
                    ["PATH=/bin"]
                    ("", Some "getwd: no such file or directory")
                    ("/elsewhere", None)) eq_refl).
Defined.

Lemma X14_witness :
  (Mapping.GetFossaEndpoint env_sample
     (mapping_perform_all [(env_missing, AskIsProjectMapped "app1")] Mapping.initial)).1
  = Mapping.Exits 1
  ∧ (Mapping.GetFossaEndpoint env_sample (mapping_perform_all [] Mapping.initial)).1
    = Mapping.Returns "https://fossa.example.com"
  ∧ "https://fossa.example.com" ≠ "".
Proof.
  split; [vm_compute; reflexivity|].
  assert ((Mapping.GetFossaEndpoint env_sample (mapping_perform_all [] Mapping.initial)).1
          = Mapping.Returns "https://fossa.example.com") as H
    by (vm_compute; reflexivity).
  split; [exact H|].
  exact (proj2 (proj2 (proj2 (proj2 (proj2
           (X14_loaded_configuration_is_valid env_sample [])))))
           "https://fossa.example.com" H).
Defined.

(** ** Package github: the commit status *)

Lemma string_length_app (a b : string) :
  String.length (a +:+ b) = (String.length a + String.length b)%nat.
Proof.
  induction a as [|x a IH]; [reflexivity|].
  rewrite append_cons. simpl. by rewrite IH.
Qed.

Lemma ReplaceAll_length (s : string) (old new : ascii) :
  String.length (ReplaceAll s old new) = String.length s.
Proof. induction s as [|c s IH]; simpl; [done | by rewrite IH]. Qed.

Lemma upto_length (n : nat) (s : string) : (String.length (GoFmt.upto n s) ≤ n)%nat.
Proof.
  unfold GoFmt.upto. revert s. induction n as [|n IH]; intros [|c s]; simpl; try lia.
  specialize (IH s). lia.
Qed.

Lemma Contains_app (a b : string) (c : ascii) :
  Contains (a +:+ b) c = Contains a c || Contains b c.
Proof.
  induction a as [|x a IH]; [reflexivity|].
  rewrite append_cons. simpl. by rewrite IH, orb_assoc.
Qed.

Lemma ReplaceAll_keeps_out (s : string) (old new c : ascii) :
  c ≠ new → Contains s c = false → Contains (ReplaceAll s old new) c = false.
Proof.
  intros Hne. induction s as [|x s IH]; [done|]. simpl.
  intros [Hx Hs]%orb_false_iff. rewrite (IH Hs), orb_false_r.
  destruct (Ascii.eqb x old); [|done]. apply Ascii.eqb_neq. congruence.
Qed.

Lemma no_digit_below (c : ascii) : (nat_of_ascii c < 48)%nat → no_digit c.
Proof.
  intros Hc d Hd. apply Ascii.eqb_neq. intros <-.
  unfold GoFmt.digit in Hc. rewrite nat_ascii_embedding in Hc; lia.
Qed.

Lemma digits_Contains (fuel : nat) (n : Z) (acc : string) (c : ascii) :
  no_digit c → Contains (GoFmt.digits fuel n acc) c = Contains acc c.
Proof.
  intros Hc. revert n acc.
  induction fuel as [|fuel IH]; intros n acc; cbn [GoFmt.digits]; [done|].
  assert (Ascii.eqb (GoFmt.digit (n mod 10)) c = false) as Hd.
  { apply Hc. apply Z.mod_pos_bound. lia. }
  destruct (n / 10 =? 0); [|rewrite IH]; cbn [Contains]; by rewrite Hd.
Qed.

Lemma itoa_Contains (n : Z) (c : ascii) :
  no_digit c → c ≠ "-"%char → Contains (GoFmt.itoa n) c = false.
Proof.
  intros Hc Hm. unfold GoFmt.itoa. destruct (n <? 0); cbn [Contains].
  - rewrite digits_Contains by done. cbn [Contains]. rewrite orb_false_r.
    apply Ascii.eqb_neq. congruence.
  - by rewrite digits_Contains.
Qed.

Lemma digits_length (fuel : nat) (n : Z) (acc : string) :
  (String.length (GoFmt.digits fuel n acc) ≤ fuel + String.length acc)%nat.
Proof.
  revert n acc.
  induction fuel as [|fuel IH]; intros n acc; cbn [GoFmt.digits]; [lia|].
  destruct (n / 10 =? 0); cbn [String.length]; [lia|].
  specialize (IH (n / 10) (String (GoFmt.digit (n mod 10)) acc)).
  cbn [String.length] in IH. lia.
Qed.

Lemma log2_int64 (n : Z) : n ≤ 2 ^ 63 → (Z.to_nat (Z.log2 n) ≤ 63)%nat.
Proof.
  intros Hn. assert (Z.log2 n ≤ Z.log2 (2 ^ 63)) as H by (apply Z.log2_le_mono; lia).
  rewrite Z.log2_pow2 in H by lia. lia.
Qed.

Lemma itoa_length (n : Z) : int64 n → (String.length (GoFmt.itoa n) ≤ 65)%nat.
Proof.
  intros [Hlo Hhi]. unfold GoFmt.itoa. destruct (n <? 0); cbn [String.length].
  - pose proof (digits_length (S (Z.to_nat (Z.log2 (- n)))) (- n) "") as H.
    pose proof (log2_int64 (- n)) as L. cbn [String.length] in H. lia.
  - pose proof (digits_length (S (Z.to_nat (Z.log2 n))) n "") as H.
    pose proof (log2_int64 n) as L. cbn [String.length] in H. lia.
Qed.

Lemma wrap64_range (z : Z) : int64 (wrap64 z).
Proof.
  unfold int64, wrap64, wrap.
  pose proof (Z.mod_pos_bound (z + 2 ^ (64 - 1)) (2 ^ 64)) as H.
  change (2 ^ (64 - 1)) with (2 ^ 63) in *.
  assert (2 ^ 64 = 2 * 2 ^ 63) as E by reflexivity. lia.
Qed.

Lemma failed_scans_cons (r : Result) (results : list Result) :
  failed_scans (r :: results)
  = (if bool_decide (Error r = None) then 0 else 1) + failed_scans results.
Proof.
  unfold failed_scans. case_bool_decide as E.
  - rewrite filter_cons_False by (by intros []). lia.
  - rewrite filter_cons_True by done. simpl. lia.
Qed.

Lemma failed_scans_bounds (results : list Result) :
  0 ≤ failed_scans results ≤ GoFmt.len results.
Proof.
  unfold failed_scans, GoFmt.len.
  pose proof (length_filter (λ r, Error r ≠ None) results). lia.
Qed.

Lemma found_vulnerabilities_nonneg (results : list Result) :
  0 ≤ found_vulnerabilities results.
Proof.
  induction results as [|r results IH]; cbn [found_vulnerabilities foldr]; [done|].
  fold (found_vulnerabilities results). case_bool_decide; lia.
Qed.

Lemma found_vulnerabilities_cons (r : Result) (results : list Result) :
  found_vulnerabilities (r :: results)
  = (if bool_decide (Error r = None) then Z.of_nat (List.length (Issues r)) else 0)
    + found_vulnerabilities results.
Proof. unfold found_vulnerabilities. cbn [foldr]. by case_bool_decide. Qed.

(** What the loop over the results computes. *)
Lemma tally_counts (results : list Result) (totalVulnerabilities failedScans : Z)
    (projectNames : list string) :
  int64 totalVulnerabilities → int64 failedScans →
  GitHub.tally results totalVulnerabilities failedScans projectNames
  = (wrap64 (totalVulnerabilities + found_vulnerabilities results),
     wrap64 (failedScans + failed_scans results),
     projectNames ++ (Project <$> results)).
Proof.
  revert totalVulnerabilities failedScans projectNames.
  induction results as [|r results IH]; intros tv fs names Htv Hfs.
  - cbn [GitHub.tally]. change (failed_scans []) with 0.
    change (found_vulnerabilities []) with 0.
    rewrite !Z.add_0_r, !wrap64_small, app_nil_r by done. done.
  - cbn [GitHub.tally]. rewrite failed_scans_cons, found_vulnerabilities_cons, fmap_cons.
    destruct (Error r) as [e|] eqn:E.
    + rewrite IH by (done || apply wrap64_range).
      rewrite !bool_decide_eq_false_2 by done.
      unfold wrap64 at 2. rewrite wrap_add_l. fold wrap64.
      rewrite <- app_assoc. cbn [app].
      by rewrite Z.add_0_l, Z.add_assoc.
    + rewrite IH by (done || apply wrap64_range).
      rewrite !bool_decide_eq_true_2 by done.
      unfold wrap64 at 1. rewrite wrap_add_l. fold wrap64.
      rewrite <- app_assoc. cbn [app]. unfold GoFmt.len.
      by rewrite Z.add_0_l, Z.add_assoc.
Qed.

Lemma status_context_fits (projectNames : list string) :
  int64 (GoFmt.len projectNames) →
  (String.length (GitHub.status_context projectNames) ≤ 255)%nat
  ∧ ∃ tail, GitHub.status_context projectNames = "ci/fossa-" +:+ tail
      ∧ Contains tail " " = false ∧ Contains tail "/" = false.
Proof.
  intros Hlen. unfold GitHub.status_context. cbv zeta.
  set (escaped := ReplaceAll (ReplaceAll (GoFmt.Join projectNames "-") " " "-") "/" "-").
  assert (Contains escaped " " = false ∧ Contains escaped "/" = false) as [Hs Hl].
  { split.
    - apply ReplaceAll_keeps_out; [done|]. by apply ReplaceAll_no_old.
    - by apply ReplaceAll_no_old. }
  destruct (255 <? GoFmt.len_string ("ci/fossa-" +:+ escaped)) eqn:Elong.
  - destruct (GoFmt.len projectNames =? 1) eqn:Eone.
    + (* one project: the name itself is as long as its escaped form *)
      assert (∃ p, projectNames = [p]) as [p ->].
      { apply Z.eqb_eq in Eone. unfold GoFmt.len in Eone.
        destruct projectNames as [|p [|q l]]; cbn [List.length] in Eone; try lia.
        by exists p. }
      assert (GoFmt.len_string ("ci/fossa-" +:+ nth 0 [p] "")
              = GoFmt.len_string ("ci/fossa-" +:+ escaped)) as ->.
      { subst escaped. unfold GoFmt.len_string.
        rewrite !string_length_app, !ReplaceAll_length. done. }
      rewrite Elong. split; [simpl; lia|]. by exists "scan".
    + split.
      * rewrite !string_length_app. pose proof (itoa_length _ Hlen).
        cbn [String.length]. lia.
      * exists (GoFmt.itoa (GoFmt.len projectNames) +:+ "-projects").
        split; [done|].
        rewrite !Contains_app, !itoa_Contains; try done;
          by apply no_digit_below; vm_compute; lia.
  - apply Z.ltb_ge in Elong. unfold GoFmt.len_string in Elong.
    split; [lia|]. by exists escaped.
Qed.

Lemma status_verdict_fits (totalVulnerabilities failedScans : Z)
    (projectNames : list string) :
  int64 totalVulnerabilities → int64 failedScans → int64 (GoFmt.len projectNames) →
  let v := GitHub.status_verdict totalVulnerabilities failedScans projectNames in
  (String.length v.2 ≤ 125)%nat
  ∧ (v.1 = "success" ∧ ¬ 0 < failedScans ∧ ¬ 0 < totalVulnerabilities
     ∨ v.1 = "failure" ∧ (0 < failedScans ∨ 0 < totalVulnerabilities)).
Proof.
  intros Htv Hfs Hlen. unfold GitHub.status_verdict. cbv zeta.
  destruct (0 <? failedScans) eqn:Ef; cbn [fst snd].
  { apply Z.ltb_lt in Ef. split; [|right; by auto].
    rewrite !string_length_app. pose proof (itoa_length _ Hfs).
    cbn [String.length]. lia. }
  apply Z.ltb_ge in Ef.
  destruct (0 <? totalVulnerabilities) eqn:Ev; cbn [fst snd].
  { apply Z.ltb_lt in Ev. split; [|right; by auto].
    rewrite !string_length_app. pose proof (itoa_length _ Htv).
    cbn [String.length]. lia. }
  apply Z.ltb_ge in Ev. split; [|left; repeat split; lia].
  destruct (GoFmt.len projectNames =? 1).
  - destruct (100 <? GoFmt.len_string (nth 0 projectNames "")) eqn:El.
    + rewrite !string_length_app. pose proof (upto_length 100 (nth 0 projectNames "")).
      cbn [String.length]. lia.
    + apply Z.ltb_ge in El. unfold GoFmt.len_string in El.
      rewrite !string_length_app. cbn [String.length]. lia.
  - rewrite !string_length_app. pose proof (itoa_length _ Hlen).
    cbn [String.length]. lia.
Qed.

Lemma status_of_sent os api (results : list Result) (config : GitHub.GitHubConfig)
    (verbose : bool) (s s' : Git.State) (o : GitHub.Outcome) (st : GitHub.RepoStatus) :
  GitHub.CreateCommitStatus os api results config verbose s = ((o, Some st), s') →
  st = GitHub.status_of results.
Proof.
  unfold GitHub.CreateCommitStatus.
  destruct (negb (GitHub.Enabled config)); [done|].
  destruct (Git.GetCommitHash os s) as [[h e] s1].
  destruct (bool_decide (e ≠ None) || is_empty h); [done|].
  destruct (if negb (is_empty (GitHub.ApiUrl config)) then _ else _); [done|].
  destruct (GitHub.CreateStatus api _ _ _ _); [congruence|].
  destruct (verbose && _); congruence.
Qed.

(** X20. A commit status that is handed to GitHub fits GitHub's limits:
    its context has at most 255 bytes and its description at most 140;
    the state is success or failure; the context is [ci/fossa-] followed
    by text without a space or a slash, so a project name is never used
    unescaped; and the description is never cut: the sentence built from
    the results is short enough as it is. *)
Theorem X20_commit_status_fits_github os api (results : list Result)
    (config : GitHub.GitHubConfig) (verbose : bool) (s s' : Git.State)
    (o : GitHub.Outcome) (st : GitHub.RepoStatus) :
  int64 (GoFmt.len results) →
  GitHub.CreateCommitStatus os api results config verbose s = ((o, Some st), s') →
  (String.length (GitHub.Context st) ≤ 255)%nat
  ∧ (String.length (GitHub.Description st) ≤ 140)%nat
  ∧ (GitHub.State st = "success" ∨ GitHub.State st = "failure")
  ∧ (∃ tail, GitHub.Context st = "ci/fossa-" +:+ tail
       ∧ Contains tail " " = false ∧ Contains tail "/" = false)
  ∧ GitHub.Description st
    = (GitHub.status_verdict (GitHub.tally results 0 0 []).1.1
         (GitHub.tally results 0 0 []).1.2 (GitHub.tally results 0 0 []).2).2.
Proof.
  intros Hlen Hsent. apply status_of_sent in Hsent as ->.
  unfold GitHub.status_of.
  assert (int64 0) as H0 by (unfold int64; lia).
  rewrite (tally_counts results 0 0 [] H0 H0). cbn [fst snd app].
  assert (int64 (GoFmt.len (Project <$> results))) as Hnames.
  { unfold GoFmt.len in *. by rewrite length_fmap. }
  pose proof (status_context_fits _ Hnames) as [Hc Htail].
  pose proof (status_verdict_fits _ _ _ (wrap64_range (0 + found_vulnerabilities results))
                (wrap64_range (0 + failed_scans results)) Hnames) as [Hd Hstate].
  cbv zeta in Hd, Hstate.
  destruct (GitHub.status_verdict _ _ _) as [state description]. cbn [fst snd] in *.
  assert ((140 <? GoFmt.len_string description) = false) as ->.
  { apply Z.ltb_ge. unfold GoFmt.len_string. lia. }
  cbn [GitHub.Context GitHub.Description GitHub.State].
  split; [done|]. split; [lia|]. split; [|done].
  destruct Hstate as [[-> _]|[-> _]]; by auto.
Qed.

Lemma clean_results (results : list Result) :
  failed_scans results = 0 ∧ found_vulnerabilities results = 0
  ↔ Forall (λ r, Error r = None ∧ Issues r = []) results.
Proof.
  induction results as [|r results IH].
  - split; [by constructor|done].
  - rewrite failed_scans_cons, Forall_cons, <- IH. cbn [found_vulnerabilities foldr].
    fold (found_vulnerabilities results).
    pose proof (failed_scans_bounds results). pose proof (found_vulnerabilities_nonneg results).
    case_bool_decide as E.
    + split.
      * intros [Hf Hv]. assert (List.length (Issues r) = 0%nat) as Hi by lia.
        apply length_zero_iff_nil in Hi. repeat split; [done..|lia|lia].
      * intros [[_ Hi] [Hf Hv]]. rewrite Hi. simpl. lia.
    + split; [lia|]. by intros [[? _] _].
Qed.

(** X21. The state of the commit status is success exactly when every
    scan of the run succeeded and found no vulnerability, and failure
    otherwise; what a failed scan may carry as issues does not count. *)
Theorem X21_commit_status_state (results : list Result) :
  int64 (GoFmt.len results) →
  int64 (found_vulnerabilities results) →
  (GitHub.State (GitHub.status_of results) = "success"
   ↔ Forall (λ r, Error r = None ∧ Issues r = []) results)
  ∧ (GitHub.State (GitHub.status_of results) = "failure"
     ↔ ¬ Forall (λ r, Error r = None ∧ Issues r = []) results).
Proof.
  intros Hlen Hv. rewrite <- clean_results.
  unfold GitHub.status_of.
  assert (int64 0) as H0 by (unfold int64; lia).
  rewrite (tally_counts results 0 0 [] H0 H0). cbn [fst snd app].
  pose proof (failed_scans_bounds results) as Hf.
  pose proof (found_vulnerabilities_nonneg results) as Hn.
  rewrite !Z.add_0_l, !wrap64_small by (unfold int64 in *; lia).
  unfold GitHub.status_verdict.
  destruct (0 <? failed_scans results) eqn:Ef.
  { apply Z.ltb_lt in Ef. destruct (140 <? _); cbn [GitHub.State];
      (split; split; [done | lia | lia | done]). }
  apply Z.ltb_ge in Ef.
  destruct (0 <? found_vulnerabilities results) eqn:Ev.
  { apply Z.ltb_lt in Ev. destruct (140 <? _); cbn [GitHub.State];
      (split; split; [done | lia | lia | done]). }
  apply Z.ltb_ge in Ev.
  destruct (140 <? _); cbn [GitHub.State];
    (split; split; [lia | done | done | lia]).
Qed.

(** X22. [CreateCommitStatus] hands a status to GitHub exactly when it is
    enabled, git knows the commit and the API address parses.  It panics
    in one case only: asked to be verbose with a commit name shorter than
    eight bytes, it cuts that name at eight after GitHub has accepted the
    status. *)
Theorem X22_commit_status_sent_or_skipped os api (results : list Result)
    (config : GitHub.GitHubConfig) (verbose : bool) (s : Git.State) :
  let r := GitHub.CreateCommitStatus os api results config verbose s in
  let commitHash := (Git.GetCommitHash os s).1.1 in
  let address_parses :=
    GitHub.ApiUrl config = ""
    ∨ GitHub.url_Parse api (GitHub.ApiUrl config +:+ "/") = None in
  (is_Some r.1.2
   ↔ GitHub.Enabled config = true ∧ commitHash ≠ "" ∧ address_parses)
  ∧ (r.1.1 = GitHub.Panics
     ↔ GitHub.Enabled config = true ∧ commitHash ≠ "" ∧ address_parses
       ∧ GitHub.CreateStatus api (GitHub.Organization config) (GitHub.Repository config)
           commitHash (GitHub.status_of results) = None
       ∧ verbose = true ∧ (String.length commitHash < 8)%nat).
Proof.
  cbv zeta. unfold GitHub.CreateCommitStatus, Git.GetCommitHash, GoFmt.len_string.
  cbn [fst snd]. rewrite bool_decide_eq_false_2 by (by intros []). cbn [orb].
  set (h := Git.currentCommit (Git.initGitInfoOnce os s)).
  rewrite !is_Some_alt.
  destruct (GitHub.Enabled config); cbn [negb fst snd];
    [|split; split; [tauto | intros (? & _); congruence | done | intros (? & _); congruence]].
  destruct (is_empty h) eqn:Eh; cbn [fst snd].
  { apply is_empty_true in Eh.
    split; split; [tauto | intros (_ & ? & _); congruence | done
                  | intros (_ & ? & _); congruence]. }
  apply is_empty_false in Eh.
  assert (∀ P : Prop, P → (True ↔ true = true ∧ h ≠ "" ∧ P)) as Hyes by tauto.
  destruct (is_empty (GitHub.ApiUrl config)) eqn:Eu; cbn [negb].
  - apply is_empty_true in Eu.
    destruct (GitHub.CreateStatus api _ _ h _) eqn:Ec; cbn [fst snd].
    { split; [apply Hyes; by left|]. split; [done|]. intros (_ & _ & _ & ? & _). congruence. }
    destruct verbose; cbn [andb].
    + destruct (Z.of_nat (String.length h) <? 8) eqn:El; cbn [fst snd].
      * apply Z.ltb_lt in El. split; [apply Hyes; by left|]. split; [|done].
        intros _. repeat (split; [by auto|]). lia.
      * apply Z.ltb_ge in El. split; [apply Hyes; by left|]. split; [done|].
        intros (_ & _ & _ & _ & _ & ?). lia.
    + split; [apply Hyes; by left|]. split; [done|].
      intros (_ & _ & _ & _ & ? & _). congruence.
  - apply is_empty_false in Eu.
    destruct (GitHub.url_Parse api _) eqn:Ep; cbn [fst snd].
    { split.
      - split; [done|]. intros (_ & _ & [?|?]); congruence.
      - split; [done|]. intros (_ & _ & [?|?] & _); congruence. }
    destruct (GitHub.CreateStatus api _ _ h _) eqn:Ec; cbn [fst snd].
    { split; [apply Hyes; by right|]. split; [done|]. intros (_ & _ & _ & ? & _). congruence. }
    destruct verbose; cbn [andb].
    + destruct (Z.of_nat (String.length h) <? 8) eqn:El; cbn [fst snd].
      * apply Z.ltb_lt in El. split; [apply Hyes; by right|]. split; [|done].
        intros _. repeat (split; [by auto|]). lia.
      * apply Z.ltb_ge in El. split; [apply Hyes; by right|]. split; [done|].
        intros (_ & _ & _ & _ & _ & ?). lia.
    + split; [apply Hyes; by right|]. split; [done|].
      intros (_ & _ & _ & _ & ? & _). congruence.
Qed.

Lemma X20_witness :
  GitHub.status_of [spaced_result; vulnerable_result; failed_result]
  = {| GitHub.State := "failure";
       GitHub.Description := "FOSSA scan failed for 1 project(s)";
       GitHub.Context := "ci/fossa-libs-ui-kit-app2-app3" |}
  ∧ (String.length
       (GitHub.Context (GitHub.status_of [spaced_result; vulnerable_result; failed_result]))
     ≤ 255)%nat.
Proof.
  split; [vm_compute; reflexivity|].
  assert (int64 (GoFmt.len [spaced_result; vulnerable_result; failed_result])) as H1
    by (unfold int64, GoFmt.len; simpl; lia).
  assert (GitHub.CreateCommitStatus os_fine api_fine
            [spaced_result; vulnerable_result; failed_result] github_on false Git.initial
          = ((GitHub.Returns None,
              Some (GitHub.status_of [spaced_result; vulnerable_result; failed_result])),
             (GitHub.CreateCommitStatus os_fine api_fine
                [spaced_result; vulnerable_result; failed_result] github_on false
                Git.initial).2)) as H2
    by (vm_compute; reflexivity).
  exact (proj1 (X20_commit_status_fits_github os_fine api_fine _ github_on false
                  Git.initial _ _ _ H1 H2)).
Defined.

Lemma X21_witness :
  GitHub.State (GitHub.status_of [spaced_result]) = "success"
  ∧ GitHub.State (GitHub.status_of [spaced_result; vulnerable_result]) = "failure"
  ∧ Forall (λ r, Error r = None ∧ Issues r = []) [spaced_result].
Proof.
  split; [vm_compute; reflexivity|]. split; [vm_compute; reflexivity|].
  assert (int64 (GoFmt.len [spaced_result])) as H1
    by (unfold int64, GoFmt.len; simpl; lia).
  assert (int64 (found_vulnerabilities [spaced_result])) as H2
    by (unfold int64; simpl; lia).
  assert (GitHub.State (GitHub.status_of [spaced_result]) = "success") as H3
    by (vm_compute; reflexivity).
  exact (proj1 (proj1 (X21_commit_status_state [spaced_result] H1 H2)) H3).
Defined.

Lemma X22_witness :
  (Git.GetCommitHash os_short_hash Git.initial).1.1 = "abc1234"
  ∧ (GitHub.CreateCommitStatus os_short_hash api_fine [spaced_result] github_on true
       Git.initial).1.1 = GitHub.Panics
  ∧ (GitHub.CreateCommitStatus os_short_hash api_fine [spaced_result] github_on false
       Git.initial).1.1 = GitHub.Returns None.
Proof.
  split; [vm_compute; reflexivity|]. split; [|vm_compute; reflexivity].
  apply (proj2 (X22_commit_status_sent_or_skipped os_short_hash api_fine [spaced_result]
                  github_on true Git.initial)).
  split; [reflexivity|]. split; [vm_compute; discriminate|]. split; [by left|].
  split; [reflexivity|]. split; [reflexivity|]. vm_compute. lia.
Defined.

(** ** Package nx: project roots *)

Section Roots.

Variable os : list Resolver.Call → Resolver.Call → Resolver.Response.
Variable json_Unmarshal : string → gmap string Resolver.Value + error.
Variable json_MarshalIndent : gmap string Resolver.Entry → string + error.
Variable Join : string → string → string.

#[local] Abbreviation GetProjectRoot := (Resolver.GetProjectRoot os json_Unmarshal Join).
#[local] Abbreviation determineProjectRoot := (Resolver.determineProjectRoot os json_Unmarshal Join).
#[local] Abbreviation CreateTemporaryPackageJson :=
  (Resolver.CreateTemporaryPackageJson os json_Unmarshal json_MarshalIndent Join).
#[local] Abbreviation perform := (resolver_perform os json_Unmarshal json_MarshalIndent Join).

Lemma first_pattern_cases (patterns : list string) (s : Resolver.State) :
  let r := Resolver.first_pattern os patterns s in
  Resolver.projectRootCache r.2 = Resolver.projectRootCache s
  ∧ match r.1 with
    | Some pattern =>
        ∃ i, patterns !! i = Some pattern
          ∧ Resolver.trace r.2
            = Resolver.trace s ++ (Resolver.Stat <$> take (S i) patterns)
    | None => Resolver.trace r.2 = Resolver.trace s ++ (Resolver.Stat <$> patterns)
    end.
Proof.
  revert s. induction patterns as [|p patterns IH]; intros s; cbn [Resolver.first_pattern].
  - cbn. by rewrite app_nil_r.
  - unfold Resolver.call. cbv zeta.
    destruct (os (Resolver.trace s) (Resolver.Stat p)).2 as [e|]; cbn [fst snd].
    + specialize (IH {| Resolver.projectRootCache := Resolver.projectRootCache s;
                        Resolver.trace := Resolver.trace s ++ [Resolver.Stat p] |}).
      cbv zeta in IH. cbn [Resolver.projectRootCache Resolver.trace] in IH.
      destruct IH as [Hc Ht]. split; [done|].
      destruct (Resolver.first_pattern os patterns _).1 as [pattern|].
      * destruct Ht as (i & Hi & Ht). exists (S i). split; [done|].
        rewrite Ht, <- app_assoc. done.
      * rewrite Ht, <- app_assoc. done.
    + split; [done|]. exists 0%nat. split; [done|]. done.
Qed.

Lemma determineProjectRoot_cache (p : string) (s : Resolver.State) :
  let r := determineProjectRoot p s in
  Resolver.projectRootCache r.2 = Resolver.projectRootCache s
  ∧ ∃ more, Resolver.trace r.2 = Resolver.trace s ++ show_project p :: more.
Proof.
  unfold Resolver.determineProjectRoot, Resolver.call. cbv zeta.
  fold (show_project p).
  destruct (Resolver.reported_root json_Unmarshal _) as [root|]; cbn [fst snd].
  { split; [done|]. by exists []. }
  match goal with |- context [Resolver.first_pattern os ?ps ?s0] =>
    pose proof (first_pattern_cases ps s0) as H;
    destruct (Resolver.first_pattern os ps s0) as [[pattern|] s1] end;
    cbv zeta in H; cbn [fst snd Resolver.projectRootCache Resolver.trace] in *;
    destruct H as [Hc Ht]; (split; [done|]).
  - destruct Ht as (i & _ & Ht). rewrite Ht, <- app_assoc. by eexists.
  - rewrite Ht, <- app_assoc. by eexists.
Qed.

Lemma GetProjectRoot_cached (p root : string) (s : Resolver.State) :
  Resolver.projectRootCache s !! p = Some root →
  GetProjectRoot p s = ((root, None), s).
Proof. intros H. unfold Resolver.GetProjectRoot. by rewrite H. Qed.

Lemma GetProjectRoot_cases (p : string) (s : Resolver.State) :
  let r := GetProjectRoot p s in
  match r.1.2 with
  | None => Resolver.projectRootCache r.2 !! p = Some r.1.1
  | Some _ =>
      r.1.1 = "" ∧ Resolver.projectRootCache s !! p = None
      ∧ Resolver.projectRootCache r.2 = Resolver.projectRootCache s
      ∧ ∃ more, Resolver.trace r.2 = Resolver.trace s ++ show_project p :: more
  end
  ∧ ∀ q root, Resolver.projectRootCache s !! q = Some root →
              Resolver.projectRootCache r.2 !! q = Some root.
Proof.
  unfold Resolver.GetProjectRoot. cbv zeta.
  destruct (Resolver.projectRootCache s !! p) as [root|] eqn:Ec; cbn [fst snd]; [done|].
  pose proof (determineProjectRoot_cache p s) as H. cbv zeta in H.
  destruct (determineProjectRoot p s) as [[root [e|]] s1];
    cbn [fst snd Resolver.projectRootCache Resolver.trace] in *;
    destruct H as [Hc Ht].
  - split; [done|]. intros q r. by rewrite Hc.
  - split; [by rewrite lookup_insert_eq|]. intros q r Hq.
    rewrite lookup_insert_ne by congruence. by rewrite Hc.
Qed.

Lemma write_package_cache (path : string) (doc : gmap string Resolver.Entry)
    (s : Resolver.State) :
  Resolver.projectRootCache (Resolver.write_package os json_MarshalIndent path doc s).2
  = Resolver.projectRootCache s.
Proof.
  unfold Resolver.write_package, Resolver.call.
  destruct (json_MarshalIndent doc) as [data|e]; [|done].
  by destruct (os _ _).2.
Qed.

Lemma CreateTemporaryPackageJson_cache (p root : string) (s : Resolver.State) :
  Resolver.projectRootCache (CreateTemporaryPackageJson p root s).2
  = Resolver.projectRootCache s.
Proof.
  unfold Resolver.CreateTemporaryPackageJson, Resolver.call. cbv zeta.
  destruct (os _ _).2.
  { match goal with |- context [Resolver.write_package os json_MarshalIndent ?a ?b ?c] =>
      pose proof (write_package_cache a b c) as H;
      destruct (Resolver.write_package os json_MarshalIndent a b c) end. done. }
  destruct (Resolver.with_dependencies _ _ _); [|done].
  destruct (Resolver.with_existing _ _ _); [|done].
  match goal with |- context [Resolver.write_package os json_MarshalIndent ?a ?b ?c] =>
    pose proof (write_package_cache a b c) as H;
    destruct (Resolver.write_package os json_MarshalIndent a b c) end. done.
Qed.

Lemma resolver_perform_keeps (s : Resolver.State) (c : ResolverCall) (q root : string) :
  Resolver.projectRootCache s !! q = Some root →
  Resolver.projectRootCache (perform s c) !! q = Some root.
Proof.
  destruct c as [p|p r]; simpl.
  - apply GetProjectRoot_cases.
  - by rewrite CreateTemporaryPackageJson_cache.
Qed.

Lemma resolver_perform_all_keeps (calls : list ResolverCall) (s : Resolver.State)
    (q root : string) :
  Resolver.projectRootCache s !! q = Some root →
  Resolver.projectRootCache (foldl perform s calls) !! q = Some root.
Proof.
  revert s. induction calls as [|c calls IH]; intros s H; simpl; [done|].
  by apply IH, resolver_perform_keeps.
Qed.

(** X23. The root of a project is cached on success only.  Once
    [GetProjectRoot] has answered for a project, every later call for it
    gives the same root without asking the outside world, whatever was
    resolved or written in between.  A failure returns the empty string,
    caches nothing, and the next call for the project runs nx again. *)
Theorem X23_project_root_cached_on_success_only (p : string) (s s1 : Resolver.State) :
  (∀ root (calls : list ResolverCall),
     GetProjectRoot p s = ((root, None), s1) →
     let s2 := foldl perform s1 calls in
     GetProjectRoot p s2 = ((root, None), s2))
  ∧ (∀ r e,
       GetProjectRoot p s = ((r, Some e), s1) →
       r = "" ∧ Resolver.projectRootCache s1 = Resolver.projectRootCache s
       ∧ ∃ more, Resolver.trace (GetProjectRoot p s1).2
                 = Resolver.trace s1 ++ show_project p :: more).
Proof.
  pose proof (GetProjectRoot_cases p s) as H. cbv zeta in H.
  split.
  - intros root calls Hcall. rewrite Hcall in H. cbn [fst snd] in H.
    destruct H as [Hp _]. cbv zeta.
    apply GetProjectRoot_cached. by apply resolver_perform_all_keeps.
  - intros r e Hcall. rewrite Hcall in H. cbn [fst snd] in H.
    destruct H as [(-> & Hnone & Hsame & _) _]. repeat (split; [done|]).
    unfold Resolver.GetProjectRoot. rewrite Hsame, Hnone.
    pose proof (determineProjectRoot_cache p s1) as (_ & more & Ht).
    destruct (determineProjectRoot p s1) as [[root' [e'|]] s2]; cbn [fst snd] in *;
      by exists more.
Qed.




End Roots.

Lemma X23_witness :
  Resolver.GetProjectRoot os_project json_sample join_sample "app1" Resolver.initial
  = (("apps/app1", None),
     (Resolver.GetProjectRoot os_project json_sample join_sample "app1"
        Resolver.initial).2)
  ∧ (let s2 :=
       foldl (resolver_perform os_project json_sample marshal_sample join_sample)
         (Resolver.GetProjectRoot os_project json_sample join_sample "app1"
            Resolver.initial).2
         [AskProjectRoot "@scope/ui"; AskPackageJson "app1" "apps/app1"] in
     Resolver.GetProjectRoot os_project json_sample join_sample "app1" s2
     = (("apps/app1", None), s2)).
Proof.
  assert (Resolver.GetProjectRoot os_project json_sample join_sample "app1"
            Resolver.initial
          = (("apps/app1", None),
             (Resolver.GetProjectRoot os_project json_sample join_sample "app1"
                Resolver.initial).2)) as H
    by (vm_compute; reflexivity).
  split; [exact H|].
  exact (proj1 (X23_project_root_cached_on_success_only os_project json_sample
                  marshal_sample join_sample "app1" Resolver.initial _)
           "apps/app1" [AskProjectRoot "@scope/ui"; AskPackageJson "app1" "apps/app1"] H).
Defined.


(** ** Package nx: the temporary package.json *)

Lemma strings_of_cons (v : Resolver.Value) (vs : list Resolver.Value) :
  strings_of (v :: vs)
  = match v with
    | Resolver.VString s => s :: strings_of vs
    | _ => strings_of vs
    end.
Proof. by destruct v. Qed.

Lemma add_dependencies_lookup (deps : list Resolver.Value) (d : gmap string string)
    (k : string) :
  Resolver.add_dependencies deps d !! k
  = if bool_decide (k ∈ strings_of deps) then Some "^1.0.0" else d !! k.
Proof.
  unfold Resolver.add_dependencies. revert d.
  induction deps as [|v deps IH]; intros d; cbn [foldl].
  - rewrite bool_decide_eq_false_2; [done|]. intros H. inversion H.
  - rewrite IH, strings_of_cons. destruct v as [s| | |]; try done.
    destruct (decide (k ∈ strings_of deps)) as [Hin|Hout].
    + rewrite !bool_decide_eq_true_2; [done|by right|done].
    + rewrite (bool_decide_eq_false_2 _ Hout).
      destruct (decide (k = s)) as [->|Hne].
      * rewrite lookup_insert_eq, bool_decide_eq_true_2; [done|by left].
      * rewrite lookup_insert_ne by done. rewrite bool_decide_eq_false_2; [done|].
        intros [->|H]%elem_of_cons; done.
Qed.

Lemma copy_properties_lookup (l : list (string * Resolver.Value))
    (packageJSON : gmap string Resolver.Entry) (k : string) :
  NoDup l.*1 →
  foldl (λ packageJSON kv,
           if bool_decide (kv.1 ≠ "dependencies")
           then <[kv.1 := Resolver.Plain kv.2]> packageJSON
           else packageJSON) packageJSON l !! k
  = if bool_decide (k ≠ "dependencies")
    then match (list_to_map l : gmap string Resolver.Value) !! k with
         | Some v => Some (Resolver.Plain v)
         | None => packageJSON !! k
         end
    else packageJSON !! k.
Proof.
  revert packageJSON. induction l as [|[k0 v0] l IH]; intros pj Hnd; cbn [foldl].
  - change (list_to_map [] : gmap string Resolver.Value) with (∅ : gmap string Resolver.Value).
    rewrite lookup_empty. by case_bool_decide.
  - apply NoDup_cons in Hnd as [Hk0 Hnd]. rewrite IH by done. cbn [fst snd list_to_map foldr].
    case_bool_decide as Hk; [|by case_bool_decide; rewrite ?lookup_insert_ne by congruence].
    destruct (decide (k = k0)) as [->|Hne].
    + rewrite lookup_insert_eq.
      rewrite (not_elem_of_list_to_map_1 _ _ Hk0).
      by rewrite bool_decide_eq_true_2, lookup_insert_eq.
    + rewrite lookup_insert_ne by done.
      destruct (list_to_map l !! k); [done|].
      case_bool_decide; by rewrite ?lookup_insert_ne.
Qed.

Lemma merge_properties_lookup (existingPackage : gmap string Resolver.Value)
    (packageJSON : gmap string Resolver.Entry) (k : string) :
  Resolver.merge_properties existingPackage packageJSON !! k
  = if bool_decide (k ≠ "dependencies")
    then match existingPackage !! k with
         | Some v => Some (Resolver.Plain v)
         | None => packageJSON !! k
         end
    else packageJSON !! k.
Proof.
  unfold Resolver.merge_properties.
  rewrite copy_properties_lookup by apply NoDup_fst_map_to_list.
  by rewrite list_to_map_to_list.
Qed.

Lemma copy_dependencies_spec (l : list (string * Resolver.Value))
    (packageJSON : gmap string Resolver.Entry) (d : gmap string string) :
  NoDup l.*1 →
  packageJSON !! "dependencies" = Some (Resolver.StringMap d) →
  ∃ packageJSON' d',
    foldl (λ packageJSON kv,
             match kv.2 with
             | Resolver.VString vStr => packageJSON ≫= Resolver.set_dependency kv.1 vStr
             | _ => packageJSON
             end) (Some packageJSON) l = Some packageJSON'
    ∧ packageJSON' !! "dependencies" = Some (Resolver.StringMap d')
    ∧ (∀ k, k ≠ "dependencies" → packageJSON' !! k = packageJSON !! k)
    ∧ ∀ k, d' !! k
           = match (list_to_map l : gmap string Resolver.Value) !! k with
             | Some (Resolver.VString v) => Some v
             | _ => d !! k
             end.
Proof.
  revert packageJSON d. induction l as [|[k0 v0] l IH]; intros pj d Hnd Hd; cbn [foldl].
  - exists pj, d. split; [done|]. split; [done|]. split; [done|]. intros k.
    change (list_to_map [] : gmap string Resolver.Value)
      with (∅ : gmap string Resolver.Value).
    by rewrite lookup_empty.
  - apply NoDup_cons in Hnd as [Hk0 Hnd]. cbn [fst snd].
    change (list_to_map ((k0, v0) :: l) : gmap string Resolver.Value)
      with (<[k0:=v0]> (list_to_map l) : gmap string Resolver.Value).
    assert ((list_to_map l : gmap string Resolver.Value) !! k0 = None) as Hnone
      by (by apply not_elem_of_list_to_map_1).
    assert ((∀ v, v0 = Resolver.VString v → False) ∨ (∃ v, v0 = Resolver.VString v))
      as [Hother|[v ->]].
    { destruct v0; eauto; left; intros ? [=]. }
    + (* not a string: nothing is assigned *)
      assert (match v0 with
              | Resolver.VString vStr => Some pj ≫= Resolver.set_dependency k0 vStr
              | _ => Some pj
              end = Some pj) as ->.
      { destruct v0; try done. by destruct (Hother s). }
      destruct (IH pj d Hnd Hd) as (pj' & d' & Hf & Hd' & Hsame & Hk).
      exists pj', d'. split; [done|]. split; [done|]. split; [done|].
      intros k. rewrite Hk. destruct (decide (k = k0)) as [->|Hne].
      * rewrite lookup_insert_eq, Hnone. destruct v0; try done. by destruct (Hother s).
      * by rewrite lookup_insert_ne.
    + (* a string: the dependency is set *)
      change (Some pj ≫= Resolver.set_dependency k0 v)
        with (Resolver.set_dependency k0 v pj).
      replace (Resolver.set_dependency k0 v pj)
        with (Some (<["dependencies" := Resolver.StringMap (<[k0:=v]> d)]> pj))
        by (unfold Resolver.set_dependency; by rewrite Hd).
      destruct (IH (<["dependencies" := Resolver.StringMap (<[k0:=v]> d)]> pj)
                  (<[k0:=v]> d) Hnd) as (pj' & d' & Hf & Hd' & Hsame & Hk).
      { by rewrite lookup_insert_eq. }
      exists pj', d'. split; [done|]. split; [done|]. split.
      * intros k Hne. rewrite Hsame by done. by rewrite lookup_insert_ne.
      * intros k. rewrite Hk. destruct (decide (k = k0)) as [->|Hne].
        -- by rewrite !lookup_insert_eq, Hnone.
        -- by rewrite !lookup_insert_ne.
Qed.

Lemma merge_dependencies_spec (existingDeps : gmap string Resolver.Value)
    (packageJSON : gmap string Resolver.Entry) (d : gmap string string) :
  packageJSON !! "dependencies" = Some (Resolver.StringMap d) →
  ∃ packageJSON' d',
    Resolver.merge_dependencies existingDeps packageJSON = Some packageJSON'
    ∧ packageJSON' !! "dependencies" = Some (Resolver.StringMap d')
    ∧ (∀ k, k ≠ "dependencies" → packageJSON' !! k = packageJSON !! k)
    ∧ ∀ k, d' !! k
           = match existingDeps !! k with
             | Some (Resolver.VString v) => Some v
             | _ => d !! k
             end.
Proof.
  intros Hd. unfold Resolver.merge_dependencies.
  destruct (copy_dependencies_spec (map_to_list existingDeps) packageJSON d
              (NoDup_fst_map_to_list _) Hd) as (pj' & d' & Hf & Hd' & Hsame & Hk).
  exists pj', d'. repeat split; [done..|].
  intros k. by rewrite Hk, list_to_map_to_list.
Qed.

Section PackageJson.

Variable os : list Resolver.Call → Resolver.Call → Resolver.Response.
Variable json_Unmarshal : string → gmap string Resolver.Value + error.
Variable json_MarshalIndent : gmap string Resolver.Entry → string + error.
Variable Join : string → string → string.

#[local] Abbreviation CreateTemporaryPackageJson :=
  (Resolver.CreateTemporaryPackageJson os json_Unmarshal json_MarshalIndent Join).

Lemma basic_package_dependencies (p : string) :
  Resolver.basic_package p !! "dependencies" = Some (Resolver.StringMap ∅).
Proof.
  unfold Resolver.basic_package.
  rewrite !lookup_insert_ne by done. by rewrite lookup_singleton_eq.
Qed.

Lemma with_dependencies_spec (p depOutput : string) :
  ∃ packageJSON d,
    Resolver.with_dependencies json_Unmarshal depOutput (Resolver.basic_package p)
    = Some packageJSON
    ∧ packageJSON !! "dependencies" = Some (Resolver.StringMap d)
    ∧ (∀ k, k ≠ "dependencies" → packageJSON !! k = Resolver.basic_package p !! k)
    ∧ ∀ k, d !! k
           = if bool_decide (k ∈ listed_dependencies json_Unmarshal depOutput)
             then Some "^1.0.0" else None.
Proof.
  unfold Resolver.with_dependencies, listed_dependencies.
  assert (∃ packageJSON d,
            Some (Resolver.basic_package p) = Some packageJSON
            ∧ packageJSON !! "dependencies" = Some (Resolver.StringMap d)
            ∧ (∀ k, k ≠ "dependencies" → packageJSON !! k = Resolver.basic_package p !! k)
            ∧ ∀ k, d !! k = if bool_decide (k ∈ (@nil string)) then Some "^1.0.0" else None)
    as Hnone.
  { exists (Resolver.basic_package p), ∅. split; [done|].
    split; [apply basic_package_dependencies|]. split; [done|].
    intros k. rewrite lookup_empty, bool_decide_eq_false_2; [done|].
    intros H. inversion H. }
  destruct (json_Unmarshal depOutput) as [depInfo|e]; [|done].
  rewrite basic_package_dependencies.
  destruct (depInfo !! "dependencies") as [[s|deps|o|raw]|]; try done.
  eexists _, _. split; [done|]. split; [by rewrite lookup_insert_eq|]. split.
  - intros k Hk. by rewrite lookup_insert_ne.
  - intros k. by rewrite add_dependencies_lookup, lookup_empty.
Qed.

Lemma with_existing_spec (existing : Resolver.Response)
    (packageJSON : gmap string Resolver.Entry) (d : gmap string string) :
  packageJSON !! "dependencies" = Some (Resolver.StringMap d) →
  ∃ doc d',
    Resolver.with_existing json_Unmarshal existing packageJSON = Some doc
    ∧ doc !! "dependencies" = Some (Resolver.StringMap d')
    ∧ (∀ k, k ≠ "dependencies" →
            doc !! k = match existing_package json_Unmarshal existing !! k with
                       | Some v => Some (Resolver.Plain v)
                       | None => packageJSON !! k
                       end)
    ∧ ∀ k, d' !! k
           = match existing_dependencies (existing_package json_Unmarshal existing) !! k with
             | Some (Resolver.VString v) => Some v
             | _ => d !! k
             end.
Proof.
  intros Hd. unfold Resolver.with_existing, existing_package.
  assert (∃ doc d',
            Some packageJSON = Some doc
            ∧ doc !! "dependencies" = Some (Resolver.StringMap d')
            ∧ (∀ k, k ≠ "dependencies" →
                    doc !! k = match (∅ : gmap string Resolver.Value) !! k with
                               | Some v => Some (Resolver.Plain v)
                               | None => packageJSON !! k
                               end)
            ∧ ∀ k, d' !! k
                   = match existing_dependencies ∅ !! k with
                     | Some (Resolver.VString v) => Some v
                     | _ => d !! k
                     end) as Hsame.
  { exists packageJSON, d. split; [done|]. split; [done|]. split.
    - intros k _. by rewrite lookup_empty.
    - intros k. unfold existing_dependencies. by rewrite !lookup_empty. }
  destruct existing.2; [done|].
  destruct (json_Unmarshal existing.1) as [existingPackage|e]; [|done].
  clear Hsame. cbv zeta.
  set (merged := Resolver.merge_properties existingPackage packageJSON).
  assert (merged !! "dependencies" = Some (Resolver.StringMap d)) as Hmd.
  { subst merged. rewrite merge_properties_lookup.
    rewrite bool_decide_eq_false_2; [done|]. by intros []. }
  assert (∀ k, k ≠ "dependencies" →
            merged !! k = match existingPackage !! k with
                          | Some v => Some (Resolver.Plain v)
                          | None => packageJSON !! k
                          end) as Hmk.
  { intros k Hk. subst merged. rewrite merge_properties_lookup.
    by rewrite bool_decide_eq_true_2. }
  unfold existing_dependencies.
  destruct (existingPackage !! "dependencies") as [[s|a|existingDeps|raw]|] eqn:Eed;
    try (exists merged, d; split; [done|]; split; [done|]; split; [done|];
         intros k; by rewrite lookup_empty).
  destruct (merge_dependencies_spec existingDeps merged d Hmd)
    as (doc & d' & Hf & Hd' & Hsame & Hk).
  exists doc, d'. split; [done|]. split; [done|]. split; [|done].
  intros k Hne. rewrite Hsame by done. by apply Hmk.
Qed.

Lemma write_package_cases (path : string) (doc : gmap string Resolver.Entry)
    (s : Resolver.State) :
  let r := Resolver.write_package os json_MarshalIndent path doc s in
  match r.1.2 with
  | None =>
      r.1.1 = path
      ∧ ∃ data, json_MarshalIndent doc = inl data
          ∧ Resolver.trace r.2 = Resolver.trace s ++ [Resolver.WriteFile path data]
  | Some _ => r.1.1 = ""
  end.
Proof.
  unfold Resolver.write_package, Resolver.call. cbv zeta.
  destruct (json_MarshalIndent doc) as [data|e]; [|done].
  destruct (os _ _).2; cbn [fst snd]; [done|]. split; [done|]. by exists data.
Qed.

(** The document and where it goes, in the two cases of the function. *)
Lemma CreateTemporaryPackageJson_document (p root : string) (s : Resolver.State) :
  let path := Join root "package.json" in
  let dep := os (Resolver.trace s) (show_dependencies p) in
  let s1 := {| Resolver.projectRootCache := Resolver.projectRootCache s;
               Resolver.trace := Resolver.trace s ++ [show_dependencies p] |} in
  let s2 := {| Resolver.projectRootCache := Resolver.projectRootCache s;
               Resolver.trace := Resolver.trace s
                                 ++ [show_dependencies p; Resolver.ReadFile path] |} in
  let existing :=
    existing_package json_Unmarshal
      (os (Resolver.trace s ++ [show_dependencies p]) (Resolver.ReadFile path)) in
  match dep.2 with
  | Some _ =>
      CreateTemporaryPackageJson p root s
      = (Resolver.Returns
           (Resolver.write_package os json_MarshalIndent path (Resolver.basic_package p) s1).1,
         (Resolver.write_package os json_MarshalIndent path (Resolver.basic_package p) s1).2)
  | None =>
      ∃ doc d,
        CreateTemporaryPackageJson p root s
        = (Resolver.Returns (Resolver.write_package os json_MarshalIndent path doc s2).1,
           (Resolver.write_package os json_MarshalIndent path doc s2).2)
        ∧ doc !! "dependencies" = Some (Resolver.StringMap d)
        ∧ (∀ k, k ≠ "dependencies" →
                doc !! k = match existing !! k with
                           | Some v => Some (Resolver.Plain v)
                           | None => Resolver.basic_package p !! k
                           end)
        ∧ ∀ k, d !! k
               = match existing_dependencies existing !! k with
                 | Some (Resolver.VString v) => Some v
                 | _ => if bool_decide (k ∈ listed_dependencies json_Unmarshal dep.1)
                        then Some "^1.0.0" else None
                 end
  end.
Proof.
  cbv zeta. unfold Resolver.CreateTemporaryPackageJson, Resolver.call. cbv zeta.
  fold (show_dependencies p).
  destruct (os (Resolver.trace s) (show_dependencies p)) as [depOutput [e|]];
    cbn [fst snd Resolver.projectRootCache Resolver.trace].
  { by destruct (Resolver.write_package _ _ _ _ _). }
  destruct (with_dependencies_spec p depOutput) as (pj1 & d1 & -> & Hd1 & Hk1 & Hl1).
  destruct (with_existing_spec
              (os (Resolver.trace s ++ [show_dependencies p])
                 (Resolver.ReadFile (Join root "package.json"))) pj1 d1 Hd1)
    as (doc & d & -> & Hd & Hk & Hl).
  exists doc, d. rewrite <- app_assoc. cbn [app].
  split; [by destruct (Resolver.write_package _ _ _ _ _)|].
  split; [done|]. split.
  - intros k Hne. rewrite Hk by done.
    destruct (existing_package _ _ !! k); [done|]. by apply Hk1.
  - intros k. by rewrite Hl, Hl1.
Qed.

(** X25. [CreateTemporaryPackageJson] never fails a type assertion.  When
    it returns without an error it has written one file, package.json in
    the project root, and the document written always has a name, a
    version and a map of dependencies.  When nx cannot list the
    dependencies, that document is the bare one (the project's name,
    version 1.0.0, no dependencies) and the file that was there is
    overwritten without having been read. *)
Theorem X25_temporary_package_json_is_well_formed (p root : string) (s : Resolver.State) :
  let r := CreateTemporaryPackageJson p root s in
  let path := Join root "package.json" in
  r.1 ≠ Resolver.Panics
  ∧ (∀ result, r.1 = Resolver.Returns (result, None) →
       result = path
       ∧ ∃ doc data d,
           json_MarshalIndent doc = inl data
           ∧ (Resolver.trace r.2
              = Resolver.trace s ++ [show_dependencies p; Resolver.WriteFile path data]
              ∨ Resolver.trace r.2
                = Resolver.trace s
                  ++ [show_dependencies p; Resolver.ReadFile path;
                      Resolver.WriteFile path data])
           ∧ doc !! "dependencies" = Some (Resolver.StringMap d)
           ∧ is_Some (doc !! "name") ∧ is_Some (doc !! "version"))
  ∧ (∀ e, (os (Resolver.trace s) (show_dependencies p)).2 = Some e →
       ∀ result, r.1 = Resolver.Returns (result, None) →
       ∃ data,
         json_MarshalIndent (Resolver.basic_package p) = inl data
         ∧ Resolver.trace r.2
           = Resolver.trace s ++ [show_dependencies p; Resolver.WriteFile path data]).
Proof.
  cbv zeta. pose proof (CreateTemporaryPackageJson_document p root s) as H. cbv zeta in H.
  destruct (os (Resolver.trace s) (show_dependencies p)).2 as [e|] eqn:Edep.
  - rewrite H. cbn [fst snd].
    match goal with |- context [Resolver.write_package os json_MarshalIndent ?a ?b ?c] =>
      pose proof (write_package_cases a b c) as W;
      destruct (Resolver.write_package os json_MarshalIndent a b c) as [[res err] s'] end.
    cbv zeta in W. cbn [fst snd Resolver.trace] in *.
    split; [done|]. split.
    + intros result [= <- ->]. destruct W as (-> & data & Hm & Ht). split; [done|].
      exists (Resolver.basic_package p), data, ∅. split; [done|]. split.
      { left. rewrite Ht, <- app_assoc. done. }
      split; [apply basic_package_dependencies|].
      unfold Resolver.basic_package. split.
      * rewrite lookup_insert_eq. by eexists.
      * rewrite lookup_insert_ne by done. rewrite lookup_insert_eq. by eexists.
    + intros e' _ result [= <- ->]. destruct W as (-> & data & Hm & Ht).
      exists data. split; [done|]. rewrite Ht, <- app_assoc. done.
  - destruct H as (doc & d & -> & Hd & Hk & Hl). cbn [fst snd].
    match goal with |- context [Resolver.write_package os json_MarshalIndent ?a ?b ?c] =>
      pose proof (write_package_cases a b c) as W;
      destruct (Resolver.write_package os json_MarshalIndent a b c) as [[res err] s'] end.
    cbv zeta in W. cbn [fst snd Resolver.trace] in *.
    split; [done|]. split; [|done].
    intros result [= <- ->]. destruct W as (-> & data & Hm & Ht). split; [done|].
    exists doc, data, d. split; [done|]. split.
    { right. rewrite Ht, <- app_assoc. done. }
    split; [done|].
    rewrite !Hk by done. unfold Resolver.basic_package. split.
    + destruct (existing_package _ _ !! "name"); [by eexists|].
      rewrite lookup_insert_eq. by eexists.
    + destruct (existing_package _ _ !! "version"); [by eexists|].
      rewrite lookup_insert_ne by done. rewrite lookup_insert_eq. by eexists.
Qed.

(** X26. How the document is merged when nx lists the dependencies.  Every
    property of the package.json that is there, [dependencies] apart, is
    taken over as it is, a name and a version included; only a name or
    a version the file does not have gets the default.  A dependency the
    file pins with a string keeps that version; a project nx lists and
    the file does not pin gets [^1.0.0]; nothing else is a dependency.
    The order in which Go walks its maps has no part in it. *)
Theorem X26_existing_package_json_wins (p root result : string) (s : Resolver.State) :
  let r := CreateTemporaryPackageJson p root s in
  let path := Join root "package.json" in
  let dep := os (Resolver.trace s) (show_dependencies p) in
  let existing :=
    existing_package json_Unmarshal
      (os (Resolver.trace s ++ [show_dependencies p]) (Resolver.ReadFile path)) in
  dep.2 = None →
  r.1 = Resolver.Returns (result, None) →
  ∃ doc data d,
    json_MarshalIndent doc = inl data
    ∧ Resolver.trace r.2
      = Resolver.trace s
        ++ [show_dependencies p; Resolver.ReadFile path; Resolver.WriteFile path data]
    ∧ doc !! "dependencies" = Some (Resolver.StringMap d)
    ∧ (∀ k, k ≠ "dependencies" →
            doc !! k = match existing !! k with
                       | Some v => Some (Resolver.Plain v)
                       | None => Resolver.basic_package p !! k
                       end)
    ∧ ∀ k, d !! k
           = match existing_dependencies existing !! k with
             | Some (Resolver.VString v) => Some v
             | _ => if bool_decide (k ∈ listed_dependencies json_Unmarshal dep.1)
                    then Some "^1.0.0" else None
             end.
Proof.
  cbv zeta. intros Edep.
  pose proof (CreateTemporaryPackageJson_document p root s) as H. cbv zeta in H.
  rewrite Edep in H. destruct H as (doc & d & -> & Hd & Hk & Hl). cbn [fst snd].
  match goal with |- context [Resolver.write_package os json_MarshalIndent ?a ?b ?c] =>
    pose proof (write_package_cases a b c) as W;
    destruct (Resolver.write_package os json_MarshalIndent a b c) as [[res err] s'] end.
  cbv zeta in W. cbn [fst snd Resolver.trace] in *.
  intros [= <- ->]. destruct W as (-> & data & Hm & Ht).
  exists doc, data, d. split; [done|]. split; [by rewrite Ht, <- app_assoc|]. done.
Qed.

End PackageJson.

Lemma X25_witness :
  let r :=
    Resolver.CreateTemporaryPackageJson os_project json_sample marshal_sample join_sample
      "app1" "apps/app1" Resolver.initial in
  let path := join_sample "apps/app1" "package.json" in
  r.1 = Resolver.Returns ("apps/app1/package.json", None)
  ∧ ("apps/app1/package.json" = path
     ∧ ∃ doc data d,
         marshal_sample doc = inl data
         ∧ (Resolver.trace r.2
            = Resolver.trace Resolver.initial
              ++ [show_dependencies "app1"; Resolver.WriteFile path data]
            ∨ Resolver.trace r.2
              = Resolver.trace Resolver.initial
                ++ [show_dependencies "app1"; Resolver.ReadFile path;
                    Resolver.WriteFile path data])
         ∧ doc !! "dependencies" = Some (Resolver.StringMap d)
         ∧ is_Some (doc !! "name") ∧ is_Some (doc !! "version")).
Proof.
  cbv zeta.
  assert ((Resolver.CreateTemporaryPackageJson os_project json_sample marshal_sample
             join_sample "app1" "apps/app1" Resolver.initial).1
          = Resolver.Returns ("apps/app1/package.json", None)) as H
    by (vm_compute; reflexivity).
  split; [exact H|].
  exact (proj1 (proj2 (X25_temporary_package_json_is_well_formed os_project json_sample
                         marshal_sample join_sample "app1" "apps/app1" Resolver.initial))
           "apps/app1/package.json" H).
Defined.

Lemma X26_witness :
  let r :=
    Resolver.CreateTemporaryPackageJson os_project json_sample marshal_sample join_sample
      "app1" "apps/app1" Resolver.initial in
  let path := join_sample "apps/app1" "package.json" in
  let dep := os_project (Resolver.trace Resolver.initial) (show_dependencies "app1") in
  let existing :=
    existing_package json_sample
      (os_project (Resolver.trace Resolver.initial ++ [show_dependencies "app1"])
         (Resolver.ReadFile path)) in
  existing_dependencies existing !! "lib-a" = Some (Resolver.VString "2.3.4")
  ∧ listed_dependencies json_sample dep.1 = ["lib-a"; "lib-b"]
  ∧ ∃ doc data d,
      marshal_sample doc = inl data
      ∧ Resolver.trace r.2
        = Resolver.trace Resolver.initial
          ++ [show_dependencies "app1"; Resolver.ReadFile path;
              Resolver.WriteFile path data]
      ∧ doc !! "dependencies" = Some (Resolver.StringMap d)
      ∧ (∀ k, k ≠ "dependencies" →
              doc !! k = match existing !! k with
                         | Some v => Some (Resolver.Plain v)
                         | None => Resolver.basic_package "app1" !! k
                         end)
      ∧ ∀ k, d !! k
             = match existing_dependencies existing !! k with
               | Some (Resolver.VString v) => Some v
               | _ => if bool_decide (k ∈ listed_dependencies json_sample dep.1)
                      then Some "^1.0.0" else None
               end.
Proof.
  cbv zeta.
  split; [vm_compute; reflexivity|]. split; [vm_compute; reflexivity|].
  assert ((Resolver.CreateTemporaryPackageJson os_project json_sample marshal_sample
             join_sample "app1" "apps/app1" Resolver.initial).1
          = Resolver.Returns ("apps/app1/package.json", None)) as H
    by (vm_compute; reflexivity).
  exact (X26_existing_package_json_wins os_project json_sample marshal_sample join_sample
           "app1" "apps/app1" "apps/app1/package.json" Resolver.initial eq_refl H).
Defined.

(** ** Package fossa: the analysis of one project *)

Ltac tidy :=
  cbn [fst snd Analysis.resolver Analysis.set_resolver Analysis.set_fossa
       Analysis.set_mapping Analysis.fossa Analysis.mapping Resolver.trace
       Resolver.projectRootCache] in *.

Ltac no_member Hin :=
  repeat (apply elem_of_cons in Hin as [Hin|Hin]; [discriminate Hin|]);
  by apply elem_of_nil in Hin.

Ltac same_list :=
  repeat (progress (cbn [app]; rewrite <- ?app_assoc)); reflexivity.

Lemma mapped_settled env (p : string) (m m1 : Mapping.State) :
  Mapping.IsProjectMapped env p m = (Mapping.Returns true, m1) →
  Mapping.configOnce m1 = true
  ∧ ∃ c id, Mapping.globalConfig m1 = Some c ∧ Mapping.configError m1 = None
      ∧ Mapping.Projects (Mapping.Fossa c) !! p = Some id
      ∧ (Mapping.LoadConfig env m).1 = (Some c, None).
Proof.
  intros H. pose proof (IsProjectMapped_state env p m) as Hs. rewrite H in Hs.
  cbn [snd] in Hs.
  destruct (LoadConfig_cases env m) as (Ho & Hr & _). cbv zeta in *.
  unfold Mapping.IsProjectMapped in H. rewrite <- Hs in *.
  destruct (Mapping.LoadConfig env m) as [[[c|] [e|]] s2]; cbn [fst snd] in *; try done.
  subst s2. injection H as H. apply bool_decide_eq_true in H as [id Hid].
  injection Hr as Hc He. split; [done|]. by exists c, id.
Qed.

Lemma config_or_exit_settled {A} env (k : Mapping.Config → A) (m : Mapping.State)
    (c : Mapping.Config) :
  Mapping.configOnce m = true → Mapping.globalConfig m = Some c →
  Mapping.configError m = None →
  Mapping.config_or_exit env k m = (Mapping.Returns (k c), m).
Proof.
  intros Ho Hc He. unfold Mapping.config_or_exit.
  rewrite (LoadConfig_settled _ _ Ho), Hc, He. done.
Qed.

Lemma determineProjectRoot_plain os json_Unmarshal Join (p : string) (s : Resolver.State) :
  ∃ more,
    Resolver.trace (Resolver.determineProjectRoot os json_Unmarshal Join p s).2
    = Resolver.trace s ++ more
    ∧ Forall plain_call more.
Proof.
  unfold Resolver.determineProjectRoot, Resolver.call. cbv zeta.
  destruct (Resolver.reported_root json_Unmarshal _) as [root|]; cbn [fst snd].
  { eexists. split; [done|]. by repeat constructor. }
  match goal with |- context [Resolver.first_pattern os ?ps ?s0] =>
    pose proof (first_pattern_cases os ps s0) as H;
    destruct (Resolver.first_pattern os ps s0) as [[pattern|] s1] end;
    cbv zeta in H; cbn [fst snd Resolver.projectRootCache Resolver.trace] in *;
    destruct H as [_ Ht].
  - destruct Ht as (i & _ & ->). rewrite <- app_assoc. eexists. split; [done|].
    constructor; [done|]. apply Forall_fmap, Forall_true. done.
  - rewrite Ht, <- app_assoc. eexists. split; [done|].
    constructor; [done|]. apply Forall_fmap, Forall_true. done.
Qed.

Lemma GetProjectRoot_plain os json_Unmarshal Join (p : string) (s : Resolver.State) :
  ∃ more,
    Resolver.trace (Resolver.GetProjectRoot os json_Unmarshal Join p s).2
    = Resolver.trace s ++ more
    ∧ Forall plain_call more.
Proof.
  unfold Resolver.GetProjectRoot.
  destruct (Resolver.projectRootCache s !! p).
  { exists []. by rewrite app_nil_r. }
  pose proof (determineProjectRoot_plain os json_Unmarshal Join p s) as (more & Ht & Hp).
  destruct (Resolver.determineProjectRoot os json_Unmarshal Join p s) as [[root [e|]] s1];
    by exists more.
Qed.

Lemma write_package_plain os json_MarshalIndent (path : string)
    (doc : gmap string Resolver.Entry) (s : Resolver.State) :
  let r := Resolver.write_package os json_MarshalIndent path doc s in
  ∃ more,
    Resolver.trace r.2 = Resolver.trace s ++ more
    ∧ Forall plain_call more
    ∧ (r.1.2 = None → ∃ data, more = [Resolver.WriteFile path data]).
Proof.
  unfold Resolver.write_package, Resolver.call. cbv zeta.
  destruct (json_MarshalIndent doc) as [data|e]; cbn [fst snd].
  - destruct (os _ _).2; cbn [fst snd Resolver.trace].
    + eexists. split; [done|]. split; [by repeat constructor|done].
    + eexists. split; [done|]. split; [by repeat constructor|]. by eexists.
  - exists []. rewrite app_nil_r. by split.
Qed.

Lemma CreateTemporaryPackageJson_plain os json_Unmarshal json_MarshalIndent Join
    (p root : string) (s : Resolver.State) :
  let r := Resolver.CreateTemporaryPackageJson os json_Unmarshal json_MarshalIndent Join
             p root s in
  r.1 ≠ Resolver.Panics
  ∧ ∃ more,
      Resolver.trace r.2 = Resolver.trace s ++ more
      ∧ Forall plain_call more
      ∧ (∀ result, r.1 = Resolver.Returns (result, None) →
           ∃ h data, more = h ++ [Resolver.WriteFile (Join root "package.json") data]).
Proof.
  cbv zeta.
  pose proof (CreateTemporaryPackageJson_document os json_Unmarshal json_MarshalIndent
                Join p root s) as H. cbv zeta in H.
  destruct (os (Resolver.trace s) (show_dependencies p)).2 as [e|].
  - rewrite H. cbn [fst snd].
    match goal with |- context [Resolver.write_package os json_MarshalIndent ?a ?b ?c] =>
      pose proof (write_package_plain os json_MarshalIndent a b c) as W end.
    cbv zeta in W. destruct W as (more & Ht & Hp & Hw). cbn [Resolver.trace] in Ht.
    split; [done|]. exists (show_dependencies p :: more).
    split; [by rewrite Ht, <- app_assoc|]. split; [by constructor|].
    intros result [= Hres]. rewrite Hres in Hw. destruct (Hw eq_refl) as [data ->].
    by exists [show_dependencies p], data.
  - destruct H as (doc & d & -> & _). cbn [fst snd].
    match goal with |- context [Resolver.write_package os json_MarshalIndent ?a ?b ?c] =>
      pose proof (write_package_plain os json_MarshalIndent a b c) as W end.
    cbv zeta in W. destruct W as (more & Ht & Hp & Hw). cbn [Resolver.trace] in Ht.
    split; [done|].
    exists (show_dependencies p :: Resolver.ReadFile (Join root "package.json") :: more).
    split; [by rewrite Ht, <- app_assoc|]. split; [by repeat constructor|].
    intros result [= Hres]. rewrite Hres in Hw. destruct (Hw eq_refl) as [data ->].
    by exists [show_dependencies p; Resolver.ReadFile (Join root "package.json")], data.
Qed.

Section Scan.

Variable env : Mapping.Env.
Variable os : list Resolver.Call → Resolver.Call → Resolver.Response.
Variable json_Unmarshal : string → gmap string Resolver.Value + Resolver.error.
Variable json_MarshalIndent : gmap string Resolver.Entry → string + Resolver.error.
Variable Join : string → string → string.
Variable Abs : string → string * option Resolver.error.
Variable Getwd : string * option Resolver.error.
Variable Environ : list string.
Variable IsNotExist : Resolver.error → bool.

#[local] Abbreviation RunAnalysis :=
  (Analysis.RunAnalysis env os json_Unmarshal json_MarshalIndent Join Abs Getwd Environ
     IsNotExist).
#[local] Abbreviation stage :=
  (Analysis.stage env os json_Unmarshal json_MarshalIndent Join Environ IsNotExist).
#[local] Abbreviation run_fossa := (Analysis.run_fossa env os Environ).
#[local] Abbreviation trace_of st := (Resolver.trace (Analysis.resolver st)).

Lemma set_mapping_same (st : Analysis.State) :
  Analysis.set_mapping (Analysis.mapping st) st = st.
Proof. by destruct st. Qed.

Lemma config_values_settled (p id : string) (c : Mapping.Config) (st : Analysis.State) :
  settled_for p id c st →
  ∃ teamValue,
    Analysis.config_values env p st
    = (Mapping.Returns (teamValue, id, Mapping.Endpoint (Mapping.Fossa c)), st).
Proof.
  intros (Ho & Hc & He & Hid). unfold Analysis.config_values.
  unfold Mapping.GetTeamValue, Mapping.GetFossaProjectID, Mapping.GetFossaEndpoint.
  rewrite !(config_or_exit_settled env _ _ c Ho Hc He). rewrite Hid, set_mapping_same.
  by eexists.
Qed.

Lemma cleanup_trace (t : Analysis.Tracking) (st : Analysis.State) :
  trace_of (Analysis.cleanup os t st) = trace_of st ++ restore_calls t.
Proof.
  unfold Analysis.cleanup, Analysis.call, Resolver.call, restore_calls. cbv zeta.
  destruct (Analysis.nodeModulesCreated t); cbn [fst snd Analysis.resolver
    Analysis.set_resolver Resolver.trace]; [|done].
  by rewrite <- app_assoc.
Qed.

Lemma run_fossa_cases (p id : string) (c : Mapping.Config) (t : Analysis.Tracking)
    (st : Analysis.State) :
  settled_for p id c st →
  ∃ err cmds,
    (run_fossa p t st).1 = Analysis.Returns err
    ∧ not_the_link_error err
    ∧ trace_of (run_fossa p t st).2
      = trace_of st ++ git_commands ++ cmds ++ restore_calls t
    ∧ cmds ≠ []
    ∧ Forall (scan_command (Analysis.absProjectRoot t)
                (Fossa.getFilteredEnv Environ (Analysis.fossa st)).1 id) cmds.
Proof.
  intros Hset. unfold Analysis.run_fossa.
  destruct (config_values_settled p id c st Hset) as [teamValue ->].
  unfold Analysis.call, Resolver.call. cbv zeta.
  cbn [fst snd Analysis.resolver Analysis.set_resolver Analysis.set_fossa Analysis.fossa
       Resolver.trace Resolver.projectRootCache].
  destruct (Fossa.getFilteredEnv Environ (Analysis.fossa st)) as [fenv f] eqn:Ef.
  cbn [fst snd Analysis.resolver Analysis.set_resolver Analysis.set_fossa Analysis.fossa
       Resolver.trace Resolver.projectRootCache].
  set (branch := Analysis.git_value _). set (commit := Analysis.git_value _).
  set (analyze := Resolver.ExecIn _ fenv "fossa" (Analysis.analyze_args _ _ _ _ _)).
  set (test := Resolver.ExecIn _ fenv "fossa" (Analysis.test_args _ _ _)).
  assert (scan_command (Analysis.absProjectRoot t) fenv id analyze) as Ha.
  { subst analyze. eexists _, ["analyze"; "-e"; _; "-T"; _], _. split; reflexivity. }
  assert (scan_command (Analysis.absProjectRoot t) fenv id test) as Ht.
  { subst test. eexists _, ["test"; "-e"; _], _. split; reflexivity. }
  destruct (os _ analyze).2 as [e|]; cbn [fst snd].
  { eexists _, [analyze]. split; [done|]. split; [by vm_compute|].
    rewrite cleanup_trace. tidy. unfold git_commands.
    split; [by rewrite <- !app_assoc|]. split; [done|]. by constructor. }
  destruct (os _ test).2 as [e|]; cbn [fst snd].
  - eexists _, [analyze; test]. split; [done|]. split; [by vm_compute|].
    rewrite cleanup_trace. tidy. unfold git_commands.
    split; [by rewrite <- !app_assoc|]. split; [done|]. by repeat constructor.
  - eexists _, [analyze; test]. split; [done|]. split; [done|].
    rewrite cleanup_trace. tidy. unfold git_commands.
    split; [by rewrite <- !app_assoc|]. split; [done|]. by repeat constructor.
Qed.

Lemma install_cases (p id : string) (c : Mapping.Config) (t : Analysis.Tracking)
    (st : Analysis.State) :
  settled_for p id c st →
  let r := Analysis.install env os json_Unmarshal json_MarshalIndent Join Environ
             IsNotExist p t st in
  let pj := Join (Analysis.absProjectRoot t) "package.json" in
  ∃ calls,
    trace_of r.2 = trace_of st ++ calls
    ∧ (stopped_early r.1 calls
       ∨ (∃ e h data,
            r.1 = Analysis.Returns (Some ("failed to create node_modules symlink: " +:+ e))
            ∧ calls = h ++ [Resolver.WriteFile pj data;
                            Resolver.Stat (Analysis.nodeModulesPath t);
                            Resolver.Symlink (Analysis.monorepoNodeModulesPath t)
                              (Analysis.nodeModulesPath t)]
            ∧ Forall plain_call h)
       ∨ (∃ err (created : bool) pkg cmds,
            r.1 = Analysis.Returns err ∧ not_the_link_error err
            ∧ calls
              = pkg
                ++ Resolver.Stat (Analysis.nodeModulesPath t)
                   :: (if created
                       then [Resolver.Symlink (Analysis.monorepoNodeModulesPath t)
                               (Analysis.nodeModulesPath t)]
                       else [])
                ++ git_commands ++ cmds
                ++ restore_calls
                     {| Analysis.absProjectRoot := Analysis.absProjectRoot t;
                        Analysis.packageJsonPath := Analysis.packageJsonPath t;
                        Analysis.originalPackageJson := Analysis.originalPackageJson t;
                        Analysis.packageJsonExists := Analysis.packageJsonExists t;
                        Analysis.nodeModulesPath := Analysis.nodeModulesPath t;
                        Analysis.monorepoNodeModulesPath :=
                          Analysis.monorepoNodeModulesPath t;
                        Analysis.nodeModulesCreated := created |}
            ∧ Forall plain_call pkg
            ∧ (∃ h data, pkg = h ++ [Resolver.WriteFile pj data])
            ∧ cmds ≠ []
            ∧ Forall (scan_command (Analysis.absProjectRoot t)
                        (Fossa.getFilteredEnv Environ (Analysis.fossa st)).1 id) cmds)).
Proof.
  intros Hset. cbv zeta. unfold Analysis.install.
  pose proof (CreateTemporaryPackageJson_plain os json_Unmarshal json_MarshalIndent Join
                p (Analysis.absProjectRoot t) (Analysis.resolver st)) as H.
  cbv zeta in H. destruct H as (Hnp & pkg & Hpkg & Hplain & Hwritten).
  destruct (Resolver.CreateTemporaryPackageJson _ _ _ _ _ _ _) as [[[res [e|]]|] r1];
    cbn [fst snd] in *; tidy; [| |done].
  { (* the temporary package.json could not be made *)
    exists pkg. split; [done|]. left. eexists. split; [done|]. split; [by vm_compute|done]. }
  destruct (Hwritten res eq_refl) as (h & data & Hh). clear Hwritten.
  (* the link *)
  unfold Analysis.link, Analysis.call, Resolver.call. cbv zeta. tidy.
  set (nm := Analysis.nodeModulesPath t) in *.
  set (mnm := Analysis.monorepoNodeModulesPath t) in *.
  assert (∀ (created : bool) (st1 : Analysis.State) (linking : list Resolver.Call),
            Analysis.mapping st1 = Analysis.mapping st →
            Analysis.fossa st1 = Analysis.fossa st →
            trace_of st1 = trace_of st ++ pkg ++ Resolver.Stat nm :: linking →
            linking = (if created then [Resolver.Symlink mnm nm] else []) →
            let t1 := {| Analysis.absProjectRoot := Analysis.absProjectRoot t;
                         Analysis.packageJsonPath := Analysis.packageJsonPath t;
                         Analysis.originalPackageJson := Analysis.originalPackageJson t;
                         Analysis.packageJsonExists := Analysis.packageJsonExists t;
                         Analysis.nodeModulesPath := nm;
                         Analysis.monorepoNodeModulesPath := mnm;
                         Analysis.nodeModulesCreated := created |} in
            ∃ calls,
              trace_of (run_fossa p t1 st1).2 = trace_of st ++ calls
              ∧ ∃ err (created : bool) pkg cmds,
                  (run_fossa p t1 st1).1 = Analysis.Returns err ∧ not_the_link_error err
                  ∧ calls
                    = pkg ++ Resolver.Stat nm
                         :: (if created then [Resolver.Symlink mnm nm] else [])
                      ++ git_commands ++ cmds
                      ++ restore_calls
                           {| Analysis.absProjectRoot := Analysis.absProjectRoot t;
                              Analysis.packageJsonPath := Analysis.packageJsonPath t;
                              Analysis.originalPackageJson := Analysis.originalPackageJson t;
                              Analysis.packageJsonExists := Analysis.packageJsonExists t;
                              Analysis.nodeModulesPath := nm;
                              Analysis.monorepoNodeModulesPath := mnm;
                              Analysis.nodeModulesCreated := created |}
                  ∧ Forall plain_call pkg
                  ∧ (∃ h data,
                       pkg = h ++ [Resolver.WriteFile
                                     (Join (Analysis.absProjectRoot t) "package.json") data])
                  ∧ cmds ≠ []
                  ∧ Forall (scan_command (Analysis.absProjectRoot t)
                              (Fossa.getFilteredEnv Environ (Analysis.fossa st)).1 id) cmds)
    as Hrun.
  { intros created st1 linking Hm Hf Ht ->. cbv zeta.
    assert (settled_for p id c st1) as Hset1.
    { unfold settled_for in *. by rewrite Hm. }
    match goal with |- context [Analysis.run_fossa env os Environ p ?t1 st1] =>
      destruct (run_fossa_cases p id c t1 st1 Hset1)
        as (err & cmds & Ho & Herr & Htr & Hne & Hcmds) end.
    eexists. split; [by rewrite Htr, Ht, <- !app_assoc|].
    exists err, created, pkg, cmds. rewrite <- Hf.
    split; [done|]. split; [done|]. split; [reflexivity|].
    split; [done|]. split; [by exists h, data|]. done. }
  destruct (os (Resolver.trace r1) (Resolver.Stat nm)).2 as [estat|] eqn:Estat; tidy.
  - destruct (IsNotExist estat); tidy.
    + destruct (os (Resolver.trace r1 ++ [Resolver.Stat nm]) (Resolver.Symlink mnm nm)).2
        as [elink|] eqn:Elink; tidy.
      * (* the link could not be made *)
        eexists. split; [by rewrite Hpkg, <- !app_assoc|]. right. left.
        exists elink, h, data. split; [done|]. rewrite Hh, <- !app_assoc.
        split; [done|]. rewrite Hh in Hplain. by apply Forall_app in Hplain as [? _].
      * rewrite bool_decide_eq_true_2 by done.
        edestruct (Hrun true) as (calls & Ht & Hcase); [..|exists calls; split;
          [exact Ht|right; right; exact Hcase]]; tidy; try done.
        by rewrite Hpkg, <- !app_assoc.
    + edestruct (Hrun false) as (calls & Ht & Hcase); [..|exists calls; split;
        [exact Ht|right; right; exact Hcase]]; tidy; try done.
      by rewrite Hpkg, <- !app_assoc.
  - edestruct (Hrun false) as (calls & Ht & Hcase); [..|exists calls; split;
      [exact Ht|right; right; exact Hcase]]; tidy; try done.
    by rewrite Hpkg, <- !app_assoc.
Qed.

Lemma stage_cases (p id : string) (c : Mapping.Config) (dir mono : string)
    (st : Analysis.State) :
  settled_for p id c st →
  ∃ calls,
    trace_of (stage p dir mono st).2 = trace_of st ++ calls
    ∧ (stopped_early (stage p dir mono st).1 calls
       ∨ link_failed Join dir mono (stage p dir mono st).1 calls
       ∨ scanned os Join (trace_of st) (Fossa.getFilteredEnv Environ (Analysis.fossa st)).1
           dir mono id (stage p dir mono st).1 calls).
Proof.
  intros Hset. unfold Analysis.stage. cbv zeta.
  set (pj := Join dir "package.json"). set (nm := Join dir "node_modules").
  set (mnm := Join mono "node_modules").
  assert (∀ (existed : bool) (original : string) (st1 : Analysis.State)
            (reading : list Resolver.Call),
            Analysis.mapping st1 = Analysis.mapping st →
            Analysis.fossa st1 = Analysis.fossa st →
            trace_of st1 = trace_of st ++ Resolver.Stat pj :: reading →
            reading = (if existed then [Resolver.ReadFile pj] else []) →
            existed = bool_decide ((os (trace_of st) (Resolver.Stat pj)).2 = None) →
            (existed = true →
             original = (os (trace_of st ++ [Resolver.Stat pj]) (Resolver.ReadFile pj)).1) →
            let r := Analysis.install env os json_Unmarshal json_MarshalIndent Join Environ
                       IsNotExist p
                       {| Analysis.absProjectRoot := dir;
                          Analysis.packageJsonPath := pj;
                          Analysis.originalPackageJson := original;
                          Analysis.packageJsonExists := existed;
                          Analysis.nodeModulesPath := nm;
                          Analysis.monorepoNodeModulesPath := mnm;
                          Analysis.nodeModulesCreated := false |} st1 in
            ∃ calls,
              trace_of r.2 = trace_of st ++ calls
              ∧ (stopped_early r.1 calls
                 ∨ link_failed Join dir mono r.1 calls
                 ∨ scanned os Join (trace_of st)
                     (Fossa.getFilteredEnv Environ (Analysis.fossa st)).1
                     dir mono id r.1 calls)) as Hinstall.
  { intros existed original st1 reading Hm Hf Ht -> Hex Horig. cbv zeta.
    assert (settled_for p id c st1) as Hset1.
    { unfold settled_for in *. by rewrite Hm. }
    match goal with |- context [Analysis.install _ _ _ _ _ _ _ p ?t1 st1] =>
      destruct (install_cases p id c t1 st1 Hset1) as (calls & Htr & Hcase) end.
    cbv zeta in Htr, Hcase. cbn [Analysis.absProjectRoot Analysis.nodeModulesPath
      Analysis.monorepoNodeModulesPath Analysis.packageJsonPath
      Analysis.originalPackageJson Analysis.packageJsonExists] in Hcase.
    fold pj in Hcase.
    exists (Resolver.Stat pj :: (if existed then [Resolver.ReadFile pj] else []) ++ calls).
    split; [by rewrite Htr, Ht, <- !app_assoc|].
    destruct Hcase as [(e & Hr & He & Hp)|[(e & h & data & Hr & Hc & Hp)|Hcase]].
    - left. exists e. split; [done|]. split; [done|].
      constructor; [done|]. apply Forall_app. split; [|done].
      destruct existed; by repeat constructor.
    - right. left.
      exists e, (Resolver.Stat pj :: (if existed then [Resolver.ReadFile pj] else []) ++ h),
        data.
      split; [done|]. split; [rewrite Hc; same_list|].
      constructor; [done|]. apply Forall_app. split; [|done].
      destruct existed; by repeat constructor.
    - right. right.
      destruct Hcase as (err & created & pkg & cmds & Hr & He & Hc & Hp & Hw & Hne & Hcmds).
      exists err, existed, original, created, pkg, cmds. rewrite Hf in Hcmds.
      split; [done|]. split; [done|]. split; [by rewrite Hc|]. done. }
  (* the backup *)
  unfold Analysis.backup, Analysis.call, Resolver.call. cbv zeta. tidy.
  destruct (os (trace_of st) (Resolver.Stat pj)).2 as [estat|] eqn:Estat; tidy.
  - (* there is no package.json *)
    apply (Hinstall false "" _ []); tidy; try done.
  - (* there is one: it is read *)
    destruct (os (trace_of st ++ [Resolver.Stat pj]) (Resolver.ReadFile pj))
      as [original [eread|]] eqn:Eread; tidy.
    + eexists. split; [by rewrite <- !app_assoc|]. left.
      eexists. split; [done|]. split; [by vm_compute|]. by repeat constructor.
    + apply (Hinstall true original _ [Resolver.ReadFile pj]); tidy; try done.
      by rewrite <- !app_assoc.
Qed.

#[local] Abbreviation project_dir p st :=
  (Abs (Resolver.GetProjectRoot os json_Unmarshal Join p (Analysis.resolver st)).1.1).1.
#[local] Abbreviation monorepo_dir st :=
  (Fossa.getMonorepoRoot Getwd (Analysis.fossa st)).1.1.
#[local] Abbreviation scan_env st :=
  (Fossa.getFilteredEnv Environ (Fossa.getMonorepoRoot Getwd (Analysis.fossa st)).2).1.

(** How [RunAnalysis] went, for a project that is mapped. *)
Lemma RunAnalysis_cases (p : string) (st : Analysis.State) :
  (Mapping.IsProjectMapped env p (Analysis.mapping st)).1 = Mapping.Returns true →
  ∃ c id roots calls,
    (Mapping.LoadConfig env (Analysis.mapping st)).1 = (Some c, None)
    ∧ Mapping.Projects (Mapping.Fossa c) !! p = Some id
    ∧ Forall plain_call roots
    ∧ trace_of (RunAnalysis p st).2 = trace_of st ++ roots ++ calls
    ∧ (stopped_early (RunAnalysis p st).1 calls
       ∨ link_failed Join (project_dir p st) (monorepo_dir st) (RunAnalysis p st).1 calls
       ∨ scanned os Join (trace_of st ++ roots) (scan_env st)
           (project_dir p st) (monorepo_dir st) id (RunAnalysis p st).1 calls).
Proof.
  intros Hmapped. unfold Analysis.RunAnalysis.
  destruct (Mapping.IsProjectMapped env p (Analysis.mapping st)) as [mapped m] eqn:Em.
  cbn [fst] in Hmapped. subst mapped.
  destruct (mapped_settled env p _ _ Em) as (Ho & c & id & Hc & He & Hid & Hload).
  exists c, id.
  pose proof (GetProjectRoot_plain os json_Unmarshal Join p (Analysis.resolver st))
    as (roots & Hroots & Hplain).
  exists roots. tidy.
  destruct (Resolver.GetProjectRoot os json_Unmarshal Join p (Analysis.resolver st))
    as [[root [eroot|]] r1]; tidy.
  { exists []. rewrite app_nil_r. repeat (split; [done|]). left.
    eexists. split; [done|]. split; [by vm_compute|done]. }
  destruct (Abs root) as [dir [eabs|]]; tidy.
  { exists []. rewrite app_nil_r. repeat (split; [done|]). left.
    eexists. split; [done|]. split; [by vm_compute|done]. }
  destruct (Fossa.getMonorepoRoot Getwd (Analysis.fossa st)) as [[mono [emono|]] f1]; tidy.
  { exists []. rewrite app_nil_r. repeat (split; [done|]). left.
    eexists. split; [done|]. split; [by vm_compute|done]. }
  match goal with |- context [Analysis.stage _ _ _ _ _ _ _ p dir mono ?st1] =>
    destruct (stage_cases p id c dir mono st1) as (calls & Htr & Hcase) end.
  { by repeat split. }
  tidy. exists calls. repeat (split; [done|]).
  split; [by rewrite Htr, Hroots, <- !app_assoc|].
  by rewrite <- Hroots.
Qed.

Lemma scan_calls_app (st st' : Analysis.State) (calls : list Resolver.Call) :
  trace_of st' = trace_of st ++ calls → scan_calls st st' = calls.
Proof. intros H. unfold scan_calls. by rewrite H, drop_app_length. Qed.

Lemma RunAnalysis_not_mapped (p : string) (st : Analysis.State) :
  (Mapping.IsProjectMapped env p (Analysis.mapping st)).1 ≠ Mapping.Returns true →
  trace_of (RunAnalysis p st).2 = trace_of st
  ∧ Analysis.fossa (RunAnalysis p st).2 = Analysis.fossa st
  ∧ match (Mapping.IsProjectMapped env p (Analysis.mapping st)).1 with
    | Mapping.Returns _ =>
        (RunAnalysis p st).1
        = Analysis.Returns
            (Some ("project " +:+ p +:+ " is not mapped in configuration"))
    | Mapping.Exits code => (RunAnalysis p st).1 = Analysis.Exits code
    | Mapping.Panics => (RunAnalysis p st).1 = Analysis.Panics
    end.
Proof.
  intros H. unfold Analysis.RunAnalysis.
  destruct (Mapping.IsProjectMapped env p (Analysis.mapping st)) as [[[|]| |] m];
    by tidy.
Qed.




Lemma mapped_or_not (p : string) (st : Analysis.State) :
  (Mapping.IsProjectMapped env p (Analysis.mapping st)).1 = Mapping.Returns true
  ∨ (Mapping.IsProjectMapped env p (Analysis.mapping st)).1 ≠ Mapping.Returns true.
Proof.
  destruct (Mapping.IsProjectMapped env p (Analysis.mapping st)).1 as [[|]| |];
    by auto.
Qed.

Lemma plain_no_command (calls : list Resolver.Call) (dir : string) (fenv : list string)
    (name : string) (args : list string) :
  Forall plain_call calls → Resolver.ExecIn dir fenv name args ∉ calls.
Proof.
  intros Hp Hin. rewrite Forall_forall in Hp. by apply Hp in Hin.
Qed.

(** A command of a scan that is run in a directory is one of its fossa
    commands. *)
Lemma scanned_command (history : list Resolver.Call) (fenv : list string)
    (dir mono id : string) (r : Analysis.Outcome) (calls : list Resolver.Call)
    (dir' : string) (fenv' : list string) (name : string) (args : list string) :
  scanned os Join history fenv dir mono id r calls →
  Resolver.ExecIn dir' fenv' name args ∈ calls →
  scan_command dir fenv id (Resolver.ExecIn dir' fenv' name args).
Proof.
  intros (err & existed & original & created & pkg & cmds & _ & _ & -> & Hp & _ & _
          & Hcmds & _) Hin.
  rewrite Forall_forall in Hcmds.
  apply elem_of_cons in Hin as [Hin|Hin]; [done|].
  apply elem_of_app in Hin as [Hin|Hin]; [destruct existed; no_member Hin|].
  apply elem_of_app in Hin as [Hin|Hin]; [by apply plain_no_command in Hin|].
  apply elem_of_cons in Hin as [Hin|Hin]; [done|].
  apply elem_of_app in Hin as [Hin|Hin]; [destruct created; no_member Hin|].
  apply elem_of_app in Hin as [Hin|Hin]; [unfold git_commands in Hin; no_member Hin|].
  apply elem_of_app in Hin as [Hin|Hin]; [by apply Hcmds|].
  unfold restore_calls in Hin.
  cbn [Analysis.packageJsonExists Analysis.nodeModulesCreated] in Hin.
  destruct existed, created; no_member Hin.
Qed.

(** X28. Once a scan has run fossa, it cleans up after itself, whether
    fossa succeeded or not.  The last thing it does to package.json is to
    write back what it read from it before touching it, or to remove it
    if there was none; and it removes the node_modules link exactly when
    it made that link itself.  Everything else it does is named: the
    backup, the temporary package.json, the link, the two git commands
    and the fossa commands, in this order. *)
Theorem X28_scan_restores_what_it_changed (p : string) (st : Analysis.State)
    (dir : string) (fenv : list string) (args : list string) :
  Resolver.ExecIn dir fenv "fossa" args ∈ scan_calls st (RunAnalysis p st).2 →
  ∃ id roots calls,
    scan_calls st (RunAnalysis p st).2 = roots ++ calls
    ∧ Forall plain_call roots
    ∧ scanned os Join (trace_of st ++ roots) (scan_env st)
        (project_dir p st) (monorepo_dir st) id (RunAnalysis p st).1 calls.
Proof.
  intros Hin.
  destruct (mapped_or_not p st) as [Em|Em].
  - destruct (RunAnalysis_cases p st Em)
      as (c & id & roots & calls & _ & _ & Hroots & Ht & H).
    apply scan_calls_app in Ht. rewrite Ht in Hin. exists id, roots, calls.
    split; [done|]. split; [done|].
    apply elem_of_app in Hin as [Hin|Hin]; [by apply plain_no_command in Hin|].
    destruct H as [(e & _ & _ & Hp)|[(e & h & data & _ & -> & Hp)|H]]; [..|done].
    + by apply plain_no_command in Hin.
    + apply elem_of_app in Hin as [Hin|Hin]; [by apply plain_no_command in Hin|].
      no_member Hin.
  - destruct (RunAnalysis_not_mapped p st Em) as (Ht & _).
    rewrite (scan_calls_app st _ []) in Hin by (by rewrite app_nil_r). no_member Hin.
Qed.

(** X29. When the node_modules link cannot be made, the scan returns at
    once, and what it has done stays: the last three calls are the
    writing of the temporary package.json, the look for node_modules and
    the failed link.  The package.json the project had is neither written
    back nor is the temporary one removed. *)
Theorem X29_failed_link_leaves_temporary_file (p e : string) (st : Analysis.State) :
  (RunAnalysis p st).1 = Analysis.Returns (Some e) →
  HasPrefix e "failed to create node_modules symlink" = true →
  ∃ before data,
    scan_calls st (RunAnalysis p st).2
    = before
      ++ [Resolver.WriteFile (Join (project_dir p st) "package.json") data;
          Resolver.Stat (Join (project_dir p st) "node_modules");
          Resolver.Symlink (Join (monorepo_dir st) "node_modules")
            (Join (project_dir p st) "node_modules")]
    ∧ Forall plain_call before.
Proof.
  intros Hr He.
  destruct (mapped_or_not p st) as [Em|Em].
  - destruct (RunAnalysis_cases p st Em)
      as (c & id & roots & calls & _ & _ & Hroots & Ht & H).
    apply scan_calls_app in Ht. rewrite Ht.
    destruct H as [(e' & Hr' & Hne & _)|[(e' & h & data & _ & -> & Hp)|H]].
    + rewrite Hr in Hr'. injection Hr' as <-. unfold not_the_link_error in Hne.
      congruence.
    + exists (roots ++ h), data. rewrite <- app_assoc. split; [done|].
      by apply Forall_app.
    + destruct H as (err & existed & original & created & pkg & cmds & Hr' & Hne & _).
      rewrite Hr in Hr'. injection Hr' as <-. unfold not_the_link_error in Hne.
      congruence.
  - destruct (RunAnalysis_not_mapped p st Em) as (_ & _ & H).
    destruct (Mapping.IsProjectMapped env p (Analysis.mapping st)).1; try congruence.
    rewrite Hr in H. injection H as ->. by vm_compute in He.
Qed.

Lemma getFilteredEnv_filtered (f : Fossa.State) (wd : string * option Resolver.error) :
  fossa_sound f →
  filtered (Fossa.getFilteredEnv Environ (Fossa.getMonorepoRoot wd f).2).1.
Proof.
  intros Hs. unfold Fossa.getFilteredEnv, Fossa.getMonorepoRoot.
  destruct (Fossa.monorepoRootOnce f); cbn [fst snd Fossa.filteredEnvOnce
    Fossa.filteredEnvVars];
    (destruct (Fossa.filteredEnvOnce f) eqn:Eo; cbn [Fossa.filteredEnvVars];
     [by apply Hs|]);
    rewrite keep_env_filter; cbn [app]; apply Forall_forall; intros v Hv;
    by apply list_elem_of_filter in Hv as [Hv _].
Qed.

(** X30. What fossa is run with.  Every command a scan runs in a
    directory of its own is a fossa command, run in the absolute project
    root, with an environment that has no SSL_CERT_DIR entry, and told
    with -p the identifier the configuration maps the project to, never
    the default project. *)
Theorem X30_fossa_runs_in_the_project_with_its_id (p : string) (st : Analysis.State)
    (dir : string) (fenv : list string) (name : string) (args : list string) :
  fossa_sound (Analysis.fossa st) →
  Resolver.ExecIn dir fenv name args ∈ scan_calls st (RunAnalysis p st).2 →
  name = "fossa" ∧ dir = project_dir p st ∧ filtered fenv
  ∧ ∃ c id before after,
      (Mapping.LoadConfig env (Analysis.mapping st)).1 = (Some c, None)
      ∧ Mapping.Projects (Mapping.Fossa c) !! p = Some id
      ∧ args = before ++ "-p" :: id :: after.
Proof.
  intros Hsound Hin.
  destruct (mapped_or_not p st) as [Em|Em].
  - destruct (RunAnalysis_cases p st Em)
      as (c & id & roots & calls & Hload & Hid & Hroots & Ht & H).
    apply scan_calls_app in Ht. rewrite Ht in Hin.
    apply elem_of_app in Hin as [Hin|Hin]; [by apply plain_no_command in Hin|].
    destruct H as [(e & _ & _ & Hp)|[(e & h & data & _ & -> & Hp)|H]].
    + by apply plain_no_command in Hin.
    + apply elem_of_app in Hin as [Hin|Hin]; [by apply plain_no_command in Hin|].
      no_member Hin.
    + destruct (scanned_command _ _ _ _ _ _ _ _ _ _ _ H Hin)
        as (args' & before & after & [= -> -> -> ->] & Hargs).
      split; [done|]. split; [done|]. split; [by apply getFilteredEnv_filtered|].
      by exists c, id, before, after.
  - destruct (RunAnalysis_not_mapped p st Em) as (Ht & _).
    rewrite (scan_calls_app st _ []) in Hin by (by rewrite app_nil_r). set_solver.
Qed.

End Scan.


Lemma X28_witness :
  (scan_sample os_scan).1
  = Analysis.Returns (Some "FOSSA test command failed: exit status 1")
  ∧ Resolver.ExecIn "/repo/apps/app1" ["PATH=/bin"] "fossa"
      (Analysis.test_args "https://fossa.example.com" "custom+1/app1" "0123456789abcdef")
    ∈ scan_calls Analysis.initial (scan_sample os_scan).2
  ∧ ∃ id roots calls,
      scan_calls Analysis.initial (scan_sample os_scan).2 = roots ++ calls
      ∧ Forall plain_call roots
      ∧ scanned os_scan join_sample
          (Resolver.trace (Analysis.resolver Analysis.initial) ++ roots)
          ["PATH=/bin"] "/repo/apps/app1" "/repo" id (scan_sample os_scan).1 calls.
Proof.
  split; [vm_compute; reflexivity|].
  assert (Resolver.ExecIn "/repo/apps/app1" ["PATH=/bin"] "fossa"
            (Analysis.test_args "https://fossa.example.com" "custom+1/app1"
               "0123456789abcdef")
          ∈ scan_calls Analysis.initial (scan_sample os_scan).2) as Hin
    by (vm_compute; repeat constructor).
  split; [exact Hin|].
  exact (X28_scan_restores_what_it_changed env_sample os_scan json_sample marshal_sample
           join_sample abs_sample ("/repo", None)
           ["PATH=/bin"; "SSL_CERT_DIR=/etc/ssl"] is_not_exist_sample
           "app1" Analysis.initial _ _ _ Hin).
Defined.

Lemma X29_witness :
  (scan_sample os_no_link).1
  = Analysis.Returns (Some "failed to create node_modules symlink: operation not permitted")
  ∧ ∃ before data,
      scan_calls Analysis.initial (scan_sample os_no_link).2
      = before
        ++ [Resolver.WriteFile "/repo/apps/app1/package.json" data;
            Resolver.Stat "/repo/apps/app1/node_modules";
            Resolver.Symlink "/repo/node_modules" "/repo/apps/app1/node_modules"]
      ∧ Forall plain_call before.
Proof.
  assert ((scan_sample os_no_link).1
          = Analysis.Returns
              (Some "failed to create node_modules symlink: operation not permitted"))
    as H by (vm_compute; reflexivity).
  split; [exact H|].
  exact (X29_failed_link_leaves_temporary_file env_sample os_no_link json_sample
           marshal_sample join_sample abs_sample ("/repo", None)
           ["PATH=/bin"; "SSL_CERT_DIR=/etc/ssl"] is_not_exist_sample
           "app1" _ Analysis.initial H eq_refl).
Defined.

Lemma X30_witness :
  fossa_sound (Analysis.fossa Analysis.initial)
  ∧ Resolver.ExecIn "/repo/apps/app1" ["PATH=/bin"] "fossa"
      (Analysis.test_args "https://fossa.example.com" "custom+1/app1" "0123456789abcdef")
    ∈ scan_calls Analysis.initial (scan_sample os_scan).2
  ∧ filtered ["PATH=/bin"].
Proof.
  assert (fossa_sound (Analysis.fossa Analysis.initial)) as H
    by (unfold fossa_sound; simpl; intros E; discriminate E).
  assert (Resolver.ExecIn "/repo/apps/app1" ["PATH=/bin"] "fossa"
            (Analysis.test_args "https://fossa.example.com" "custom+1/app1"
               "0123456789abcdef")
          ∈ scan_calls Analysis.initial (scan_sample os_scan).2) as Hin
    by (vm_compute; repeat constructor).
  split; [exact H|]. split; [exact Hin|].
  exact (proj1 (proj2 (proj2
           (X30_fossa_runs_in_the_project_with_its_id env_sample os_scan json_sample
              marshal_sample join_sample abs_sample ("/repo", None)
              ["PATH=/bin"; "SSL_CERT_DIR=/etc/ssl"] is_not_exist_sample
              "app1" Analysis.initial _ _ _ _ H Hin)))).
Defined.
